(** * Memory Bank starter: the scaffolder, search, browse and index tools

    A shallow embedding of the four Node.js command-line tools of the
    repository ([init-memory-bank.js] and the scripts [memory-search.js],
    [memory-browse.js], [memory-update.js]) and the proofs of their
    specified properties.

    Modelling conventions.
    - A JavaScript string is a sequence of UTF-16 code units.  The model
      covers the code units below 256 and writes them as [ascii]; the
      pictographs of the console messages are written as the bytes of the
      source file.
    - The file system is a tree of directories and regular files; a
      directory lists its entries in the order [fs.readdirSync] returns
      them.  Paths are POSIX paths.
    - An exception that the script does not catch ends the run; it is
      an explicit error value here. *)

From Stdlib Require Import String Ascii List Bool Arith NArith Lia.
From Stdlib Require Import DecimalString Sorted.
Import ListNotations.
Open Scope string_scope.
Open Scope list_scope.

(* ================================================================= *)
(** ** JavaScript strings *)

Definition LF : ascii := "010"%char.
Definition CR : ascii := "013"%char.
Definition DQUOTE : ascii := "034"%char.

(** The one-character string, and the newline as a string. *)
Definition str1 (c : ascii) : string := String c EmptyString.
Definition nl : string := str1 LF.

(** [String.prototype.toLowerCase] on code units below 256: the Latin
    capital letters A-Z and U+00C0-U+00DE (without the multiplication
    sign U+00D7) move up by 32. *)
Definition isUpperCase (c : ascii) : bool :=
  let n := N_of_ascii c in
  (((65 <=? n) && (n <=? 90)) ||
   ((192 <=? n) && (n <=? 222) && negb (n =? 215)))%N.

Definition toLowerCaseChar (c : ascii) : ascii :=
  if isUpperCase c then ascii_of_N (N_of_ascii c + 32) else c.

Fixpoint toLowerCase (s : string) : string :=
  match s with
  | EmptyString => EmptyString
  | String c s' => String (toLowerCaseChar c) (toLowerCase s')
  end.

(** [s.startsWith(p)] and [s.includes(t)]. *)
Definition startsWith (s p : string) : bool := prefix p s.

Fixpoint includes (s t : string) : bool :=
  prefix t s ||
  match s with
  | EmptyString => false
  | String _ s' => includes s' t
  end.

Fixpoint rev_string (acc s : string) : string :=
  match s with
  | EmptyString => acc
  | String c s' => rev_string (String c acc) s'
  end.

Definition reverse (s : string) : string := rev_string EmptyString s.

(** [s.endsWith(p)]. *)
Definition endsWith (s p : string) : bool := prefix (reverse p) (reverse s).

(** White space and line terminators of ECMAScript below 256: TAB, LF,
    VT, FF, CR, SP and NBSP.  This is the set that [trim] strips and
    that the class [\s] matches. *)
Definition isWhiteSpace (c : ascii) : bool :=
  let n := N_of_ascii c in
  (((9 <=? n) && (n <=? 13)) || (n =? 32) || (n =? 160))%N.

(** Line terminators below 256, the characters after which [^] matches
    under the [m] flag and which [.] does not match. *)
Definition isLineTerminator (c : ascii) : bool :=
  Ascii.eqb c LF || Ascii.eqb c CR.

Fixpoint trimStart (s : string) : string :=
  match s with
  | EmptyString => EmptyString
  | String c s' => if isWhiteSpace c then trimStart s' else s
  end.

Definition trimEnd (s : string) : string := reverse (trimStart (reverse s)).

Definition trim (s : string) : string := trimEnd (trimStart s).

(** [s.split(sep)] for a one-character separator: never the empty list. *)
Fixpoint split (sep : ascii) (s : string) : list string :=
  match s with
  | EmptyString => [EmptyString]
  | String c s' =>
      if Ascii.eqb c sep then EmptyString :: split sep s'
      else match split sep s' with
           | l :: ls => String c l :: ls
           | [] => [str1 c]
           end
  end.

(** The longest prefix of characters satisfying [p], and what follows. *)
Fixpoint takeWhile (p : ascii -> bool) (s : string) : string :=
  match s with
  | EmptyString => EmptyString
  | String c s' => if p c then String c (takeWhile p s') else EmptyString
  end.

Fixpoint dropWhile (p : ascii -> bool) (s : string) : string :=
  match s with
  | EmptyString => EmptyString
  | String c s' => if p c then dropWhile p s' else s
  end.

(** [s.substring(n)] for [n] within the string. *)
Fixpoint drop (n : nat) (s : string) : string :=
  match n, s with
  | O, _ => s
  | S k, String _ s' => drop k s'
  | S _, EmptyString => EmptyString
  end.

Definition isEmpty (s : string) : bool :=
  match s with EmptyString => true | _ => false end.

(* ================================================================= *)
(** ** The file system *)

(** What [fs.statSync] reports and the index records: the size in bytes
    and the modification time (as the ISO text its JSON form has). *)
Record Stats := { size : N; mtime : string }.

#[local] Unset Elimination Schemes.
Inductive node :=
| File (content : string) (st : Stats)
| Dir (entries : list (string * node)).
#[local] Set Elimination Schemes.

Definition isDirectory (n : node) : bool :=
  match n with Dir _ => true | File _ _ => false end.

Definition isFile (n : node) : bool :=
  match n with Dir _ => false | File _ _ => true end.

(** [path.join(dir, file)] relative to the memory-bank root, which is
    what [path.relative(memoryBankDir, filePath)] returns; the root
    itself is the empty path. *)
Definition joinPath (dir file : string) : string :=
  if isEmpty dir then file else dir ++ "/" ++ file.

(** The first entry of a directory listing with a given name. *)
Fixpoint lookup (name : string) (es : list (string * node)) : option node :=
  match es with
  | [] => None
  | (k, n) :: rest => if String.eqb k name then Some n else lookup name rest
  end.

(** Errors of the [fs] calls and of the property accesses that throw. *)
Inductive error :=
| ENOENT (path : string)
| ENOTDIR (path : string)
| EISDIR (path : string)
| TypeError (what : string)
| SyntaxError (what : string).

(** Exceptions are values: a computation returns an error or a result. *)
Definition result (A : Type) : Type := (error + A)%type.
Definition ok {A : Type} (a : A) : result A := inr a.
Definition throw {A : Type} (e : error) : result A := inl e.
Definition bind {A B : Type} (r : result A) (k : A -> result B) : result B :=
  match r with
  | inl e => inl e
  | inr a => k a
  end.

Notation "x <- r ;; k" := (bind r (fun x => k))
  (at level 61, r at next level, right associativity).

(** What a run writes to the terminal, in order: [console.log],
    [console.error] and the prompt of [rl.question]. *)
Inductive output :=
| Log (text : string)
| Err (text : string)
| Prompt (query : string).

(** The outcome of running a script on the project directory (the
    parent of [scripts/], which is also the directory of
    [init-memory-bank.js]): what it wrote to the terminal, the exception
    that was thrown if any, the exit code ([None] when the process is
    left waiting on an open [readline] interface) and the entries of
    the project directory afterwards. *)
Record Run := {
  run_output : list output;
  run_error : option error;
  run_exit : option nat;
  run_fs : list (string * node)
}.

(** [String(n)] for a non-negative integer. *)
Definition natToString (n : nat) : string :=
  NilEmpty.string_of_uint (Nat.to_uint n).

Definition NToString (n : N) : string :=
  NilEmpty.string_of_uint (N.to_uint n).

(* ================================================================= *)
(** ** memory-search.js *)

Record SearchMatch := {
  match_file : string;
  match_line : nat;
  match_content : string
}.

(** The body of [lines.forEach((line, index) => ...)] of [searchInFile]. *)
Fixpoint searchLines (file term : string) (lines : list string) (index : nat)
  : list SearchMatch :=
  match lines with
  | [] => []
  | line :: rest =>
      (if includes (toLowerCase line) (toLowerCase term)
       then [ {| match_file := file;
                 match_line := index + 1;
                 match_content := trim line |} ]
       else [])
      ++ searchLines file term rest (S index)
  end.

(** [searchInFile(filePath, term)]; [file] is [filePath] relative to the
    memory-bank root and [content] what [readFileSync] returns. *)
Definition searchInFile (file content term : string) : list SearchMatch :=
  searchLines file term (split LF content) 0.

(** [searchDirectory(dir, term)]: [n] is the node at [dir] and [rel] the
    path of [dir] below the memory-bank root.  [readdirSync] throws on a
    regular file; the recursion only descends into directories. *)
Fixpoint searchDirectory (n : node) (rel term : string) : list SearchMatch :=
  match n with
  | File _ _ => []
  | Dir es =>
      flat_map
        (fun e : string * node =>
           let (file, child) := e in
           match child with
           | Dir _ =>
               if negb (startsWith file ".")
               then searchDirectory child (joinPath rel file) term
               else []
           | File content _ =>
               if endsWith file ".md"
               then searchInFile (joinPath rel file) content term
               else []
           end)
        es
  end.

(** *** Paths *)

(** The node a path of entry names leads to, from [n]. *)
Fixpoint nodeAt (n : node) (segs : list string) (target : node) : Prop :=
  match segs with
  | [] => n = target
  | name :: rest =>
      match n with
      | Dir es => exists child, In (name, child) es /\ nodeAt child rest target
      | File _ _ => False
      end
  end.

(** The relative path that the scripts compute for a path of names. *)
Definition relativePath (segs : list string) : string :=
  fold_left joinPath segs EmptyString.

(** The paths that the search visits: no directory on the way is hidden
    and the file name ends in [.md]. *)
Fixpoint searchedPath (segs : list string) : bool :=
  match segs with
  | [] => false
  | name :: rest =>
      match rest with
      | [] => endsWith name ".md"
      | _ :: _ => negb (startsWith name ".") && searchedPath rest
      end
  end.

(** Any Markdown file below the root, hidden directories included. *)
Definition markdownPath (segs : list string) : bool :=
  endsWith (last segs EmptyString) ".md".

(** The two [console.log] calls for one match. *)
Definition printMatch (r : SearchMatch) : list output :=
  [ Log ("📄 " ++ match_file r ++ ":" ++ natToString (match_line r));
    Log ("   " ++ match_content r ++ nl) ].

(** The script: [argv2] is [process.argv[2]].  An absent or empty search
    term is falsy and ends the run with the usage line and exit code 1. *)
Definition memorySearch (argv2 : option string) (project : list (string * node))
  : Run :=
  let searchTerm := match argv2 with Some t => t | None => EmptyString end in
  if isEmpty searchTerm then
    {| run_output := [Log "Usage: npm run memory:search <keyword>"];
       run_error := None; run_exit := Some 1; run_fs := project |}
  else
    let banner :=
      Log (nl ++ "🔍 Searching for: " ++ str1 DQUOTE ++ searchTerm
              ++ str1 DQUOTE ++ nl) in
    match lookup "memory-bank" project with
    | None =>
        {| run_output := [banner]; run_error := Some (ENOENT "memory-bank");
           run_exit := Some 1; run_fs := project |}
    | Some (File _ _) =>
        {| run_output := [banner]; run_error := Some (ENOTDIR "memory-bank");
           run_exit := Some 1; run_fs := project |}
    | Some (Dir es) =>
        let results := searchDirectory (Dir es) EmptyString searchTerm in
        {| run_output :=
             banner ::
             match results with
             | [] => [Log "No results found."]
             | _ :: _ =>
                 Log ("Found " ++ natToString (List.length results)
                        ++ " matches:" ++ nl)
                 :: flat_map printMatch results
             end;
           run_error := None; run_exit := Some 0; run_fs := project |}
    end.

(* ================================================================= *)
(** ** memory-browse.js *)

(** [browseDirectory(dir, indent)]: the lines it logs. *)
Fixpoint browseDirectory (n : node) (indent : string) : list string :=
  match n with
  | File _ _ => []
  | Dir es =>
      flat_map
        (fun e : string * node =>
           let (file, child) := e in
           match child with
           | Dir _ =>
               (indent ++ "📁 " ++ file ++ "/")%string
               :: browseDirectory child (indent ++ "  ")
           | File _ _ =>
               if endsWith file ".md"
               then [(indent ++ "📄 " ++ file)%string]
               else []
           end)
        es
  end.

(** The names of the directories among the entries of the root:
    [readdirSync(memoryBankDir).filter(... isDirectory())]. *)
Definition availableCategories (es : list (string * node)) : list string :=
  map fst (filter (fun e => isDirectory (snd e)) es).

(** [categoryPath], when [fs.existsSync] finds it. *)
Definition resolveCategory (category : string) (project : list (string * node))
  : option node :=
  match lookup "memory-bank" project with
  | Some (Dir es) => lookup category es
  | _ => None
  end.

(** The script.  The category is a single path component (the name of
    an entry of the memory-bank root); separators and dot segments in
    the argument, which [path.join] would normalise, are not modelled. *)
Definition memoryBrowse (argv2 : option string) (project : list (string * node))
  : Run :=
  let category := match argv2 with Some c => c | None => EmptyString end in
  if isEmpty category then
    let usage := [ Log "Usage: npm run memory:browse <category>";
                   Log (nl ++ "Available categories:") ] in
    match lookup "memory-bank" project with
    | None =>
        {| run_output := usage; run_error := Some (ENOENT "memory-bank");
           run_exit := Some 1; run_fs := project |}
    | Some (File _ _) =>
        {| run_output := usage; run_error := Some (ENOTDIR "memory-bank");
           run_exit := Some 1; run_fs := project |}
    | Some (Dir es) =>
        {| run_output :=
             usage ++ map (fun cat => Log ("  - " ++ cat)) (availableCategories es);
           run_error := None; run_exit := Some 1; run_fs := project |}
    end
  else
    match resolveCategory category project with
    | None =>
        {| run_output := [Err ("Category '" ++ category ++ "' not found")];
           run_error := None; run_exit := Some 1; run_fs := project |}
    | Some (File _ _) =>
        {| run_output := [Log (nl ++ "📂 Browsing: " ++ category ++ nl)];
           run_error := Some (ENOTDIR category);
           run_exit := Some 1; run_fs := project |}
    | Some (Dir es) =>
        {| run_output :=
             Log (nl ++ "📂 Browsing: " ++ category ++ nl)
             :: map Log (browseDirectory (Dir es) EmptyString)
             ++ [Log (nl ++ "✨ Use memory:search to search within files")];
           run_error := None; run_exit := Some 0; run_fs := project |}
    end.

(* ================================================================= *)
(** ** memory-update.js: metadata extraction *)

Record Metadata := {
  meta_title : string;
  meta_tags : list string;
  meta_summary : string
}.

Definition notLineTerminator (c : ascii) : bool := negb (isLineTerminator c).
Definition notLF (c : ascii) : bool := negb (Ascii.eqb c LF).
Definition notCloseBracket (c : ascii) : bool := negb (Ascii.eqb c "]").

(** The rest of [/^#\s+(.+)$/m] once [#] and one [\s] are consumed, at
    [s].  The greedy [\s+] first takes one more white-space character;
    when that fails it backtracks and [(.+)] must match here, which it
    does on any character but a line terminator, up to the end of the
    line, where [$] holds. *)
Fixpoint titleCapture (s : string) : option string :=
  match s with
  | EmptyString => None
  | String c s' =>
      let here :=
        if isLineTerminator c then None
        else Some (takeWhile notLineTerminator s) in
      if isWhiteSpace c then
        match titleCapture s' with
        | Some t => Some t
        | None => here
        end
      else here
  end.

(** [/#\s+(.+)$/m] attempted at the start of [s]. *)
Definition titleAt (s : string) : option string :=
  match s with
  | String "#" (String w r) => if isWhiteSpace w then titleCapture r else None
  | _ => None
  end.

(** [content.match(/^#\s+(.+)$/m)]: the leftmost position where the
    pattern matches; [^] holds at the start and after a line
    terminator. *)
Fixpoint matchTitleFrom (lineStart : bool) (s : string) : option string :=
  match (if lineStart then titleAt s else None) with
  | Some t => Some t
  | None =>
      match s with
      | EmptyString => None
      | String c s' => matchTitleFrom (isLineTerminator c) s'
      end
  end.

Definition matchTitle (content : string) : option string :=
  matchTitleFrom true content.

(** [/tags:\s*\[([^\]]+)\]/] attempted at the start of [s]. *)
Definition tagsAt (s : string) : option string :=
  if prefix "tags:" s then
    match dropWhile isWhiteSpace (drop 5 s) with
    | String "[" r =>
        match takeWhile notCloseBracket r, dropWhile notCloseBracket r with
        | String c run, String _ _ => Some (String c run)
        | _, _ => None
        end
    | _ => None
    end
  else None.

Fixpoint matchTags (s : string) : option string :=
  match tagsAt s with
  | Some t => Some t
  | None =>
      match s with
      | EmptyString => None
      | String _ s' => matchTags s'
      end
  end.

(** [(?!#)([^\n]+)] attempted at the start of [s]. *)
Definition summaryAt (s : string) : option string :=
  match s with
  | EmptyString => None
  | String c _ =>
      if Ascii.eqb c "#" || Ascii.eqb c LF then None
      else Some (takeWhile notLF s)
  end.

(** [content.match(/^(?!#)([^\n]+)/m)]. *)
Fixpoint matchSummaryFrom (lineStart : bool) (s : string) : option string :=
  match (if lineStart then summaryAt s else None) with
  | Some t => Some t
  | None =>
      match s with
      | EmptyString => None
      | String c s' => matchSummaryFrom (isLineTerminator c) s'
      end
  end.

Definition matchSummary (content : string) : option string :=
  matchSummaryFrom true content.

Definition extractMetadata (content : string) : Metadata :=
  {| meta_title :=
       match matchTitle content with
       | Some t => t
       | None => EmptyString
       end;
     meta_tags :=
       match matchTags content with
       | Some t => map trim (split "," t)
       | None => []
       end;
     meta_summary :=
       match matchSummary content with
       | Some t => t
       | None => EmptyString
       end |}.

(** [s.replace(pat, '')] for a string pattern: the first occurrence goes. *)
Fixpoint removeFirst (pat s : string) : string :=
  if prefix pat s then drop (String.length pat) s
  else match s with
       | EmptyString => EmptyString
       | String c s' => String c (removeFirst pat s')
       end.

(** [s.replace(/\n/g, ' ')]. *)
Fixpoint newlinesToSpaces (s : string) : string :=
  match s with
  | EmptyString => EmptyString
  | String c s' =>
      String (if Ascii.eqb c LF then " "%char else c) (newlinesToSpaces s')
  end.

(** [a || b] on strings: the empty string is falsy. *)
Definition orElse (a b : string) : string := if isEmpty a then b else a.

(** The three extracted fields of an index entry. *)
Definition entryTitle (file content : string) : string :=
  orElse (meta_title (extractMetadata content)) (removeFirst ".md" file).

Definition entrySummary (content : string) : string :=
  orElse (meta_summary (extractMetadata content))
         (newlinesToSpaces (substring 0 200 content)).

(* ================================================================= *)
(** ** JavaScript objects used as maps *)

(** An object keeps its string keys in insertion order. *)
Definition obj (A : Type) : Type := list (string * A).

Fixpoint objGet {A : Type} (k : string) (o : obj A) : option A :=
  match o with
  | [] => None
  | (k', v) :: rest => if String.eqb k' k then Some v else objGet k rest
  end.

(** Defining or updating an own property: an existing key keeps its
    place, a new key goes last. *)
Fixpoint objSet {A : Type} (k : string) (v : A) (o : obj A) : obj A :=
  match o with
  | [] => [(k, v)]
  | (k', v') :: rest =>
      if String.eqb k' k then (k, v) :: rest else (k', v') :: objSet k v rest
  end.

(** The assignment [o[k] = v] on an object created by a literal.  The
    key [__proto__] runs the setter of [Object.prototype]: the value
    becomes the prototype and no own property appears. *)
Definition objAssign {A : Type} (k : string) (v : A) (o : obj A) : obj A :=
  if String.eqb k "__proto__" then o else objSet k v o.

(** [o[k].push(v)] on an object of arrays.  For [__proto__] the array is
    the prototype installed by an earlier assignment, which no own
    property shows; a missing key gives [undefined.push]. *)
Definition objPush (k v : string) (o : obj (list string))
  : result (obj (list string)) :=
  if String.eqb k "__proto__" then ok o
  else match objGet k o with
       | Some l => ok (objSet k (l ++ [v])%list o)
       | None => throw (TypeError "Cannot read properties of undefined")
       end.

(** The property names of [Object.prototype]: reading one of them on an
    object that does not own it gives the inherited, truthy value. *)
Definition objectPrototypeKeys : list string :=
  [ "constructor"; "__defineGetter__"; "__defineSetter__"; "hasOwnProperty";
    "__lookupGetter__"; "__lookupSetter__"; "isPrototypeOf";
    "propertyIsEnumerable"; "toString"; "valueOf"; "__proto__";
    "toLocaleString" ].

Definition inherited (k : string) : bool :=
  existsb (String.eqb k) objectPrototypeKeys.

(* ================================================================= *)
(** ** memory-update.js: the index *)

Record Entry := {
  entry_category : string;
  entry_size : N;
  entry_modified : string;
  entry_title : string;
  entry_tags : list string;
  entry_summary : string
}.

Record Index := {
  index_updated : string;
  index_files : obj Entry;
  index_categories : obj (list string);
  index_tags : obj (list string)
}.

(** The index literal at the top of the script. *)
Definition emptyIndex (now : string) : Index :=
  {| index_updated := now;
     index_files := [];
     index_categories := [];
     index_tags := [] |}.

(** The body of [metadata.tags.forEach]: an inherited property makes
    the test [!index.tags[tag]] fail and has no [push]. *)
Definition indexTag (relativePath tag : string) (tags : obj (list string))
  : result (obj (list string)) :=
  match objGet tag tags with
  | Some l => ok (objSet tag (l ++ [relativePath])%list tags)
  | None =>
      if inherited tag
      then throw (TypeError "index.tags[tag].push is not a function")
      else ok (objSet tag [relativePath] tags)
  end.

Definition indexTags (relativePath : string) (tags : list string)
  (o : obj (list string)) : result (obj (list string)) :=
  fold_left (fun acc tag => o' <- acc ;; indexTag relativePath tag o')
            tags (ok o).

(** The branch of [indexDirectory] for an entry whose name ends in
    [.md] and that is read as a file. *)
Definition indexFile (dir category file content : string) (st : Stats)
  (index : Index) : result Index :=
  let relativePath := joinPath dir file in
  let metadata := extractMetadata content in
  let entry :=
    {| entry_category := category;
       entry_size := size st;
       entry_modified := mtime st;
       entry_title := entryTitle file content;
       entry_tags := meta_tags metadata;
       entry_summary := entrySummary content |} in
  let files := objAssign relativePath entry (index_files index) in
  categories <-
    (if isEmpty category then ok (index_categories index)
     else objPush category relativePath (index_categories index)) ;;
  tags <- indexTags relativePath (meta_tags metadata) (index_tags index) ;;
  ok {| index_updated := index_updated index;
        index_files := files;
        index_categories := categories;
        index_tags := tags |}.

(** [index.categories[subCategory] = []]. *)
Definition openCategory (subCategory : string) (index : Index) : Index :=
  {| index_updated := index_updated index;
     index_files := index_files index;
     index_categories := objAssign subCategory [] (index_categories index);
     index_tags := index_tags index |}.

(** [indexDirectory(dir, category)] on the shared [index]: [n] is the
    node at [dir], whose path below the root is [dir].  A hidden
    directory whose name ends in [.md] reaches [readFileSync], which
    throws. *)
Fixpoint indexDirectory (n : node) (dir category : string) (index : Index)
  : result Index :=
  match n with
  | File _ _ => throw (ENOTDIR dir)
  | Dir es =>
      fold_left
        (fun (acc : result Index) (e : string * node) =>
           index <- acc ;;
           let (file, child) := e in
           match child with
           | Dir _ =>
               if negb (startsWith file ".") then
                 let subCategory := joinPath category file in
                 indexDirectory child (joinPath dir file) subCategory
                                (openCategory subCategory index)
               else if endsWith file ".md" then throw (EISDIR (joinPath dir file))
               else ok index
           | File content st =>
               if endsWith file ".md"
               then indexFile dir category file content st index
               else ok index
           end)
        es (ok index)
  end.

(* ================================================================= *)
(** ** JSON.stringify(index, null, 2) *)

#[local] Unset Elimination Schemes.
Inductive json :=
| JString (s : string)
| JNumber (n : N)
| JArray (items : list json)
| JObject (members : list (string * json)).
#[local] Set Elimination Schemes.

Definition hexDigit (n : N) : ascii :=
  match n with
  | 0 => "0" | 1 => "1" | 2 => "2" | 3 => "3" | 4 => "4" | 5 => "5"
  | 6 => "6" | 7 => "7" | 8 => "8" | 9 => "9" | 10 => "a" | 11 => "b"
  | 12 => "c" | 13 => "d" | 14 => "e" | _ => "f"
  end%N%char.

(** One code unit inside [QuoteJSONString]. *)
Definition quoteChar (c : ascii) : string :=
  let n := N_of_ascii c in
  (if n =? 8 then "\b"
   else if n =? 9 then "\t"
   else if n =? 10 then "\n"
   else if n =? 12 then "\f"
   else if n =? 13 then "\r"
   else if n =? 34 then String "\" (str1 DQUOTE)
   else if n =? 92 then "\\"
   else if n <? 32
        then "\u00" ++ String (hexDigit (n / 16)) (str1 (hexDigit (n mod 16)))
        else str1 c)%N%string.

Fixpoint quoteChars (s : string) : string :=
  match s with
  | EmptyString => EmptyString
  | String c s' => (quoteChar c ++ quoteChars s')%string
  end.

Definition quoteJSONString (s : string) : string :=
  (String DQUOTE (quoteChars s) ++ str1 DQUOTE)%string.

(** [SerializeJSONProperty] with the gap of two spaces; [indent] is the
    indentation of the enclosing line. *)
Fixpoint serialize (indent : string) (j : json) : string :=
  let inner := (indent ++ "  ")%string in
  let separator := ("," ++ nl ++ inner)%string in
  match j with
  | JString s => quoteJSONString s
  | JNumber n => NToString n
  | JArray [] => "[]"
  | JArray items =>
      ("[" ++ nl ++ inner
           ++ String.concat separator (map (serialize inner) items)
           ++ nl ++ indent ++ "]")%string
  | JObject [] => "{}"
  | JObject members =>
      ("{" ++ nl ++ inner
           ++ String.concat separator
                (map (fun m : string * json =>
                        quoteJSONString (fst m) ++ ": " ++ serialize inner (snd m))
                     members)
           ++ nl ++ indent ++ "}")%string
  end.

(** An array index: the canonical decimal form of an integer below
    2^32 - 1.  Such keys are enumerated first, in ascending order. *)
Fixpoint digitsValue (s : string) (acc : N) : option N :=
  match s with
  | EmptyString => Some acc
  | String c s' =>
      let n := N_of_ascii c in
      if ((48 <=? n) && (n <=? 57))%N
      then digitsValue s' (acc * 10 + (n - 48))%N
      else None
  end.

Definition arrayIndex (k : string) : option N :=
  match k with
  | EmptyString => None
  | String c rest =>
      if Ascii.eqb c "0" && negb (isEmpty rest) then None
      else match digitsValue k 0 with
           | Some v => if (v <=? 4294967294)%N then Some v else None
           | None => None
           end
  end.

Fixpoint insertByIndex {A : Type} (i : N) (m : string * A)
  (sorted : list (N * (string * A))) : list (N * (string * A)) :=
  match sorted with
  | [] => [(i, m)]
  | (j, m') :: rest =>
      if (i <? j)%N then (i, m) :: sorted
      else (j, m') :: insertByIndex i m rest
  end.

(** [EnumerableOwnProperties]: the array-index keys in ascending numeric
    order, then the other keys in insertion order. *)
Definition indexKeyed {A : Type} (o : obj A) : list (N * (string * A)) :=
  fold_left
    (fun acc m => match arrayIndex (fst m) with
                  | Some i => insertByIndex i m acc
                  | None => acc
                  end)
    o [].

Definition ownProperties {A : Type} (o : obj A) : obj A :=
  (map snd (indexKeyed o)
   ++ filter (fun m => match arrayIndex (fst m) with
                       | Some _ => false
                       | None => true
                       end) o)%list.

Definition jsonOfStrings (l : list string) : json := JArray (map JString l).

Definition jsonOfEntry (e : Entry) : json :=
  JObject [ ("category", JString (entry_category e));
            ("size", JNumber (entry_size e));
            ("modified", JString (entry_modified e));
            ("title", JString (entry_title e));
            ("tags", jsonOfStrings (entry_tags e));
            ("summary", JString (entry_summary e)) ].

Definition jsonOfObj {A : Type} (f : A -> json) (o : obj A) : json :=
  JObject (map (fun m => (fst m, f (snd m))) (ownProperties o)).

Definition jsonOfIndex (index : Index) : json :=
  JObject [ ("updated", JString (index_updated index));
            ("files", jsonOfObj jsonOfEntry (index_files index));
            ("categories", jsonOfObj jsonOfStrings (index_categories index));
            ("tags", jsonOfObj jsonOfStrings (index_tags index)) ].

Definition stringifyIndex (index : Index) : string :=
  serialize EmptyString (jsonOfIndex index).

(* ================================================================= *)
(** ** Writing a file *)

(** The length of the UTF-8 encoding of a string of code units below
    256. *)
Fixpoint byteLength (s : string) : N :=
  match s with
  | EmptyString => 0
  | String c s' => (if (N_of_ascii c <? 128)%N then 1 else 2) + byteLength s'
  end%N.

(** [fs.writeFileSync(dir/name, content)] on the entries of [dir]: an
    existing regular file is replaced in place, a new name is added, a
    directory of that name is an error. *)
Fixpoint writeFile (name content time : string) (es : list (string * node))
  : result (list (string * node)) :=
  let written :=
    File content {| size := byteLength content; mtime := time |} in
  match es with
  | [] => ok [(name, written)]
  | (k, n) :: rest =>
      if String.eqb k name then
        match n with
        | File _ _ => ok ((k, written) :: rest)
        | Dir _ => throw (EISDIR name)
        end
      else rest' <- writeFile name content time rest ;; ok ((k, n) :: rest')
  end.

(** [fs.writeFileSync] of a text that is held as the bytes of its UTF-8
    encoding, as the literals with pictographs are: the size of the
    file is the number of these bytes. *)
Fixpoint writeBytes (name bytes time : string) (es : list (string * node))
  : result (list (string * node)) :=
  let written :=
    File bytes {| size := N.of_nat (String.length bytes); mtime := time |} in
  match es with
  | [] => ok [(name, written)]
  | (k, n) :: rest =>
      if String.eqb k name then
        match n with
        | File _ _ => ok ((k, written) :: rest)
        | Dir _ => throw (EISDIR name)
        end
      else rest' <- writeBytes name bytes time rest ;; ok ((k, n) :: rest')
  end.

(** Replacing the first entry of a given name. *)
Fixpoint replaceEntry (name : string) (n : node) (es : list (string * node))
  : list (string * node) :=
  match es with
  | [] => []
  | (k, n') :: rest =>
      if String.eqb k name then (k, n) :: rest
      else (k, n') :: replaceEntry name n rest
  end.

(* ================================================================= *)
(** ** memory-update.js: the script *)

(** The script, run at time [now]; the index file gets the
    modification time [written], and [shown] is the path of the index
    file relative to the working directory. *)
Definition memoryUpdate (now written shown : string)
  (project : list (string * node)) : Run :=
  let banner := Log (nl ++ "🔄 Updating Memory Bank Index..." ++ nl) in
  let failed (e : error) :=
    {| run_output := [banner]; run_error := Some e;
       run_exit := Some 1; run_fs := project |} in
  match lookup "memory-bank" project with
  | None => failed (ENOENT "memory-bank")
  | Some (File _ _) => failed (ENOTDIR "memory-bank")
  | Some (Dir es) =>
      match indexDirectory (Dir es) EmptyString EmptyString (emptyIndex now) with
      | inl e => failed e
      | inr index =>
          match writeFile ".index.json" (stringifyIndex index) written es with
          | inl e => failed e
          | inr es' =>
              {| run_output :=
                   [ banner;
                     Log ("✅ Indexed "
                          ++ natToString (List.length (index_files index))
                          ++ " files");
                     Log ("📂 Found "
                          ++ natToString (List.length (index_categories index))
                          ++ " categories");
                     Log ("🏷️  Found "
                          ++ natToString (List.length (index_tags index))
                          ++ " unique tags");
                     Log (nl ++ "💾 Index saved to " ++ shown);
                     Log (nl ++ "✨ Memory Bank index updated successfully!") ];
                 run_error := None;
                 run_exit := Some 0;
                 run_fs := replaceEntry "memory-bank" (Dir es') project |}
          end
      end
  end.

(* ================================================================= *)
(** ** The summary as the specification words it *)

(** A line that does not start with [#] is not a heading line. *)
Definition notHeading (l : string) : bool := negb (startsWith l "#").

(** The summary in the words of the specification: the first line that
    is not a heading line, cut to 200 characters with newlines turned
    into spaces; the empty string without such a line. *)
Definition specSummary (content : string) : string :=
  match find notHeading (split LF content) with
  | Some l => newlinesToSpaces (substring 0 200 l)
  | None => EmptyString
  end.

(** The summary as the code computes it, by the pieces between line
    feeds: the first piece that is not empty and does not start with
    [#], whole; without such a piece the first 200 characters of the
    content with line feeds turned into spaces.  In a file with LF
    line ends the pieces are the lines.  In a file with CRLF line ends
    a piece keeps the carriage return before the line feed, so that an
    empty line is the piece made of a carriage return, which is not
    empty. *)
Definition summaryLine (l : string) : bool := negb (isEmpty l) && notHeading l.

Definition lineSummary (content : string) : string :=
  match find summaryLine (split LF content) with
  | Some l => l
  | None => newlinesToSpaces (substring 0 200 content)
  end.

(** Every carriage return is the last character or is followed by a
    line feed, as in a file with LF or CRLF line ends. *)
Fixpoint noBareCR (s : string) : bool :=
  match s with
  | EmptyString => true
  | String c s' =>
      (if Ascii.eqb c CR
       then match s' with
            | EmptyString => true
            | String d _ => Ascii.eqb d LF
            end
       else true)
      && noBareCR s'
  end.

(** The content of the file of Scenario A. *)
Definition scenarioA : string :=
  "# Hello" ++ nl ++ "tags: [x, y]" ++ nl ++ "Some summary text.".

(** The text of the index file below the memory-bank root, if any. *)
Definition indexJson (project : list (string * node)) : option string :=
  match lookup "memory-bank" project with
  | Some (Dir es) =>
      match lookup ".index.json" es with
      | Some (File content _) => Some content
      | _ => None
      end
  | _ => None
  end.

(** The serialized index up to the value of [updated], and after it. *)
Definition indexHeader : string :=
  "{" ++ nl ++ "  " ++ quoteJSONString "updated" ++ ": ".

Definition indexBody (index : Index) : string :=
  let separator := ("," ++ nl ++ "  ")%string in
  separator
  ++ quoteJSONString "files" ++ ": "
  ++ serialize "  " (jsonOfObj jsonOfEntry (index_files index))
  ++ separator
  ++ quoteJSONString "categories" ++ ": "
  ++ serialize "  " (jsonOfObj jsonOfStrings (index_categories index))
  ++ separator
  ++ quoteJSONString "tags" ++ ": "
  ++ serialize "  " (jsonOfObj jsonOfStrings (index_tags index))
  ++ nl ++ "}".

Definition setUpdated (now : string) (index : Index) : Index :=
  {| index_updated := now;
     index_files := index_files index;
     index_categories := index_categories index;
     index_tags := index_tags index |}.

Definition mapOk {A B : Type} (f : A -> B) (r : result A) : result B :=
  match r with
  | inl e => inl e
  | inr a => inr (f a)
  end.

(* ================================================================= *)
(** ** Well-formed trees and paths *)

(** An entry name is not empty, holds no separator and is not one of
    the dot segments. *)
Definition validName (name : string) : bool :=
  negb (isEmpty name) && negb (includes name "/")
  && negb (String.eqb name ".") && negb (String.eqb name "..").

Fixpoint uniqueNames (names : list string) : bool :=
  match names with
  | [] => true
  | x :: rest => negb (existsb (String.eqb x) rest) && uniqueNames rest
  end.

(** The names of a directory are valid and pairwise different, in every
    directory of the tree. *)
Fixpoint wellFormed (n : node) : bool :=
  match n with
  | File _ _ => true
  | Dir es =>
      uniqueNames (map fst es)
      && forallb (fun e : string * node => validName (fst e) && wellFormed (snd e))
                 es
  end.

(** No name on the path starts with a dot. *)
Definition visibleDirs (dsegs : list string) : bool :=
  forallb (fun d => negb (startsWith d ".")) dsegs.

(** Some directory on the way to the last name is hidden. *)
Definition hiddenOnPath (segs : list string) : bool :=
  existsb (fun d => startsWith d ".") (removelast segs).

(** The names of the entries of a directory that are regular files
    with a name ending in [.md], in listing order. *)
Definition mdFiles (es : list (string * node)) : list string :=
  map fst (filter (fun e : string * node => isFile (snd e) && endsWith (fst e) ".md")
                  es).

(** The indentation of [browseDirectory] after [depth] levels. *)
Fixpoint deepen (indent : string) (depth : nat) : string :=
  match depth with
  | O => indent
  | S d => deepen (indent ++ "  ") d
  end.

(** The body of the [forEach] of [indexDirectory], on the shared index
    or the exception thrown so far. *)
Definition indexEntry (dir category : string) (acc : result Index)
  (e : string * node) : result Index :=
  index <- acc ;;
  let (file, child) := e in
  match child with
  | Dir _ =>
      if negb (startsWith file ".") then
        let subCategory := joinPath category file in
        indexDirectory child (joinPath dir file) subCategory
                       (openCategory subCategory index)
      else if endsWith file ".md" then throw (EISDIR (joinPath dir file))
      else ok index
  | File content st =>
      if endsWith file ".md"
      then indexFile dir category file content st index
      else ok index
  end.

(** The entry that [indexDirectory] records for a file. *)
Definition entryOf (category file content : string) (st : Stats) : Entry :=
  {| entry_category := category;
     entry_size := size st;
     entry_modified := mtime st;
     entry_title := entryTitle file content;
     entry_tags := meta_tags (extractMetadata content);
     entry_summary := entrySummary content |}.

(** A tail is empty or starts with the separator. *)
Definition slashTail (t : string) : Prop :=
  t = EmptyString \/ exists t', t = String "/" t'.

(* ================================================================= *)
(** ** Sample trees *)

(** The tree [a/x.md], [a/b/y.md], [r.md]. *)
Definition nestedTree : list (string * node) :=
  let st := {| size := 2; mtime := "2024-01-01T00:00:00.000Z" |} in
  [ ("a", Dir [ ("x.md", File "hi" st);
                ("b", Dir [("y.md", File "yo" st)]) ]);
    ("r.md", File "# R" st) ].


(** A category [docs] with a hidden directory that holds a Markdown
    file. *)
Definition hiddenTree : list (string * node) :=
  let st := {| size := 2; mtime := "2024-01-01T00:00:00.000Z" |} in
  [ ("docs", Dir [ (".drafts", Dir [("d.md", File "hi" st)]);
                   ("v.md", File "yo" st) ]) ].

(* ================================================================= *)
(** ** init-memory-bank.js: placeholder substitution *)

(** The characters of the class in [escapeRegExp]. *)
Definition isSyntaxCharacter (c : ascii) : bool :=
  existsb (Ascii.eqb c)
    [ "."; "*"; "+"; "?"; "^"; "$"; "{"; "}"; "("; ")"; "|"; "["; "]"; "\" ]%char.

(** [escapeRegExp(string)]: a backslash goes before every syntax
    character. *)
Fixpoint escapeRegExp (s : string) : string :=
  match s with
  | EmptyString => EmptyString
  | String c s' =>
      if isSyntaxCharacter c then String "\" (String c (escapeRegExp s'))
      else String c (escapeRegExp s')
  end.

(** The string that a pattern matches when the pattern is a sequence of
    plain characters and escaped syntax characters; no other form of
    pattern is built by the scaffolder. *)
Fixpoint literalOfPattern (pattern : string) : option string :=
  match pattern with
  | EmptyString => Some EmptyString
  | String c rest =>
      if Ascii.eqb c "\" then
        match rest with
        | String d rest' =>
            if isSyntaxCharacter d
            then option_map (String d) (literalOfPattern rest')
            else None
        | EmptyString => None
        end
      else if isSyntaxCharacter c then None
      else option_map (String c) (literalOfPattern rest)
  end.

(** [GetSubstitution] for a pattern without capture groups: [$$] is a
    dollar sign, [$&] the matched text, [$`] the text before the match
    and [$'] the text after it; any other [$] stands for itself. *)
Fixpoint substitution (value matched before after : string) : string :=
  match value with
  | EmptyString => EmptyString
  | String c tail =>
      if Ascii.eqb c "$" then
        match tail with
        | String d rest =>
            if Ascii.eqb d "$" then
              String "$" (substitution rest matched before after)
            else if Ascii.eqb d "&" then
              matched ++ substitution rest matched before after
            else if Ascii.eqb d "`" then
              before ++ substitution rest matched before after
            else if Ascii.eqb d "'" then
              after ++ substitution rest matched before after
            else String c (substitution tail matched before after)
        | EmptyString => String c EmptyString
        end
      else String c (substitution tail matched before after)
  end%string.

(** [content.replace(new RegExp(..., 'g'), value)] for a pattern that
    matches the non-empty literal [pat]: the matches are taken from
    left to right without overlap.  [skip] counts the characters of the
    current match still to pass and [before] is the text already
    passed. *)
Fixpoint replaceFrom (pat value : string) (skip : nat) (before s : string)
  : string :=
  match s with
  | EmptyString => EmptyString
  | String c s' =>
      match skip with
      | S k => replaceFrom pat value k (before ++ str1 c) s'
      | O =>
          if prefix pat s then
            substitution value pat before (drop (String.length pat) s)
            ++ replaceFrom pat value (String.length pat - 1) (before ++ str1 c) s'
          else String c (replaceFrom pat value 0 (before ++ str1 c) s')
      end
  end%string.

(** The same for the empty pattern, which matches before every
    character and at the end of the text: the value goes in at each of
    these places and every character is kept.  [s] is the text from
    the place of the match on, which is also the text after it. *)
Fixpoint replaceEmpty (value before s : string) : string :=
  (substitution value EmptyString before s
   ++ match s with
      | EmptyString => EmptyString
      | String c s' => String c (replaceEmpty value (before ++ str1 c) s')
      end)%string.

Definition replaceLiteral (pat value content : string) : string :=
  if isEmpty pat then replaceEmpty value EmptyString content
  else replaceFrom pat value 0 EmptyString content.

Definition replaceAll (pattern value content : string) : string :=
  match literalOfPattern pattern with
  | Some pat => replaceLiteral pat value content
  | None => content
  end.

(** The body of [Object.entries(replacements).forEach]. *)
Definition applyReplacements (replacements : list (string * string))
  (content : string) : string :=
  fold_left
    (fun content (r : string * string) =>
       replaceAll (escapeRegExp (fst r)) (snd r) content)
    replacements content.

(** The files that [replaceInDirectory] rewrites. *)
Definition isTextFile (file : string) : bool :=
  endsWith file ".md" || endsWith file ".json".

(** [replaceInDirectory(dir, replacements)] at time [time]. *)
Fixpoint replaceInDirectory (time : string) (replacements : list (string * string))
  (n : node) : node :=
  match n with
  | File _ _ => n
  | Dir es =>
      Dir (map
             (fun e : string * node =>
                let (file, child) := e in
                (file,
                 match child with
                 | Dir _ => replaceInDirectory time replacements child
                 | File content st =>
                     if isTextFile file then
                       let content' := applyReplacements replacements content in
                       File content' {| size := byteLength content';
                                        mtime := time |}
                     else child
                 end))
             es)
  end.

(** [copyDirectory(src, dest)] into a new directory [dest]: the copy. *)
Fixpoint copyDirectory (time : string) (n : node) : node :=
  match n with
  | File content st => File content {| size := size st; mtime := time |}
  | Dir es =>
      Dir (map (fun e : string * node => (fst e, copyDirectory time (snd e))) es)
  end.

(* ================================================================= *)
(** ** init-memory-bank.js: the script *)

(** The answers typed at the prompts; [overwrite] is read only when the
    question is asked. *)
Record Answers := {
  projectName : string;
  projectDescription : string;
  architecture : string;
  framework : string;
  language : string;
  overwrite : string
}.

(** The object [replacements], in the order of [Object.entries]. *)
Definition replacements (a : Answers) (date : string) : list (string * string) :=
  [ ("[PROJECT_NAME]", projectName a);
    ("[PROJECT_DESCRIPTION]", projectDescription a);
    ("[Your Architecture Type]", architecture a);
    ("[Your architecture type]", toLowerCase (architecture a));
    ("[Your framework]", framework a);
    ("[Primary language]", language a);
    ("[DATE]", date);
    ("[YYYY-MM-DD]", date);
    ("[PORT]", "3000");
    ("[YOUR_DOMAIN]", "api.example.com") ].

Definition activeContext (a : Answers) (date : string) : string :=
  String.concat nl
    [ "# Active Development Context";
      EmptyString;
      "## Current Sprint";
      "- Sprint: 1";
      ("- Start Date: " ++ date)%string;
      "- Focus: Initial setup and foundation";
      EmptyString;
      "## Current Tasks";
      "- Set up development environment";
      "- Define initial architecture";
      "- Create basic project structure";
      EmptyString;
      "## Recent Decisions";
      ("- Chose " ++ architecture a ++ " architecture")%string;
      ("- Selected " ++ framework a ++ " as primary framework")%string;
      ("- Using " ++ language a ++ " as primary language")%string;
      EmptyString;
      "## Notes";
      ("- Project initialized on " ++ date)%string;
      "- See projectBrief.md for full project details";
      EmptyString;
      "---";
      EmptyString;
      ("*Last Updated: " ++ date ++ "*")%string ].

Definition searchScriptLines : list string :=
  [ "#!/usr/bin/env node";
    EmptyString;
    "const fs = require('fs');";
    "const path = require('path');";
    EmptyString;
    "const searchTerm = process.argv[2];";
    "if (!searchTerm) {";
    "  console.log('Usage: npm run memory:search <keyword>');";
    "  process.exit(1);";
    "}";
    EmptyString;
    "const memoryBankDir = path.join(__dirname, '..', 'memory-bank');";
    EmptyString;
    "function searchInFile(filePath, term) {";
    "  const content = fs.readFileSync(filePath, 'utf8');";
    "  const lines = content.split('\n');";
    "  const matches = [];";
    "  ";
    "  lines.forEach((line, index) => {";
    "    if (line.toLowerCase().includes(term.toLowerCase())) {";
    "      matches.push({";
    "        file: path.relative(memoryBankDir, filePath),";
    "        line: index + 1,";
    "        content: line.trim()";
    "      });";
    "    }";
    "  });";
    "  ";
    "  return matches;";
    "}";
    EmptyString;
    "function searchDirectory(dir, term) {";
    "  const results = [];";
    "  const files = fs.readdirSync(dir);";
    "  ";
    "  files.forEach(file => {";
    "    const filePath = path.join(dir, file);";
    "    const stat = fs.statSync(filePath);";
    "    ";
    "    if (stat.isDirectory() && !file.startsWith('.')) {";
    "      results.push(...searchDirectory(filePath, term));";
    "    } else if (stat.isFile() && file.endsWith('.md')) {";
    "      results.push(...searchInFile(filePath, term));";
    "    }";
    "  });";
    "  ";
    "  return results;";
    "}";
    EmptyString;
    ("console.log(`\n🔍 Searching for: " ++ str1 DQUOTE ++ "${searchTerm}" ++ str1 DQUOTE ++ "\n`);")%string;
    EmptyString;
    "const results = searchDirectory(memoryBankDir, searchTerm);";
    EmptyString;
    "if (results.length === 0) {";
    "  console.log('No results found.');";
    "} else {";
    "  console.log(`Found ${results.length} matches:\n`);";
    "  results.forEach(result => {";
    "    console.log(`📄 ${result.file}:${result.line}`);";
    "    console.log(`   ${result.content}\n`);";
    "  });";
    "}" ].

Definition searchScript : string := String.concat nl searchScriptLines.

(** [fs.rmSync(path, { recursive: true, force: true })]. *)
Definition removeEntry (name : string) (es : list (string * node))
  : list (string * node) :=
  filter (fun e : string * node => negb (String.eqb (fst e) name)) es.

Definition banner : list output :=
  [ Log ("🚀 Memory Bank Initialization" ++ nl);
    Prompt "Project name: ";
    Prompt "Project description: ";
    Prompt "Architecture type (e.g., monolith, microservices, modular-monolith): ";
    Prompt "Primary framework (e.g., Next.js, Express, FastAPI): ";
    Prompt "Primary language (e.g., TypeScript, Python, Go): " ].

Definition overwritePrompt : output :=
  Prompt (nl ++ "⚠️  memory-bank directory already exists. Overwrite? (y/N): ").

Definition successLines : list output :=
  [ Log (nl ++ "✅ Memory Bank initialized successfully!");
    Log (nl ++ "Next steps:");
    Log "1. Review and update /memory-bank/projectBrief.md";
    Log "2. Add your architecture decisions to /memory-bank/architecture/decisions/";
    Log "3. Document your API endpoints in /memory-bank/api/";
    Log "4. Run `npm run memory:search <keyword>` to search the Memory Bank" ].

(** What [readdirSync] lists. *)
Definition entriesOf (n : node) : list (string * node) :=
  match n with
  | Dir es => es
  | File _ _ => []
  end.

(** The destination after the template is copied, the placeholders are
    replaced and [context/active.md] is written. *)
Definition buildTarget (a : Answers) (date time : string)
  (template : list (string * node)) : list (string * node) * option error :=
  let replaced :=
    entriesOf (replaceInDirectory time (replacements a date)
                                  (copyDirectory time (Dir template))) in
  match lookup "context" replaced with
  | None => (replaced, Some (ENOENT "memory-bank/context/active.md"))
  | Some (File _ _) =>
      (replaced, Some (ENOTDIR "memory-bank/context/active.md"))
  | Some (Dir context) =>
      match writeFile "active.md" (activeContext a date) time context with
      | inl e => (replaced, Some e)
      | inr context' => (replaceEntry "context" (Dir context') replaced, None)
      end
  end.

(** *** The scripts of package.json *)

(** The values that [JSON.parse] returns.  A number is held as the
    text that [Number::toString] gives for it, and an object as its own
    properties in the order of their creation. *)
#[local] Unset Elimination Schemes.
Inductive value :=
| VNull
| VBool (b : bool)
| VNumber (shown : string)
| VString (s : string)
| VArray (items : list value)
| VObject (props : obj value).
#[local] Set Elimination Schemes.

(** [ToBoolean]: [null], [false], zero, [NaN] and the empty string are
    falsy. *)
Definition truthy (v : value) : bool :=
  match v with
  | VNull => false
  | VBool b => b
  | VNumber shown => negb (String.eqb shown "0" || String.eqb shown "NaN")
  | VString s => negb (isEmpty s)
  | VArray _ => true
  | VObject _ => true
  end.

(** The object literal that is assigned to the scripts. *)
Definition memoryScripts : list (string * string) :=
  [ ("memory:search", "node scripts/memory-search.js");
    ("memory:browse", "node scripts/memory-browse.js");
    ("memory:overview", "node scripts/memory-overview.js");
    ("memory:update", "node scripts/memory-update.js") ].

(** [Object.assign(scripts, { ... })] on an object [scripts]: each of
    the four properties is set in turn. *)
Definition assignScripts (scripts : obj value) : obj value :=
  fold_left (fun o (m : string * string) => objSet (fst m) (VString (snd m)) o)
            memoryScripts scripts.

(** [if (!packageJson.scripts) packageJson.scripts = {}] followed by
    [Object.assign(packageJson.scripts, { ... })], on the parsed value.
    Reading a property of [null] throws.  On a boolean, a number or a
    string the property is undefined and the assignment of [{}] does
    nothing (the script is not in strict mode), so [Object.assign] gets
    [undefined] and throws.  An array gets [scripts] as a property
    that [JSON.stringify] does not show.  On an object, a truthy
    [scripts] that is an array or not an object takes the four
    properties where [JSON.stringify] does not show them. *)
Definition addScripts (packageJson : value) : result value :=
  match packageJson with
  | VNull =>
      throw (TypeError "Cannot read properties of null (reading 'scripts')")
  | VBool _ | VNumber _ | VString _ =>
      throw (TypeError "Cannot convert undefined or null to object")
  | VArray items => ok (VArray items)
  | VObject props =>
      match objGet "scripts" props with
      | Some scripts =>
          if truthy scripts then
            match scripts with
            | VObject own =>
                ok (VObject (objSet "scripts" (VObject (assignScripts own)) props))
            | _ => ok (VObject props)
            end
          else
            ok (VObject (objSet "scripts" (VObject (assignScripts [])) props))
      | None =>
          ok (VObject (objSet "scripts" (VObject (assignScripts [])) props))
      end
  end.

(** A number that is not finite is serialized as [null]. *)
Definition finiteNumber (shown : string) : bool :=
  negb (String.eqb shown "Infinity" || String.eqb shown "-Infinity"
        || String.eqb shown "NaN").

(** [JSON.stringify(value, null, 2)] on a parsed value; [indent] is the
    indentation of the enclosing line.  The properties of an object
    come in the order of [EnumerableOwnProperties]. *)
Fixpoint stringify (indent : string) (v : value) : string :=
  let inner := (indent ++ "  ")%string in
  let separator := ("," ++ nl ++ inner)%string in
  match v with
  | VNull => "null"
  | VBool b => if b then "true" else "false"
  | VNumber shown => if finiteNumber shown then shown else "null"
  | VString s => quoteJSONString s
  | VArray items =>
      match map (stringify inner) items with
      | [] => "[]"
      | shown =>
          ("[" ++ nl ++ inner ++ String.concat separator shown
               ++ nl ++ indent ++ "]")%string
      end
  | VObject props =>
      match ownProperties
              (map (fun m : string * value => (fst m, stringify inner (snd m)))
                   props) with
      | [] => "{}"
      | members =>
          ("{" ++ nl ++ inner
               ++ String.concat separator
                    (map (fun m : string * string =>
                            quoteJSONString (fst m) ++ ": " ++ snd m)
                         members)
               ++ nl ++ indent ++ "}")%string
      end
  end.

(** The text that the script writes back to [package.json]: [parse]
    stands for [JSON.parse], which has no value on a text that is not
    JSON. *)
Definition updatePackageJson (parse : string -> option value)
  (content : string) : result string :=
  match parse content with
  | None => throw (SyntaxError "package.json")
  | Some packageJson =>
      packageJson' <- addScripts packageJson ;;
      ok (stringify EmptyString packageJson')
  end.

(** The part of the script after the destination is complete: the
    scripts of [package.json], when the file exists, and
    [scripts/memory-search.js]. *)
Definition finishProject (time : string)
  (parse : string -> option value)
  (project : list (string * node)) : list (string * node) * option error :=
  let packaged : list (string * node) * option error :=
    match lookup "package.json" project with
    | None => (project, None)
    | Some (Dir _) => (project, Some (EISDIR "package.json"))
    | Some (File content _) =>
        match updatePackageJson parse content with
        | inl e => (project, Some e)
        | inr content' =>
            match writeFile "package.json" content' time project with
            | inl e => (project, Some e)
            | inr project' => (project', None)
            end
        end
    end in
  match packaged with
  | (project1, Some e) => (project1, Some e)
  | (project1, None) =>
      let project2 :=
        match lookup "scripts" project1 with
        | None => (project1 ++ [("scripts", Dir [])])%list
        | Some _ => project1
        end in
      match lookup "scripts" project2 with
      | Some (Dir scripts) =>
          match writeBytes "memory-search.js" searchScript time scripts with
          | inl e => (project2, Some e)
          | inr scripts' =>
              (replaceEntry "scripts" (Dir scripts') project2, None)
          end
      | _ => (project2, Some (ENOTDIR "scripts/memory-search.js"))
      end
  end.

(** The script, on the answers [a], with [date] the day and [time] the
    time of the run.  A rejected promise is printed by [console.error]
    and leaves the [readline] interface open. *)
Definition initMemoryBank (a : Answers) (date time : string)
  (parse : string -> option value)
  (project : list (string * node)) : Run :=
  let existed :=
    match lookup "memory-bank" project with
    | Some _ => true
    | None => false
    end in
  let asked := (banner ++ if existed then [overwritePrompt] else [])%list in
  if existed && negb (String.eqb (toLowerCase (overwrite a)) "y") then
    {| run_output := (asked ++ [Log "Initialization cancelled."])%list;
       run_error := None;
       run_exit := Some 0;
       run_fs := project |}
  else
    let cleared := removeEntry "memory-bank" project in
    let failed (fs : list (string * node)) (e : error) :=
      {| run_output := asked; run_error := Some e;
         run_exit := None; run_fs := fs |} in
    let placed (target : list (string * node)) :=
      (cleared ++ [("memory-bank", Dir target)])%list in
    match lookup "memory-bank-template" project with
    | None => failed (placed []) (ENOENT "memory-bank-template")
    | Some (File _ _) => failed (placed []) (ENOTDIR "memory-bank-template")
    | Some (Dir template) =>
        match buildTarget a date time template with
        | (target, Some e) => failed (placed target) e
        | (target, None) =>
            match finishProject time parse (placed target) with
            | (fs, Some e) => failed fs e
            | (fs, None) =>
                {| run_output := (asked ++ successLines)%list;
                   run_error := None;
                   run_exit := Some 0;
                   run_fs := fs |}
            end
        end
    end.

(** The placeholder of the project name. *)
Definition projectNameToken : string := "[PROJECT_NAME]".

(** Global replacement of a non-empty pattern by a value without [$]:
    the matches are replaced by the value itself. *)
Fixpoint replacePlain (pat value : string) (skip : nat) (s : string) : string :=
  match s with
  | EmptyString => EmptyString
  | String c s' =>
      match skip with
      | S k => replacePlain pat value k s'
      | O =>
          if prefix pat s
          then value ++ replacePlain pat value (String.length pat - 1) s'
          else String c (replacePlain pat value 0 s')
      end
  end%string.

Definition notF (c : ascii) : bool := negb (Ascii.eqb c "F").

Fixpoint withoutF (w : string) : bool :=
  match w with
  | EmptyString => true
  | String c w' => notF c && withoutF w'
  end.

(** [substituted s r]: reading [s] from the left, every occurrence of
    the placeholder of the project name is replaced by exactly [Foo]
    and every other character is kept; [r] is the result. *)
Inductive substituted : string -> string -> Prop :=
| substituted_end : substituted EmptyString EmptyString
| substituted_token (s r : string) :
    substituted s r ->
    substituted (projectNameToken ++ s) ("Foo" ++ r)
| substituted_char (c : ascii) (s r : string) :
    prefix projectNameToken (String c s) = false ->
    substituted s r ->
    substituted (String c s) (String c r).

(** A template with a text file, a file of another kind and the
    [context] directory, and the answers of a run. *)
Definition sampleTemplate : list (string * node) :=
  let st := {| size := 14; mtime := "2024-01-01T00:00:00.000Z" |} in
  [ ("README.md", File "# [PROJECT_NAME]" st);
    ("context", Dir []);
    ("notes.txt", File "[PROJECT_NAME]" st) ].

Definition sampleAnswers : Answers :=
  {| projectName := "Foo";
     projectDescription := "demo";
     architecture := "monolith";
     framework := "Express";
     language := "TypeScript";
     overwrite := "y" |}.

(* ================================================================= *)
(** ** memory-overview.js *)

(** [countFiles(dir)]: the Markdown files below [dir], in every
    subdirectory, hidden ones included. *)
Fixpoint countFiles (n : node) : nat :=
  match n with
  | File _ _ => 0
  | Dir es =>
      fold_left
        (fun (count : nat) (e : string * node) =>
           let (file, child) := e in
           match child with
           | Dir _ => count + countFiles child
           | File _ _ => if endsWith file ".md" then count + 1 else count
           end)
        es 0
  end.

(** [getAllFiles(dir, files)]: the paths pushed on the shared array
    [files], relative to the memory-bank root.  An entry that is not a
    visible directory is pushed when its name ends in [.md], whether it
    is a regular file or a hidden directory. *)
Fixpoint getAllFiles (n : node) (dir : string) : list string :=
  match n with
  | File _ _ => []
  | Dir es =>
      flat_map
        (fun e : string * node =>
           let (item, child) := e in
           match child with
           | Dir _ =>
               if negb (startsWith item ".")
               then getAllFiles child (joinPath dir item)
               else if endsWith item ".md" then [joinPath dir item] else []
           | File _ _ =>
               if endsWith item ".md" then [joinPath dir item] else []
           end)
        es
  end.

(** The directories strictly below a node. *)
Fixpoint countDirectories (n : node) : nat :=
  match n with
  | File _ _ => 0
  | Dir es =>
      list_sum
        (map (fun e : string * node =>
                match snd e with
                | Dir _ => 1 + countDirectories (snd e)
                | File _ _ => 0
                end)
             es)
  end.

(** The paths that [getAllFiles] pushes: the directories on the way are
    visible, the last name ends in [.md], and the entry is a regular
    file or a hidden directory. *)
Fixpoint listedPath (segs : list string) (target : node) : bool :=
  match segs with
  | [] => false
  | name :: rest =>
      match rest with
      | [] => endsWith name ".md" && (isFile target || startsWith name ".")
      | _ :: _ => negb (startsWith name ".") && listedPath rest target
      end
  end.

(** The line that [browseDirectory] prints for the entry at the end of
    a path, if it prints one. *)
Definition browseLine (indent : string) (segs : list string) (target : node)
  (line : string) : Prop :=
  match target with
  | Dir _ =>
      line = (deepen indent (List.length segs - 1)
                ++ "📁 " ++ last segs EmptyString ++ "/")%string
  | File _ _ =>
      endsWith (last segs EmptyString) ".md" = true /\
      line = (deepen indent (List.length segs - 1)
                ++ "📄 " ++ last segs EmptyString)%string
  end.

(** No character of the string is the given one. *)
Fixpoint without (c : ascii) (s : string) : bool :=
  match s with
  | EmptyString => true
  | String d s' => negb (Ascii.eqb d c) && without c s'
  end.

(** Every character of the string satisfies the test. *)
Fixpoint allChars (p : ascii -> bool) (s : string) : bool :=
  match s with
  | EmptyString => true
  | String d s' => p d && allChars p s'
  end.

(** The string is empty or starts with a line terminator. *)
Definition endsLine (rest : string) : bool :=
  match rest with
  | EmptyString => true
  | String c _ => isLineTerminator c
  end.

(** No directory below the node has a name that starts with a dot. *)
Fixpoint noHiddenDirectory (n : node) : bool :=
  match n with
  | File _ _ => true
  | Dir es =>
      forallb
        (fun e : string * node =>
           match snd e with
           | Dir _ => negb (startsWith (fst e) ".") && noHiddenDirectory (snd e)
           | File _ _ => true
           end)
        es
  end.

(* ================================================================= *)
(** ** The entries below a directory *)

(** The entries strictly below a node, each with its path from the
    node: those of a directory in the order of its listing, an entry
    before the entries it holds. *)
Fixpoint entriesBelow (n : node) : list (list string * node) :=
  match n with
  | File _ _ => []
  | Dir es =>
      flat_map
        (fun e : string * node =>
           ([fst e], snd e)
           :: map (fun p : list string * node => (fst e :: fst p, snd p))
                  (entriesBelow (snd e)))
        es
  end.

(** The entries for which the browse tool prints a line: the
    directories and the other entries whose name ends in [.md]. *)
Definition browsePrints (p : list string * node) : bool :=
  match snd p with
  | Dir _ => true
  | File _ _ => endsWith (last (fst p) EmptyString) ".md"
  end.

(** The line of an entry: two more spaces for every directory above
    it, the pictograph of its kind and its name. *)
Definition browsePrinted (indent : string) (p : list string * node) : string :=
  (deepen indent (List.length (fst p) - 1)
   ++ match snd p with
      | Dir _ => "📁 " ++ last (fst p) EmptyString ++ "/"
      | File _ _ => "📄 " ++ last (fst p) EmptyString
      end)%string.

(* ================================================================= *)
(** ** Sample package.json *)

(** [typeof v === 'object' && v !== null]: an array or an object. *)
Definition isObjectValue (v : value) : bool :=
  match v with
  | VArray _ => true
  | VObject _ => true
  | _ => false
  end.

(** The text [{"name": "demo"}] and the value that [JSON.parse] returns
    for it. *)
Definition samplePackageText : string :=
  ("{" ++ quoteJSONString "name" ++ ": " ++ quoteJSONString "demo" ++ "}")%string.

Definition samplePackage : value := VObject [("name", VString "demo")].

(** [JSON.parse] on the texts that the sample runs read: the sample
    text, [null] and [[]]. *)
Definition parseSample (text : string) : option value :=
  if String.eqb text samplePackageText then Some samplePackage
  else if String.eqb text "null" then Some VNull
  else if String.eqb text "[]" then Some (VArray [])
  else None.
(* ================================================================= *)
(** * Proofs *)

(** ** Induction on file-system trees *)

Lemma node_ind (P : node -> Prop)
  (HFile : forall content st, P (File content st))
  (HDir : forall es, Forall (fun e => P (snd e)) es -> P (Dir es)) :
  forall n, P n.
Proof.
  fix IH 1. intros [content st | es].
  - apply HFile.
  - apply HDir. induction es as [| [name child] es IHes].
    + constructor.
    + constructor; [apply IH | exact IHes].
Qed.

(** ** Strings *)

Lemma prefix_app (t s : string) :
  prefix t s = true <-> exists post, s = (t ++ post)%string.
Proof.
  revert s. induction t as [| c t IH]; intros s; simpl.
  - split; [intros _; exists s; reflexivity | destruct s; reflexivity].
  - destruct s as [| d s]; simpl.
    + split; [discriminate | intros [post H]; discriminate].
    + destruct (ascii_dec c d) as [-> | Hne].
      * rewrite IH. split; intros [post H]; exists post; congruence.
      * split; [discriminate | intros [post H]; congruence].
Qed.

(** [includes] is the substring test. *)
Lemma includes_spec (s t : string) :
  includes s t = true <-> exists pre post, s = (pre ++ t ++ post)%string.
Proof.
  induction s as [| c s IH]; cbn [includes].
  - rewrite orb_false_r, prefix_app. split.
    + intros [post H]. exists EmptyString, post. exact H.
    + intros [[| d pre] [post H]]; [exists post; exact H | discriminate].
  - rewrite orb_true_iff, prefix_app, IH. split.
    + intros [[post H] | [pre [post H]]].
      * exists EmptyString, post. exact H.
      * exists (String c pre), post. simpl. now rewrite H.
    + intros [[| d pre] [post H]].
      * left. exists post. exact H.
      * right. exists pre, post. simpl in H. congruence.
Qed.

(** ** Search *)

Lemma searchLines_In (file term : string) (lines : list string) (index : nat)
  (m : SearchMatch) :
  In m (searchLines file term lines index) <->
  exists k line,
    nth_error lines k = Some line /\
    includes (toLowerCase line) (toLowerCase term) = true /\
    m = {| match_file := file;
           match_line := index + k + 1;
           match_content := trim line |}.
Proof.
  revert index. induction lines as [| l lines IH]; intros index; simpl.
  - split; [tauto | intros [[| k] [line [H _]]]; discriminate].
  - rewrite in_app_iff, IH. split.
    + intros [H | [k [line [Hn [Hi Hm]]]]].
      * destruct (includes (toLowerCase l) (toLowerCase term)) eqn:E;
          [| contradiction].
        destruct H as [<- | []]. exists 0, l.
        rewrite Nat.add_0_r. auto.
      * exists (S k), line. simpl. rewrite Hm.
        repeat split; auto. f_equal. lia.
    + intros [[| k] [line [Hn [Hi Hm]]]]; simpl in Hn.
      * injection Hn as ->. left. rewrite Hi. left.
        rewrite Hm, Nat.add_0_r. reflexivity.
      * right. exists k, line. rewrite Hm.
        repeat split; auto. f_equal. lia.
Qed.

Lemma searchedPath_cons (name : string) (rest : list string) :
  rest <> [] ->
  searchedPath (name :: rest) = negb (startsWith name ".") && searchedPath rest.
Proof. destruct rest; [congruence | reflexivity]. Qed.

Lemma nodeAt_Dir_nonempty (es : list (string * node)) (segs : list string)
  (content : string) (st : Stats) :
  nodeAt (Dir es) segs (File content st) -> segs <> [].
Proof. destruct segs; simpl; [discriminate | congruence]. Qed.

(** What [searchDirectory] returns from a directory at path [rel]: the
    matches of the files reached along searched paths. *)
Lemma searchDirectory_In (term : string) (n : node) :
  forall (rel : string) (m : SearchMatch),
  In m (searchDirectory n rel term) <->
  exists segs content st,
    nodeAt n segs (File content st) /\
    searchedPath segs = true /\
    In m (searchInFile (fold_left joinPath segs rel) content term).
Proof.
  induction n as [content st | es IH] using node_ind; intros rel m.
  - simpl. split; [tauto |].
    intros [[| name rest] [c [s [Hat [Hp _]]]]]; simpl in *;
      [discriminate | contradiction].
  - cbn [searchDirectory]. rewrite in_flat_map. split.
    + intros [[file child] [Hin Hm]].
      rewrite Forall_forall in IH. specialize (IH _ Hin). simpl in IH.
      destruct child as [content st | sub].
      * destruct (endsWith file ".md") eqn:E; [| contradiction].
        exists [file], content, st. simpl. rewrite E.
        repeat split; eauto.
      * destruct (startsWith file ".") eqn:E; simpl in Hm; [contradiction |].
        apply IH in Hm. destruct Hm as [segs [c [s [Hat [Hp Hm]]]]].
        exists (file :: segs), c, s.
        rewrite searchedPath_cons by (eapply nodeAt_Dir_nonempty; eauto).
        rewrite E, Hp. simpl. repeat split; eauto.
    + intros [[| name rest] [c [s [Hat [Hp Hm]]]]]; [discriminate |].
      simpl in Hat. destruct Hat as [child [Hin Hat]].
      exists (name, child). split; [exact Hin |].
      rewrite Forall_forall in IH. specialize (IH _ Hin). simpl in IH.
      destruct rest as [| d rest].
      * simpl in Hat. subst child. simpl in Hp. rewrite Hp. exact Hm.
      * destruct child as [c' s' | sub]; [contradiction |].
        rewrite searchedPath_cons in Hp by discriminate.
        apply andb_true_iff in Hp. destruct Hp as [Hv Hp]. rewrite Hv.
        apply IH. exists (d :: rest), c, s. auto.
Qed.

(** C7 (as amended): the matches that the search returns from the root
    are exactly the lines, numbered from 1 in the content split on the
    newline, whose lowercase form includes the lowercase query, of the
    Markdown files that are reached without passing a hidden directory;
    each match carries the relative path and the trimmed line. *)
Theorem search_returns_exactly_matching_lines
  (root : node) (term : string) (m : SearchMatch) :
  In m (searchDirectory root EmptyString term) <->
  exists segs content st line,
    nodeAt root segs (File content st) /\
    searchedPath segs = true /\
    match_file m = relativePath segs /\
    1 <= match_line m /\
    nth_error (split LF content) (match_line m - 1) = Some line /\
    includes (toLowerCase line) (toLowerCase term) = true /\
    match_content m = trim line.
Proof.
  rewrite searchDirectory_In. unfold searchInFile, relativePath. split.
  - intros [segs [content [st [Hat [Hp Hm]]]]].
    apply searchLines_In in Hm. destruct Hm as [k [line [Hn [Hi ->]]]].
    exists segs, content, st, line. simpl.
    replace (k + 1 - 1) with k by lia. repeat split; auto. lia.
  - intros [segs [content [st [line [Hat [Hp [Hf [Hl [Hn [Hi Hc]]]]]]]]]].
    exists segs, content, st. repeat split; auto.
    apply searchLines_In. exists (match_line m - 1), line.
    repeat split; auto. destruct m as [f l c]. simpl in *.
    subst f c. f_equal. lia.
Qed.

(** C7, counterexample: a Markdown file inside a hidden directory has a
    line that includes the query, and the search returns nothing. *)
Lemma search_misses_hidden_directory :
  let st := {| size := 1; mtime := "2024-01-01T00:00:00.000Z" |} in
  let root := Dir [(".notes", Dir [("a.md", File "x" st)])] in
  nodeAt root [".notes"; "a.md"] (File "x" st) /\
  markdownPath [".notes"; "a.md"] = true /\
  nth_error (split LF "x") 0 = Some "x" /\
  includes (toLowerCase "x") (toLowerCase "x") = true /\
  searchDirectory root EmptyString "x" = [].
Proof.
  simpl. repeat split; try reflexivity.
  eexists. split; [left; reflexivity |].
  eexists. split; [left; reflexivity | reflexivity].
Qed.

(** The search tool asks for a keyword when none is given, and reads
    no file. *)
Lemma search_without_keyword_prints_usage (project : list (string * node)) :
  memorySearch None project =
  {| run_output := [Log "Usage: npm run memory:search <keyword>"];
     run_error := None;
     run_exit := Some 1;
     run_fs := project |} /\
  memorySearch (Some EmptyString) project = memorySearch None project.
Proof. split; reflexivity. Qed.

(** With a keyword it prints the matches of [searchDirectory] from the
    memory-bank root, or that there are none, and exits with code 0. *)
Lemma search_prints_matches (term : string) (project es : list (string * node)) :
  isEmpty term = false ->
  lookup "memory-bank" project = Some (Dir es) ->
  let results := searchDirectory (Dir es) EmptyString term in
  run_exit (memorySearch (Some term) project) = Some 0 /\
  tl (run_output (memorySearch (Some term) project)) =
  match results with
  | [] => [Log "No results found."]
  | _ :: _ =>
      Log ("Found " ++ natToString (List.length results) ++ " matches:" ++ nl)
      :: flat_map printMatch results
  end.
Proof.
  intros Hterm Hroot results. unfold memorySearch.
  rewrite Hterm, Hroot. split; reflexivity.
Qed.

(** ** Browse: a category that does not exist *)

(** C3 (as amended): for a category name (a single path component)
    that is not an entry of the memory-bank root, the browse tool writes
    the single line [Category '<name>' not found] to the error stream
    and exits with code 1; it prints nothing else, so no list of
    categories. *)
Theorem browse_missing_category_not_found
  (category : string) (project : list (string * node)) :
  validName category = true ->
  resolveCategory category project = None ->
  memoryBrowse (Some category) project =
  {| run_output := [Err ("Category '" ++ category ++ "' not found")];
     run_error := None;
     run_exit := Some 1;
     run_fs := project |}.
Proof.
  intros Hname Hnone. unfold memoryBrowse.
  assert (Hne : isEmpty category = false).
  { unfold validName in Hname.
    repeat (apply andb_true_iff in Hname; destruct Hname as [Hname _]).
    now apply negb_true_iff in Hname. }
  rewrite Hne, Hnone. reflexivity.
Qed.

Lemma browse_missing_category_not_found_witness :
  let project :=
    [("memory-bank", Dir [("bar", Dir []); ("baz", Dir [])])] in
  memoryBrowse (Some "foo") project =
  {| run_output := [Err "Category 'foo' not found"];
     run_error := None;
     run_exit := Some 1;
     run_fs := project |}.
Proof.
  intros project.
  apply (browse_missing_category_not_found "foo" project); reflexivity.
Defined.

(** The list of categories is what the tool prints when the argument is
    left out. *)
Lemma browse_without_argument_lists_categories
  (project : list (string * node)) (es : list (string * node)) :
  lookup "memory-bank" project = Some (Dir es) ->
  memoryBrowse None project =
  {| run_output :=
       [ Log "Usage: npm run memory:browse <category>";
         Log (nl ++ "Available categories:") ]
       ++ map (fun cat => Log ("  - " ++ cat)) (availableCategories es);
     run_error := None;
     run_exit := Some 1;
     run_fs := project |}.
Proof. intros H. unfold memoryBrowse. simpl. rewrite H. reflexivity. Qed.

(** C3, counterexample: only [bar] and [baz] exist and [foo] is asked
    for; the run exits with code 1 and its whole output is the error
    line, which names neither [bar] nor [baz]. *)
Lemma browse_missing_category_prints_no_list :
  let project :=
    [("memory-bank", Dir [("bar", Dir []); ("baz", Dir [])])] in
  let run := memoryBrowse (Some "foo") project in
  resolveCategory "foo" project = None /\
  availableCategories [("bar", Dir []); ("baz", Dir [])] = ["bar"; "baz"] /\
  run_exit run = Some 1 /\
  run_output run = [Err "Category 'foo' not found"] /\
  includes "Category 'foo' not found" "bar" = false /\
  includes "Category 'foo' not found" "baz" = false.
Proof. repeat split; reflexivity. Qed.

(** ** Metadata extraction *)

(** C2 (as amended): the tree with the one file [a.md] of Scenario A is
    indexed to one entry for [a.md] with title [Hello], tags [x] and
    [y], and the summary [tags: [x, y]], the first line that does not
    start with [#]. *)
Theorem scenario_a_index_entry (st : Stats) (now : string) :
  indexDirectory (Dir [("a.md", File scenarioA st)])
                 EmptyString EmptyString (emptyIndex now) =
  ok {| index_updated := now;
        index_files :=
          [("a.md", {| entry_category := EmptyString;
                       entry_size := size st;
                       entry_modified := mtime st;
                       entry_title := "Hello";
                       entry_tags := ["x"; "y"];
                       entry_summary := "tags: [x, y]" |})];
        index_categories := [];
        index_tags := [("x", ["a.md"]); ("y", ["a.md"])] |}.
Proof. reflexivity. Qed.

(** C2, counterexample: the entry of Scenario A has the title and the
    tags of the claim, and a summary other than [Some summary text.]. *)
Lemma scenario_a_summary_is_tags_line :
  let st := {| size := 40; mtime := "2024-01-01T00:00:00.000Z" |} in
  exists index e,
    indexDirectory (Dir [("a.md", File scenarioA st)])
                   EmptyString EmptyString
                   (emptyIndex "2024-01-02T00:00:00.000Z") = ok index /\
    objGet "a.md" (index_files index) = Some e /\
    entry_title e = "Hello" /\
    entry_tags e = ["x"; "y"] /\
    entry_summary e = "tags: [x, y]" /\
    entry_summary e <> "Some summary text.".
Proof.
  intros st. eexists. eexists.
  split; [reflexivity |]. split; [reflexivity |].
  repeat split; discriminate.
Qed.

(** ** The summary *)

Lemma startsWith_char (c d : ascii) (t : string) :
  startsWith (String c t) (String d EmptyString) = Ascii.eqb c d.
Proof.
  unfold startsWith. cbn [prefix].
  destruct (ascii_dec d c) as [-> | Hne].
  - rewrite Ascii.eqb_refl. destruct t; reflexivity.
  - symmetry. apply Ascii.eqb_neq. congruence.
Qed.

Lemma summaryLine_cons (c : ascii) (t : string) :
  summaryLine (String c t) = negb (Ascii.eqb c "#").
Proof.
  unfold summaryLine, notHeading. cbn [isEmpty negb andb].
  now rewrite (startsWith_char c "#" t).
Qed.

Lemma split_head (s : string) :
  exists ls, split LF s = takeWhile notLF s :: ls.
Proof.
  induction s as [| c s [ls IH]]; simpl.
  - eexists. reflexivity.
  - unfold notLF at 1. destruct (Ascii.eqb c LF); simpl.
    + eexists. reflexivity.
    + rewrite IH. eexists. reflexivity.
Qed.

Lemma split_cons_other (c : ascii) (s : string) :
  Ascii.eqb c LF = false ->
  split LF (String c s) =
  String c (takeWhile notLF s) :: tl (split LF s).
Proof.
  intros H. simpl. rewrite H.
  destruct (split_head s) as [ls ->]. reflexivity.
Qed.

(** The regular expression of the summary finds the first non-empty
    line that does not start with [#]; in the middle of a line it finds
    the first such line after the current one. *)
Lemma matchSummaryFrom_lines (s : string) :
  noBareCR s = true ->
  matchSummaryFrom true s = find summaryLine (split LF s) /\
  (forall b : bool,
      (b = true -> s = EmptyString \/ exists s', s = String LF s') ->
      matchSummaryFrom b s = find summaryLine (tl (split LF s))).
Proof.
  induction s as [| c s IH]; intros Hcr.
  - split; [reflexivity | intros [|] _; reflexivity].
  - simpl in Hcr. apply andb_true_iff in Hcr. destruct Hcr as [Hc Hcr].
    destruct (IH Hcr) as [IH1 IH2]. clear IH.
    assert (Hmid : matchSummaryFrom (isLineTerminator c) s =
                   find summaryLine
                        (if Ascii.eqb c LF then split LF s
                         else tl (split LF s))).
    { unfold isLineTerminator. destruct (Ascii.eqb c LF) eqn:ELF; simpl.
      - exact IH1.
      - apply IH2. intros Hb. destruct (Ascii.eqb c CR); [| discriminate].
        destruct s as [| d s]; [left; reflexivity | right].
        apply Ascii.eqb_eq in Hc. subst d. eexists. reflexivity. }
    split.
    + cbn [matchSummaryFrom summaryAt].
      destruct (Ascii.eqb c "#") eqn:EH; cbn [orb].
      * apply Ascii.eqb_eq in EH. subst c. rewrite Hmid.
        rewrite split_cons_other by reflexivity.
        change (Ascii.eqb "#" LF) with false. cbn [find].
        rewrite summaryLine_cons. reflexivity.
      * destruct (Ascii.eqb c LF) eqn:ELF.
        -- apply Ascii.eqb_eq in ELF. subst c. rewrite Hmid. reflexivity.
        -- rewrite split_cons_other by exact ELF. cbn [orb find].
           rewrite summaryLine_cons, EH. cbn [negb takeWhile].
           unfold notLF at 1. rewrite ELF. reflexivity.
    + intros b Hb.
      assert (Hskip : (if b then summaryAt (String c s) else None) = None).
      { destruct b; [| reflexivity].
        destruct (Hb eq_refl) as [H | [s' H]]; [discriminate |].
        injection H as -> _. reflexivity. }
      cbn [matchSummaryFrom]. rewrite Hskip, Hmid.
      destruct (Ascii.eqb c LF) eqn:ELF.
      * apply Ascii.eqb_eq in ELF. subst c. reflexivity.
      * rewrite split_cons_other by exact ELF. reflexivity.
Qed.

(** C5 (as amended): take the pieces of the content between line
    feeds, in a file in which every carriage return is followed by a
    line feed or ends the file.  The summary is the first piece that
    is not empty and does not start with [#], whole (neither cut to
    200 characters nor otherwise changed); when there is no such piece
    it is the first 200 characters of the content with line feeds
    turned into spaces.  With LF line ends the pieces are the lines.
    With CRLF line ends a piece keeps its carriage return: the summary
    ends in it, and an empty line, the piece made of a carriage
    return, is not empty and is taken when it comes first. *)
Theorem summary_is_first_plain_line (content : string) :
  noBareCR content = true ->
  entrySummary content = lineSummary content.
Proof.
  intros Hcr. unfold entrySummary, lineSummary, extractMetadata, matchSummary.
  cbn [meta_summary].
  destruct (matchSummaryFrom_lines content Hcr) as [-> _].
  destruct (find summaryLine (split LF content)) as [l |] eqn:E;
    [| reflexivity].
  apply find_some in E. destruct E as [_ E].
  unfold summaryLine in E. apply andb_true_iff in E. destruct E as [E _].
  destruct l; [discriminate | reflexivity].
Qed.

Lemma summary_is_first_plain_line_witness :
  noBareCR scenarioA = true /\
  entrySummary scenarioA = "tags: [x, y]".
Proof.
  split; [reflexivity |].
  rewrite (summary_is_first_plain_line scenarioA); reflexivity.
Defined.

(** With CRLF line ends the summary keeps the carriage return of its
    line, and an empty line before the first plain line gives the
    carriage return alone. *)
Lemma summary_keeps_the_carriage_return :
  let crlf := String CR (String LF EmptyString) in
  entrySummary ("# T" ++ crlf ++ "body" ++ crlf) = ("body" ++ str1 CR)%string /\
  entrySummary ("# T" ++ crlf ++ crlf ++ "body" ++ crlf) = str1 CR /\
  noBareCR ("# T" ++ crlf ++ crlf ++ "body" ++ crlf) = true.
Proof. repeat split; reflexivity. Qed.

(** C5, counterexample: a file made of one heading line has no line
    that is not a heading, and its summary is not empty; a first plain
    line of 201 characters is kept whole. *)
Lemma summary_not_empty_nor_truncated :
  let long := String.concat EmptyString (repeat "a" 201) in
  find notHeading (split LF "#a") = None /\
  specSummary "#a" = EmptyString /\
  entrySummary "#a" = "#a" /\
  find notHeading (split LF long) = Some long /\
  String.length (specSummary long) = 200 /\
  String.length (entrySummary long) = 201.
Proof. repeat split; reflexivity. Qed.

(** ** Relative paths of valid names are injective *)

Lemma append_assoc (a b c : string) :
  ((a ++ b) ++ c = a ++ (b ++ c))%string.
Proof. induction a as [| x a IH]; simpl; [reflexivity | now rewrite IH]. Qed.

Lemma isEmpty_true (s : string) : isEmpty s = true <-> s = EmptyString.
Proof. destruct s; simpl; split; congruence. Qed.

Lemma validName_nonempty (x : string) : validName x = true -> isEmpty x = false.
Proof.
  unfold validName. intros H. repeat (apply andb_true_iff in H; destruct H as [H _]).
  now apply negb_true_iff in H.
Qed.

Lemma validName_no_slash (x : string) :
  validName x = true -> includes x "/" = false.
Proof.
  unfold validName. intros H. do 2 (apply andb_true_iff in H; destruct H as [H _]).
  apply andb_true_iff in H. destruct H as [_ H]. now apply negb_true_iff in H.
Qed.

Lemma includes_cons_false (c : ascii) (s t : string) :
  includes (String c s) t = false -> includes s t = false.
Proof. cbn [includes]. intros H. now apply orb_false_iff in H. Qed.

Lemma includes_slash_head (s : string) : includes (String "/" s) "/" = true.
Proof. cbn [includes prefix]. destruct s; reflexivity. Qed.

Lemma first_segment_inj (x y tx ty : string) :
  includes x "/" = false -> includes y "/" = false ->
  slashTail tx -> slashTail ty ->
  (x ++ tx = y ++ ty)%string -> x = y /\ tx = ty.
Proof.
  revert y. induction x as [| c x IH]; intros [| d y] Hx Hy Htx Hty H;
    simpl in H.
  - auto.
  - exfalso. destruct Htx as [-> | [t' ->]]; [discriminate |].
    injection H as <- _. now rewrite includes_slash_head in Hy.
  - exfalso. destruct Hty as [-> | [t' ->]]; [discriminate |].
    injection H as -> _. now rewrite includes_slash_head in Hx.
  - injection H as -> H.
    destruct (IH y (includes_cons_false _ _ _ Hx)
                 (includes_cons_false _ _ _ Hy) Htx Hty H) as [-> ->].
    auto.
Qed.

Lemma concat_cons (x : string) (r : list string) :
  String.concat "/" (x :: r) =
  (x ++ match r with [] => EmptyString | _ :: _ => "/" ++ String.concat "/" r end)%string.
Proof.
  destruct r; simpl; [| reflexivity].
  induction x as [| c x IH]; simpl; [reflexivity | now rewrite <- IH].
Qed.

Lemma concat_slash_inj (a : list string) :
  forall b : list string,
  forallb validName a = true -> forallb validName b = true ->
  String.concat "/" a = String.concat "/" b -> a = b.
Proof.
  induction a as [| x ra IH]; intros [| y rb] Ha Hb H.
  - reflexivity.
  - exfalso. simpl in Hb. apply andb_true_iff in Hb. destruct Hb as [Hy _].
    apply validName_nonempty in Hy. rewrite concat_cons in H.
    destruct y; [discriminate | discriminate].
  - exfalso. simpl in Ha. apply andb_true_iff in Ha. destruct Ha as [Hx _].
    apply validName_nonempty in Hx. rewrite concat_cons in H.
    destruct x; [discriminate | discriminate].
  - simpl in Ha, Hb. apply andb_true_iff in Ha, Hb.
    destruct Ha as [Hx Ha], Hb as [Hy Hb].
    rewrite !concat_cons in H.
    apply first_segment_inj in H;
      try (now apply validName_no_slash);
      try (destruct ra, rb; (now left) || (right; eexists; reflexivity)).
    destruct H as [-> H]. f_equal.
    destruct ra as [| x2 ra], rb as [| y2 rb]; try discriminate;
      [reflexivity |].
    apply IH; auto. now injection H.
Qed.

Lemma fold_joinPath (segs : list string) :
  forall acc : string,
  forallb validName segs = true ->
  fold_left joinPath segs acc =
  if isEmpty acc then String.concat "/" segs
  else match segs with
       | [] => acc
       | _ :: _ => (acc ++ "/" ++ String.concat "/" segs)%string
       end.
Proof.
  induction segs as [| x r IH]; intros acc H.
  - destruct acc; reflexivity.
  - simpl in H. apply andb_true_iff in H. destruct H as [Hx Hr].
    cbn [fold_left]. rewrite (IH _ Hr). rewrite concat_cons.
    apply validName_nonempty in Hx.
    unfold joinPath. destruct (isEmpty acc) eqn:Eacc.
    + rewrite Hx. destruct r; [| reflexivity].
      simpl. induction x as [| c x IHx]; simpl; [reflexivity |].
      destruct x; [reflexivity |]. f_equal. apply IHx. reflexivity.
    + assert (He : isEmpty (acc ++ "/" ++ x) = false)
        by (destruct acc; [discriminate | reflexivity]).
      rewrite He. destruct r.
      * simpl. f_equal. f_equal.
        clear. induction x as [| c x IHx]; simpl; [reflexivity | now rewrite <- IHx].
      * rewrite !append_assoc. reflexivity.
Qed.

Lemma relativePath_concat (segs : list string) :
  forallb validName segs = true ->
  relativePath segs = String.concat "/" segs.
Proof. intros H. unfold relativePath. now rewrite fold_joinPath. Qed.

Lemma relativePath_inj (a b : list string) :
  forallb validName a = true -> forallb validName b = true ->
  relativePath a = relativePath b -> a = b.
Proof.
  intros Ha Hb H. rewrite !relativePath_concat in H by assumption.
  now apply concat_slash_inj.
Qed.

Lemma relativePath_snoc (segs : list string) (x : string) :
  relativePath (segs ++ [x]) = joinPath (relativePath segs) x.
Proof. unfold relativePath. now rewrite fold_left_app. Qed.

(** ** Objects *)

Section Objects.
Context {A : Type}.

Lemma objGet_objSet_eq (k : string) (v : A) (o : obj A) :
  objGet k (objSet k v o) = Some v.
Proof.
  induction o as [| [k' v'] o IH]; simpl.
  - now rewrite String.eqb_refl.
  - destruct (String.eqb k' k) eqn:E; simpl.
    + now rewrite String.eqb_refl.
    + now rewrite E.
Qed.

Lemma objGet_objSet_ne (k k' : string) (v : A) (o : obj A) :
  k <> k' -> objGet k (objSet k' v o) = objGet k o.
Proof.
  intros Hne. induction o as [| [k0 v0] o IH]; simpl.
  - destruct (String.eqb_spec k' k); [congruence | reflexivity].
  - destruct (String.eqb_spec k0 k') as [-> | Hk]; simpl.
    + destruct (String.eqb_spec k' k); [congruence | reflexivity].
    + now rewrite IH.
Qed.

Lemma objGet_objAssign_eq (k : string) (v : A) (o : obj A) :
  k <> "__proto__" -> objGet k (objAssign k v o) = Some v.
Proof.
  intros H. unfold objAssign.
  destruct (String.eqb_spec k "__proto__"); [contradiction |].
  apply objGet_objSet_eq.
Qed.

Lemma objGet_objAssign_ne (k k' : string) (v : A) (o : obj A) :
  k <> k' -> objGet k (objAssign k' v o) = objGet k o.
Proof.
  intros H. unfold objAssign.
  destruct (String.eqb k' "__proto__"); [reflexivity |].
  now apply objGet_objSet_ne.
Qed.

(** A key that an assignment leaves or makes present was present or
    is the assigned key. *)
Lemma objGet_objAssign_some (k k' : string) (v w : A) (o : obj A) :
  objGet k (objAssign k' v o) = Some w ->
  (k = k' /\ w = v /\ k <> "__proto__") \/ objGet k o = Some w.
Proof.
  unfold objAssign.
  destruct (String.eqb_spec k' "__proto__") as [Hp | Hp]; [now right |].
  destruct (String.eqb_spec k k') as [-> | Hne].
  - rewrite objGet_objSet_eq. intros [= <-]. now left.
  - rewrite objGet_objSet_ne by assumption. now right.
Qed.
End Objects.

Lemma objPush_other (c v : string) (o o' : obj (list string)) (k : string) :
  objPush c v o = ok o' -> k <> c -> objGet k o' = objGet k o.
Proof.
  unfold objPush. destruct (String.eqb c "__proto__").
  - now intros [= <-].
  - destruct (objGet c o); [| discriminate].
    intros [= <-] Hne. now apply objGet_objSet_ne.
Qed.

Lemma objPush_own (c v : string) (o o' : obj (list string)) (l : list string) :
  objPush c v o = ok o' -> c <> "__proto__" -> objGet c o = Some l ->
  objGet c o' = Some (l ++ [v]).
Proof.
  unfold objPush. destruct (String.eqb_spec c "__proto__"); [contradiction |].
  intros H _ Hl. rewrite Hl in H. injection H as <-.
  apply objGet_objSet_eq.
Qed.

Lemma objPush_some (c v : string) (o o' : obj (list string)) (k : string)
  (l : list string) :
  objPush c v o = ok o' -> objGet k o' = Some l ->
  exists l0, objGet k o = Some l0 /\
             (l = l0 \/ (k = c /\ c <> "__proto__" /\ l = l0 ++ [v])).
Proof.
  unfold objPush. destruct (String.eqb_spec c "__proto__") as [Hp | Hp].
  - intros [= <-] H. eauto.
  - destruct (objGet c o) as [l0 |] eqn:E; [| discriminate].
    intros [= <-]. destruct (String.eqb_spec k c) as [-> | Hne].
    + rewrite objGet_objSet_eq. intros [= <-]. eauto 6.
    + rewrite objGet_objSet_ne by assumption. eauto.
Qed.

(** ** The traversal of the indexer *)

Lemma indexDirectory_Dir (es : list (string * node)) (dir category : string)
  (index : Index) :
  indexDirectory (Dir es) dir category index =
  fold_left (indexEntry dir category) es (ok index).
Proof. reflexivity. Qed.

Lemma fold_indexEntry_throw (es : list (string * node)) (dir category : string)
  (e : error) :
  fold_left (indexEntry dir category) es (inl e) = inl e.
Proof. induction es as [| x es IH]; simpl; [reflexivity | exact IH]. Qed.

Lemma fold_indexEntry_cons (x : string * node) (es : list (string * node))
  (dir category : string) (index index' : Index) :
  fold_left (indexEntry dir category) (x :: es) (ok index) = ok index' ->
  exists index1,
    indexEntry dir category (ok index) x = ok index1 /\
    fold_left (indexEntry dir category) es (ok index1) = ok index'.
Proof.
  cbn [fold_left]. destruct (indexEntry dir category (ok index) x) as [e | i1].
  - rewrite fold_indexEntry_throw. discriminate.
  - eauto.
Qed.

(** What one indexed file changes. *)
Lemma indexFile_ok (dir category file content : string) (st : Stats)
  (index index' : Index) :
  indexFile dir category file content st index = ok index' ->
  index_files index' =
    objAssign (joinPath dir file) (entryOf category file content st)
              (index_files index) /\
  (if isEmpty category
   then index_categories index' = index_categories index
   else objPush category (joinPath dir file) (index_categories index)
        = ok (index_categories index')) /\
  index_updated index' = index_updated index.
Proof.
  unfold indexFile, bind, ok.
  destruct (isEmpty category).
  - cbv beta iota.
    match goal with
    | |- context [indexTags ?a ?b ?c] => destruct (indexTags a b c)
    end; [discriminate |].
    intros [= <-]. auto.
  - destruct (objPush category (joinPath dir file) (index_categories index))
      as [e | cats]; [discriminate |].
    match goal with
    | |- context [indexTags ?a ?b ?c] => destruct (indexTags a b c)
    end; [discriminate |].
    intros [= <-]. auto.
Qed.

(** Induction on a successful run of [indexDirectory] over the entries
    of a directory whose path is [csegs]: the entry is skipped, indexed
    as a file, or opened as a category and traversed. *)
Section IndexInduction.
Variable P : list (string * node) -> list string -> Index -> Index -> Prop.

Hypothesis Hnil : forall csegs index, P [] csegs index index.

Hypothesis Hskip :
  forall file child es csegs index index',
    match child with
    | Dir _ => startsWith file "." = true
    | File _ _ => endsWith file ".md" = false
    end ->
    indexDirectory (Dir es) (relativePath csegs) (relativePath csegs) index
    = ok index' ->
    P es csegs index index' ->
    P ((file, child) :: es) csegs index index'.

Hypothesis Hfile :
  forall file content st es csegs index index1 index',
    endsWith file ".md" = true ->
    indexFile (relativePath csegs) (relativePath csegs) file content st index
    = ok index1 ->
    indexDirectory (Dir es) (relativePath csegs) (relativePath csegs) index1
    = ok index' ->
    P es csegs index1 index' ->
    P ((file, File content st) :: es) csegs index index'.

Hypothesis Hdir :
  forall file sub es csegs index index1 index',
    startsWith file "." = false ->
    indexDirectory (Dir sub) (relativePath (csegs ++ [file]))
                   (relativePath (csegs ++ [file]))
                   (openCategory (relativePath (csegs ++ [file])) index)
    = ok index1 ->
    P sub (csegs ++ [file])
      (openCategory (relativePath (csegs ++ [file])) index) index1 ->
    indexDirectory (Dir es) (relativePath csegs) (relativePath csegs) index1
    = ok index' ->
    P es csegs index1 index' ->
    P ((file, Dir sub) :: es) csegs index index'.

Lemma indexDirectory_run_ind (n : node) :
  forall csegs index index',
    indexDirectory n (relativePath csegs) (relativePath csegs) index
    = ok index' ->
    match n with
    | Dir es => P es csegs index index'
    | File _ _ => False
    end.
Proof.
  induction n as [content st | es IH] using node_ind;
    intros csegs index index' Hrun; [discriminate |].
  rewrite indexDirectory_Dir in Hrun. revert index Hrun.
  induction es as [| [file child] es IHes]; intros index Hrun.
  - injection Hrun as <-. apply Hnil.
  - apply fold_indexEntry_cons in Hrun. destruct Hrun as [index1 [Hstep Hrest]].
    inversion IH as [| e es' IHchild IHtail]; subst. simpl in IHchild.
    specialize (IHes IHtail).
    unfold indexEntry, bind, ok in Hstep.
    destruct child as [content st | sub].
    + destruct (endsWith file ".md") eqn:Emd.
      * eapply Hfile; eauto.
      * injection Hstep as <-. apply Hskip; auto.
    + destruct (startsWith file ".") eqn:Ehid; cbn [negb] in Hstep.
      * destruct (endsWith file ".md"); [discriminate |].
        injection Hstep as <-. apply Hskip; auto.
      * rewrite <- relativePath_snoc in Hstep.
        pose proof (IHchild _ _ _ Hstep) as Hsub.
        eapply Hdir; eauto.
Qed.

Lemma indexDirectory_Dir_ind (es : list (string * node)) (csegs : list string)
  (index index' : Index) :
  indexDirectory (Dir es) (relativePath csegs) (relativePath csegs) index
  = ok index' ->
  P es csegs index index'.
Proof. intros H. exact (indexDirectory_run_ind (Dir es) _ _ _ H). Qed.
End IndexInduction.

(** The start of a proof by induction on the run [Hrun]. *)
Ltac run_induction Hrun es csegs index index' :=
  pattern es, csegs, index, index';
  apply indexDirectory_Dir_ind; [ | | | | exact Hrun]; clear.

(** ** Well-formed trees *)

Lemma uniqueNames_cons (x : string) (rest : list string) :
  uniqueNames (x :: rest) = true -> ~ In x rest /\ uniqueNames rest = true.
Proof.
  simpl. intros H. apply andb_true_iff in H. destruct H as [H1 H2].
  split; [| exact H2]. intros Hin. apply negb_true_iff in H1.
  assert (existsb (String.eqb x) rest = true)
    by (apply existsb_exists; exists x; split; [exact Hin | apply String.eqb_refl]).
  congruence.
Qed.

Lemma wellFormed_cons (file : string) (child : node) (es : list (string * node)) :
  wellFormed (Dir ((file, child) :: es)) = true ->
  validName file = true /\ wellFormed child = true /\
  ~ In file (map fst es) /\ wellFormed (Dir es) = true.
Proof.
  cbn [wellFormed map fst forallb snd]. intros H.
  apply andb_true_iff in H. destruct H as [Hu Hall].
  apply uniqueNames_cons in Hu. destruct Hu as [Hnin Hu].
  apply andb_true_iff in Hall. destruct Hall as [Hhead Hall].
  apply andb_true_iff in Hhead. destruct Hhead as [Hv Hc].
  repeat split; auto. now rewrite Hu, Hall.
Qed.

Lemma nodeAt_wellFormed (segs : list string) :
  forall n target,
    wellFormed n = true -> nodeAt n segs target ->
    forallb validName segs = true /\ wellFormed target = true.
Proof.
  induction segs as [| name rest IH]; intros n target Hwf Hat; simpl in Hat.
  - subst. auto.
  - destruct n as [content st | es]; [contradiction |].
    destruct Hat as [child [Hin Hat]].
    assert (Hc : validName name = true /\ wellFormed child = true).
    { clear Hat IH. induction es as [| [f c] es IHes]; [contradiction |].
      apply wellFormed_cons in Hwf. destruct Hwf as [Hv [Hc [_ Hes]]].
      destruct Hin as [[= -> ->] | Hin]; auto. }
    destruct Hc as [Hv Hc]. destruct (IH _ _ Hc Hat) as [Hr Ht].
    simpl. now rewrite Hv, Hr.
Qed.

Lemma nodeAt_tail (file : string) (child : node) (es : list (string * node))
  (segs : list string) (target : node) :
  segs <> [] -> nodeAt (Dir es) segs target ->
  nodeAt (Dir ((file, child) :: es)) segs target.
Proof.
  destruct segs as [| name rest]; [congruence |]. intros _ [c [Hin Hat]].
  exists c. split; [now right | exact Hat].
Qed.

(** A path in a well-formed directory goes through the first entry or
    through the tail, where the first name does not occur. *)
Lemma nodeAt_cons_inv (file : string) (child : node)
  (es : list (string * node)) (name : string) (rest : list string)
  (target : node) :
  wellFormed (Dir ((file, child) :: es)) = true ->
  nodeAt (Dir ((file, child) :: es)) (name :: rest) target ->
  (name = file /\ nodeAt child rest target) \/
  (name <> file /\ nodeAt (Dir es) (name :: rest) target).
Proof.
  intros Hwf [c [Hin Hat]]. apply wellFormed_cons in Hwf.
  destruct Hwf as [_ [_ [Hnin _]]].
  destruct Hin as [[= -> ->] | Hin]; [now left | right].
  split.
  - intros ->. apply Hnin. apply in_map_iff. exists (file, c). auto.
  - exists c. auto.
Qed.

(** ** Keys of different paths differ *)

Lemma relativePath_extend_ne (csegs : list string) (x : string) (r : list string) :
  forallb validName csegs = true -> forallb validName (x :: r) = true ->
  relativePath (csegs ++ x :: r) <> relativePath csegs.
Proof.
  intros Hc Hx H. apply relativePath_inj in H; auto.
  - apply (f_equal (@List.length string)) in H.
    rewrite length_app in H. simpl in H. lia.
  - rewrite forallb_app. now rewrite Hc, Hx.
Qed.

Lemma relativePath_sibling_ne (csegs : list string) (x y : string)
  (r s : list string) :
  forallb validName csegs = true ->
  forallb validName (x :: r) = true -> forallb validName (y :: s) = true ->
  x <> y ->
  relativePath (csegs ++ x :: r) <> relativePath (csegs ++ y :: s).
Proof.
  intros Hc Hx Hy Hne H. apply relativePath_inj in H.
  - apply app_inv_head in H. congruence.
  - rewrite forallb_app. now rewrite Hc, Hx.
  - rewrite forallb_app. now rewrite Hc, Hy.
Qed.

Lemma relativePath_nonempty (csegs : list string) :
  forallb validName csegs = true -> csegs <> [] ->
  isEmpty (relativePath csegs) = false.
Proof.
  intros Hv Hne. destruct (isEmpty (relativePath csegs)) eqn:E; [| reflexivity].
  apply isEmpty_true in E. exfalso.
  destruct csegs as [| x r]; [congruence |].
  apply (relativePath_extend_ne [] x r); auto.
Qed.

Lemma nodeAt_head_name (es : list (string * node)) (name : string)
  (rest : list string) (target : node) :
  nodeAt (Dir es) (name :: rest) target -> In name (map fst es).
Proof.
  intros [c [Hin _]]. apply in_map_iff. exists (name, c). auto.
Qed.

(** ** The categories of the index *)

(** A key that is neither the category of the directory nor the path of
    a directory below it keeps its list. *)
Lemma categories_untouched (k : string) (es : list (string * node))
  (csegs : list string) (index index' : Index) :
  indexDirectory (Dir es) (relativePath csegs) (relativePath csegs) index
  = ok index' ->
  k <> relativePath csegs ->
  (forall dsegs sub, dsegs <> [] -> nodeAt (Dir es) dsegs (Dir sub) ->
                     k <> relativePath (csegs ++ dsegs)) ->
  objGet k (index_categories index') = objGet k (index_categories index).
Proof.
  intros Hrun. run_induction Hrun es csegs index index'.
  - reflexivity.
  - intros file child es csegs index index' _ _ IH Hk Hpaths.
    apply IH; [exact Hk |]. intros dsegs sub Hne Hat.
    apply (Hpaths dsegs sub); [exact Hne | now apply nodeAt_tail].
  - intros file content st es csegs index index1 index' _ Hfile _ IH Hk Hpaths.
    rewrite IH.
    + apply indexFile_ok in Hfile. destruct Hfile as [_ [Hcat _]].
      destruct (isEmpty (relativePath csegs)).
      * now rewrite Hcat.
      * eapply objPush_other; eauto.
    + exact Hk.
    + intros dsegs sub Hne Hat.
      apply (Hpaths dsegs sub); [exact Hne | now apply nodeAt_tail].
  - intros file sub es csegs index index1 index' _ _ IHsub _ IH Hk Hpaths.
    rewrite IH.
    + rewrite IHsub.
      * cbn [openCategory index_categories]. apply objGet_objAssign_ne.
        apply (Hpaths [file] sub); [discriminate |].
        exists (Dir sub). split; [now left | reflexivity].
      * apply (Hpaths [file] sub); [discriminate |].
        exists (Dir sub). split; [now left | reflexivity].
      * intros dsegs sub' Hne Hat. rewrite <- app_assoc.
        apply (Hpaths (file :: dsegs) sub'); [discriminate |].
        exists (Dir sub). split; [now left | exact Hat].
    + exact Hk.
    + intros dsegs sub' Hne Hat.
      apply (Hpaths dsegs sub'); [exact Hne | now apply nodeAt_tail].
Qed.

(** The entries of a directory do not touch the key of a path through
    a name that is not among them. *)
Lemma categories_untouched_sibling (es : list (string * node))
  (csegs : list string) (file : string) (rest : list string)
  (index index' : Index) :
  indexDirectory (Dir es) (relativePath csegs) (relativePath csegs) index
  = ok index' ->
  wellFormed (Dir es) = true ->
  forallb validName csegs = true ->
  forallb validName (file :: rest) = true ->
  ~ In file (map fst es) ->
  objGet (relativePath (csegs ++ file :: rest)) (index_categories index') =
  objGet (relativePath (csegs ++ file :: rest)) (index_categories index).
Proof.
  intros Hrun Hwf Hc Hf Hnin. eapply categories_untouched; [exact Hrun | |].
  - now apply relativePath_extend_ne.
  - intros [| name r] sub Hne Hat; [congruence |].
    destruct (nodeAt_wellFormed _ _ _ Hwf Hat) as [Hv _].
    apply relativePath_sibling_ne; auto.
    intros ->. apply Hnin. eapply nodeAt_head_name; eauto.
Qed.

Lemma mdFiles_cons (file : string) (child : node) (es : list (string * node)) :
  mdFiles ((file, child) :: es) =
  if isFile child && endsWith file ".md" then file :: mdFiles es
  else mdFiles es.
Proof.
  unfold mdFiles. cbn [filter fst snd].
  destruct (isFile child && endsWith file ".md"); reflexivity.
Qed.

(** The list of the category of a directory grows by the Markdown files
    directly inside the directory, in listing order. *)
Lemma categories_own (es : list (string * node)) (csegs : list string)
  (index index' : Index) :
  indexDirectory (Dir es) (relativePath csegs) (relativePath csegs) index
  = ok index' ->
  wellFormed (Dir es) = true ->
  forallb validName csegs = true -> csegs <> [] ->
  relativePath csegs <> "__proto__" ->
  forall l0,
    objGet (relativePath csegs) (index_categories index) = Some l0 ->
    objGet (relativePath csegs) (index_categories index') =
    Some (l0 ++ map (joinPath (relativePath csegs)) (mdFiles es)).
Proof.
  intros Hrun. run_induction Hrun es csegs index index'.
  - intros csegs index _ _ _ _ l0 H. now rewrite app_nil_r.
  - intros file child es csegs index index' Hskip _ IH Hwf Hc Hne Hp l0 Hl0.
    apply wellFormed_cons in Hwf. destruct Hwf as [_ [_ [_ Hwf]]].
    rewrite mdFiles_cons.
    replace (isFile child && endsWith file ".md") with false
      by (destruct child; simpl; [now rewrite Hskip | reflexivity]).
    now apply IH.
  - intros file content st es csegs index index1 index' Hmd Hfile _ IH
           Hwf Hc Hne Hp l0 Hl0.
    apply wellFormed_cons in Hwf. destruct Hwf as [_ [_ [_ Hwf]]].
    rewrite mdFiles_cons. cbn [isFile andb]. rewrite Hmd.
    apply indexFile_ok in Hfile. destruct Hfile as [_ [Hcat _]].
    rewrite (relativePath_nonempty _ Hc Hne) in Hcat.
    rewrite (IH Hwf Hc Hne Hp (l0 ++ [joinPath (relativePath csegs) file])).
    + now rewrite <- app_assoc.
    + eapply objPush_own; eauto.
  - intros file sub es csegs index index1 index' Hvis Hsub _ _ IH
           Hwf Hc Hne Hp l0 Hl0.
    apply wellFormed_cons in Hwf. destruct Hwf as [Hv [Hwsub [_ Hwf]]].
    rewrite mdFiles_cons. cbn [isFile andb].
    apply IH; auto.
    assert (Hfv : forallb validName [file] = true) by (simpl; now rewrite Hv).
    rewrite (categories_untouched _ _ _ _ _ Hsub).
    + cbn [openCategory index_categories].
      rewrite objGet_objAssign_ne; [exact Hl0 |].
      intros H. symmetry in H. revert H. now apply relativePath_extend_ne.
    + intros H. symmetry in H. revert H. now apply relativePath_extend_ne.
    + intros dsegs sub' Hd Hat H. rewrite <- app_assoc in H. symmetry in H.
      revert H. apply relativePath_extend_ne; [exact Hc |].
      destruct (nodeAt_wellFormed _ _ _ Hwsub Hat) as [Hdv _].
      cbn [app forallb]. now rewrite Hv, Hdv.
Qed.

Lemma visibleDirs_cons (d : string) (rest : list string) :
  visibleDirs (d :: rest) = true ->
  startsWith d "." = false /\ visibleDirs rest = true.
Proof.
  unfold visibleDirs. cbn [forallb]. intros H.
  apply andb_true_iff in H. destruct H as [H1 H2].
  split; [now apply negb_true_iff in H1 | exact H2].
Qed.

(** A directory that is reached through visible directories has its
    own key, with the Markdown files directly inside it. *)
Lemma categories_of_directory (es : list (string * node)) (csegs : list string)
  (index index' : Index) :
  indexDirectory (Dir es) (relativePath csegs) (relativePath csegs) index
  = ok index' ->
  wellFormed (Dir es) = true ->
  forallb validName csegs = true ->
  forall dsegs sub,
    dsegs <> [] -> nodeAt (Dir es) dsegs (Dir sub) ->
    visibleDirs dsegs = true ->
    relativePath (csegs ++ dsegs) <> "__proto__" ->
    objGet (relativePath (csegs ++ dsegs)) (index_categories index') =
    Some (map (joinPath (relativePath (csegs ++ dsegs))) (mdFiles sub)).
Proof.
  intros Hrun. run_induction Hrun es csegs index index'.
  - intros csegs index _ _ [| name rest] sub Hne Hat; [congruence |].
    destruct Hat as [c [[] _]].
  - intros file child es csegs index index' Hskip _ IH Hwf Hc
           [| name rest] sub Hne Hat Hvis Hp; [congruence |].
    destruct (nodeAt_cons_inv _ _ _ _ _ _ Hwf Hat) as [[-> Hat'] | [_ Hat']].
    + exfalso. apply visibleDirs_cons in Hvis. destruct Hvis as [Hv _].
      destruct child as [content st | sub0]; [| congruence].
      destruct rest; simpl in Hat'; [discriminate | contradiction].
    + apply wellFormed_cons in Hwf. destruct Hwf as [_ [_ [_ Hwf]]].
      now apply IH.
  - intros file content st es csegs index index1 index' _ _ _ IH Hwf Hc
           [| name rest] sub Hne Hat Hvis Hp; [congruence |].
    destruct (nodeAt_cons_inv _ _ _ _ _ _ Hwf Hat) as [[-> Hat'] | [_ Hat']].
    + exfalso. destruct rest; simpl in Hat'; [discriminate | contradiction].
    + apply wellFormed_cons in Hwf. destruct Hwf as [_ [_ [_ Hwf]]].
      now apply IH.
  - intros file sub0 es csegs index index1 index' _ Hsub IHsub Htail IH Hwf Hc
           [| name rest] sub Hne Hat Hvis Hp; [congruence |].
    destruct (nodeAt_cons_inv _ _ _ _ _ _ Hwf Hat) as [[-> Hat'] | [_ Hat']];
      apply wellFormed_cons in Hwf; destruct Hwf as [Hv [Hwsub [Hnin Hwf]]];
      [| now apply IH].
    destruct (nodeAt_wellFormed _ _ _ Hwsub Hat') as [Hrv _].
    assert (Hfv : forallb validName (csegs ++ [file]) = true)
      by (rewrite forallb_app; simpl; now rewrite Hc, Hv).
    rewrite (categories_untouched_sibling _ _ _ _ _ _ Htail); auto;
      [| simpl; now rewrite Hv, Hrv].
    apply visibleDirs_cons in Hvis. destruct Hvis as [_ Hvis].
    destruct rest as [| d rest].
    + simpl in Hat'. injection Hat' as ->.
      refine (categories_own _ _ _ _ Hsub Hwsub Hfv _ Hp [] _).
      * now destruct csegs.
      * cbn [openCategory index_categories].
        now apply objGet_objAssign_eq.
    + replace (csegs ++ file :: d :: rest)
        with ((csegs ++ [file]) ++ d :: rest) in *
        by (now rewrite <- app_assoc).
      apply IHsub; auto. discriminate.
Qed.

(** Every key of the categories was there before or is the path of a
    directory reached through visible directories. *)
Lemma categories_keys (es : list (string * node)) (csegs : list string)
  (index index' : Index) :
  indexDirectory (Dir es) (relativePath csegs) (relativePath csegs) index
  = ok index' ->
  forall k l,
    objGet k (index_categories index') = Some l ->
    (exists l0, objGet k (index_categories index) = Some l0) \/
    (exists dsegs sub,
        dsegs <> [] /\ nodeAt (Dir es) dsegs (Dir sub) /\
        visibleDirs dsegs = true /\
        k = relativePath (csegs ++ dsegs) /\ k <> "__proto__").
Proof.
  intros Hrun. run_induction Hrun es csegs index index'.
  - intros csegs index k l H. eauto.
  - intros file child es csegs index index' _ _ IH k l H.
    destruct (IH k l H) as [Hold | [dsegs [sub [Hne [Hat Hrest]]]]]; [now left |].
    right. exists dsegs, sub. split; [exact Hne |].
    split; [now apply nodeAt_tail | exact Hrest].
  - intros file content st es csegs index index1 index' _ Hfile _ IH k l H.
    destruct (IH k l H) as [[l1 Hold] | [dsegs [sub [Hne [Hat Hrest]]]]].
    + left. apply indexFile_ok in Hfile. destruct Hfile as [_ [Hcat _]].
      destruct (isEmpty (relativePath csegs)).
      * rewrite Hcat in Hold. eauto.
      * destruct (objPush_some _ _ _ _ _ _ Hcat Hold) as [l0 [Hl0 _]]. eauto.
    + right. exists dsegs, sub. split; [exact Hne |].
      split; [now apply nodeAt_tail | exact Hrest].
  - intros file sub0 es csegs index index1 index' Hvis _ IHsub _ IH k l H.
    destruct (IH k l H) as [[l1 Hold] | [dsegs [sub [Hne [Hat Hrest]]]]].
    + destruct (IHsub k l1 Hold)
        as [[l0 Hopen] | [dsegs [sub [Hne [Hat [Hv [Hk Hp]]]]]]].
      * cbn [openCategory index_categories] in Hopen.
        apply objGet_objAssign_some in Hopen.
        destruct Hopen as [[Hk [_ Hp]] | Hopen]; [right | eauto].
        exists [file], sub0. split; [discriminate |].
        split; [exists (Dir sub0); split; [now left | reflexivity] |].
        unfold visibleDirs. cbn [forallb]. rewrite Hvis. auto.
      * right. exists (file :: dsegs), sub. split; [discriminate |].
        split; [exists (Dir sub0); split; [now left | exact Hat] |].
        unfold visibleDirs in *. cbn [forallb]. rewrite Hvis, Hv.
        rewrite <- app_assoc in Hk. auto.
    + right. exists dsegs, sub. split; [exact Hne |].
      split; [now apply nodeAt_tail | exact Hrest].
Qed.

(** The categories of the index of a well-formed tree. *)
Lemma categories_exact (es : list (string * node)) (now : string)
  (index : Index) :
  wellFormed (Dir es) = true ->
  indexDirectory (Dir es) EmptyString EmptyString (emptyIndex now) = ok index ->
  forall k l,
    objGet k (index_categories index) = Some l <->
    k <> "__proto__" /\
    exists dsegs sub,
      dsegs <> [] /\ nodeAt (Dir es) dsegs (Dir sub) /\
      visibleDirs dsegs = true /\
      k = relativePath dsegs /\
      l = map (joinPath k) (mdFiles sub).
Proof.
  intros Hwf Hrun k l.
  change EmptyString with (relativePath []) in Hrun.
  split.
  - intros H.
    destruct (categories_keys _ _ _ _ Hrun k l H)
      as [[l0 Hold] | [dsegs [sub [Hne [Hat [Hv [Hk Hp]]]]]]];
      [discriminate |].
    split; [exact Hp |]. exists dsegs, sub. repeat split; auto.
    cbn [app] in Hk. subst k.
    pose proof (categories_of_directory _ _ _ _ Hrun Hwf eq_refl
                  dsegs sub Hne Hat Hv Hp) as Hd.
    cbn [app] in Hd. rewrite Hd in H. now injection H.
  - intros [Hp [dsegs [sub [Hne [Hat [Hv [-> ->]]]]]]].
    exact (categories_of_directory _ _ _ _ Hrun Hwf eq_refl
             dsegs sub Hne Hat Hv Hp).
Qed.

(** C4 (as amended): in the index of a well-formed tree, [categories]
    maps the relative path of every directory that is reached through
    directories with names not starting with a dot, at any depth (and
    not named [__proto__]), to the relative paths of the Markdown files
    directly inside that directory, in listing order; it has no other
    key.  A nested directory has a key of its own, and its files are
    not in the list of the directory above it. *)
Theorem categories_map_each_directory_to_its_own_files
  (es : list (string * node)) (now : string) (index : Index) :
  wellFormed (Dir es) = true ->
  indexDirectory (Dir es) EmptyString EmptyString (emptyIndex now) = ok index ->
  forall k l,
    objGet k (index_categories index) = Some l <->
    k <> "__proto__" /\
    exists dsegs sub,
      dsegs <> [] /\ nodeAt (Dir es) dsegs (Dir sub) /\
      visibleDirs dsegs = true /\
      k = relativePath dsegs /\
      l = map (joinPath k) (mdFiles sub).
Proof. exact (categories_exact es now index). Qed.

Lemma categories_map_each_directory_to_its_own_files_witness :
  let now := "2024-01-02T00:00:00.000Z" in
  exists index,
    wellFormed (Dir nestedTree) = true /\
    indexDirectory (Dir nestedTree) EmptyString EmptyString (emptyIndex now)
    = ok index /\
    forall k l,
      objGet k (index_categories index) = Some l <->
      k <> "__proto__" /\
      exists dsegs sub,
        dsegs <> [] /\ nodeAt (Dir nestedTree) dsegs (Dir sub) /\
        visibleDirs dsegs = true /\
        k = relativePath dsegs /\
        l = map (joinPath k) (mdFiles sub).
Proof.
  intros now. eexists. split; [reflexivity |]. split; [reflexivity |].
  apply (categories_map_each_directory_to_its_own_files nestedTree now);
    reflexivity.
Defined.

(** C4, counterexample: with [a/x.md] and [a/b/y.md] the categories
    have the key [a/b], which is not a top-level name, and the list of
    [a] does not hold the file [a/b/y.md] of its nested directory. *)
Lemma categories_have_nested_keys :
  exists index,
    indexDirectory (Dir nestedTree) EmptyString EmptyString
                   (emptyIndex "2024-01-02T00:00:00.000Z") = ok index /\
    index_categories index = [("a", ["a/x.md"]); ("a/b", ["a/b/y.md"])] /\
    map fst nestedTree = ["a"; "r.md"] /\
    objGet "a/b" (index_categories index) = Some ["a/b/y.md"] /\
    exists l, objGet "a" (index_categories index) = Some l /\ ~ In "a/b/y.md" l.
Proof.
  eexists. split; [reflexivity |]. repeat split.
  eexists. split; [reflexivity |].
  intros [H | []]. discriminate.
Qed.

(** ** The files of the index *)

Lemma joinPath_not_proto (c file : string) :
  endsWith file ".md" = true -> joinPath c file <> "__proto__".
Proof.
  intros Hmd H. unfold joinPath in H. destruct (isEmpty c).
  - subst file. discriminate.
  - assert (Hi : includes "__proto__" "/" = true)
      by (apply includes_spec; exists c, file; now rewrite H).
    discriminate.
Qed.

(** A key that is not the path of a file of the directory keeps its
    entry. *)
Lemma files_untouched (k : string) (es : list (string * node))
  (csegs : list string) (index index' : Index) :
  indexDirectory (Dir es) (relativePath csegs) (relativePath csegs) index
  = ok index' ->
  (forall segs content st, nodeAt (Dir es) segs (File content st) ->
                           k <> relativePath (csegs ++ segs)) ->
  objGet k (index_files index') = objGet k (index_files index).
Proof.
  intros Hrun. run_induction Hrun es csegs index index'.
  - reflexivity.
  - intros file child es csegs index index' _ _ IH Hpaths.
    apply IH. intros [| name rest] content st Hat; [discriminate |].
    apply (Hpaths _ content st). now apply nodeAt_tail.
  - intros file content st es csegs index index1 index' _ Hfile _ IH Hpaths.
    rewrite IH.
    + apply indexFile_ok in Hfile. destruct Hfile as [-> _].
      apply objGet_objAssign_ne. rewrite <- relativePath_snoc.
      apply (Hpaths [file] content st).
      exists (File content st). split; [now left | reflexivity].
    + intros [| name rest] content' st' Hat; [discriminate |].
      apply (Hpaths _ content' st'). now apply nodeAt_tail.
  - intros file sub es csegs index index1 index' _ _ IHsub _ IH Hpaths.
    rewrite IH.
    + rewrite IHsub; [reflexivity |].
      intros segs content st Hat. rewrite <- app_assoc.
      apply (Hpaths (file :: segs) content st).
      exists (Dir sub). split; [now left | exact Hat].
    + intros [| name rest] content st Hat; [discriminate |].
      apply (Hpaths _ content st). now apply nodeAt_tail.
Qed.

Lemma files_untouched_sibling (es : list (string * node))
  (csegs : list string) (file : string) (rest : list string)
  (index index' : Index) :
  indexDirectory (Dir es) (relativePath csegs) (relativePath csegs) index
  = ok index' ->
  wellFormed (Dir es) = true ->
  forallb validName csegs = true ->
  forallb validName (file :: rest) = true ->
  ~ In file (map fst es) ->
  objGet (relativePath (csegs ++ file :: rest)) (index_files index') =
  objGet (relativePath (csegs ++ file :: rest)) (index_files index).
Proof.
  intros Hrun Hwf Hc Hf Hnin. eapply files_untouched; [exact Hrun |].
  intros [| name r] content st Hat; [discriminate |].
  destruct (nodeAt_wellFormed _ _ _ Hwf Hat) as [Hv _].
  apply relativePath_sibling_ne; auto.
  intros ->. apply Hnin. eapply nodeAt_head_name; eauto.
Qed.

(** A Markdown file that is reached through visible directories has
    its entry, with the path of its directory as the category. *)
Lemma files_of_file (es : list (string * node)) (csegs : list string)
  (index index' : Index) :
  indexDirectory (Dir es) (relativePath csegs) (relativePath csegs) index
  = ok index' ->
  wellFormed (Dir es) = true ->
  forallb validName csegs = true ->
  forall segs content st,
    nodeAt (Dir es) segs (File content st) ->
    searchedPath segs = true ->
    objGet (relativePath (csegs ++ segs)) (index_files index') =
    Some (entryOf (relativePath (csegs ++ removelast segs))
                  (last segs EmptyString) content st).
Proof.
  intros Hrun. run_induction Hrun es csegs index index'.
  - intros csegs index _ _ [| name rest] content st Hat; [discriminate |].
    destruct Hat as [c [[] _]].
  - intros file child es csegs index index' Hskip _ IH Hwf Hc
           [| name rest] content st Hat Hp; [discriminate |].
    destruct (nodeAt_cons_inv _ _ _ _ _ _ Hwf Hat) as [[-> Hat'] | [_ Hat']].
    + exfalso. destruct child as [c0 s0 | sub0]; destruct rest as [| d rest];
        simpl in Hat'; try discriminate; try contradiction.
      * simpl in Hp. congruence.
      * rewrite searchedPath_cons in Hp by discriminate.
        rewrite Hskip in Hp. discriminate.
    + apply wellFormed_cons in Hwf. destruct Hwf as [_ [_ [_ Hwf]]].
      now apply IH.
  - intros file c0 s0 es csegs index index1 index' Hmd Hfile Htail IH Hwf Hc
           [| name rest] content st Hat Hp; [discriminate |].
    destruct (nodeAt_cons_inv _ _ _ _ _ _ Hwf Hat) as [[-> Hat'] | [_ Hat']];
      apply wellFormed_cons in Hwf; destruct Hwf as [Hv [_ [Hnin Hwf]]];
      [| now apply IH].
    destruct rest as [| d rest]; simpl in Hat'; [| contradiction].
    injection Hat' as -> ->.
    rewrite (files_untouched_sibling _ _ _ _ _ _ Htail); auto;
      [| simpl; now rewrite Hv].
    apply indexFile_ok in Hfile. destruct Hfile as [-> _].
    cbn [removelast last]. rewrite app_nil_r, relativePath_snoc.
    apply objGet_objAssign_eq. now apply joinPath_not_proto.
  - intros file sub0 es csegs index index1 index' Hvis _ IHsub Htail IH Hwf Hc
           [| name rest] content st Hat Hp; [discriminate |].
    destruct (nodeAt_cons_inv _ _ _ _ _ _ Hwf Hat) as [[-> Hat'] | [_ Hat']];
      apply wellFormed_cons in Hwf; destruct Hwf as [Hv [Hwsub [Hnin Hwf]]];
      [| now apply IH].
    destruct (nodeAt_wellFormed _ _ _ Hwsub Hat') as [Hrv _].
    destruct rest as [| d rest]; [discriminate |].
    rewrite (files_untouched_sibling _ _ _ _ _ _ Htail); auto;
      [| simpl in *; now rewrite Hv, Hrv].
    rewrite searchedPath_cons in Hp by discriminate.
    apply andb_true_iff in Hp. destruct Hp as [_ Hp].
    assert (Hfv : forallb validName (csegs ++ [file]) = true)
      by (rewrite forallb_app; simpl; now rewrite Hc, Hv).
    specialize (IHsub Hwsub Hfv (d :: rest) content st Hat' Hp).
    rewrite <- !app_assoc in IHsub. exact IHsub.
Qed.

(** Every key of the files was there before or is the path of a file
    that the traversal reaches. *)
Lemma files_keys (es : list (string * node)) (csegs : list string)
  (index index' : Index) :
  indexDirectory (Dir es) (relativePath csegs) (relativePath csegs) index
  = ok index' ->
  forall k e,
    objGet k (index_files index') = Some e ->
    (exists e0, objGet k (index_files index) = Some e0) \/
    (exists segs content st,
        nodeAt (Dir es) segs (File content st) /\
        searchedPath segs = true /\
        k = relativePath (csegs ++ segs)).
Proof.
  intros Hrun. run_induction Hrun es csegs index index'.
  - intros csegs index k e H. eauto.
  - intros file child es csegs index index' _ _ IH k e H.
    destruct (IH k e H) as [Hold | [segs [c [s [Hat [Hp Hk]]]]]]; [now left |].
    right. exists segs, c, s. split; [| auto].
    apply nodeAt_tail; [| exact Hat]. intros ->. discriminate.
  - intros file content st es csegs index index1 index' Hmd Hfile _ IH k e H.
    destruct (IH k e H) as [[e1 Hold] | [segs [c [s [Hat [Hp Hk]]]]]].
    + apply indexFile_ok in Hfile. destruct Hfile as [Hf _].
      rewrite Hf in Hold. apply objGet_objAssign_some in Hold.
      destruct Hold as [[Hk _] | Hold]; [right | eauto].
      exists [file], content, st. split.
      * exists (File content st). split; [now left | reflexivity].
      * simpl. rewrite Hmd. split; [reflexivity |].
        now rewrite relativePath_snoc.
    + right. exists segs, c, s. split; [| auto].
      apply nodeAt_tail; [| exact Hat]. intros ->. discriminate.
  - intros file sub0 es csegs index index1 index' Hvis _ IHsub _ IH k e H.
    destruct (IH k e H) as [[e1 Hold] | [segs [c [s [Hat [Hp Hk]]]]]].
    + destruct (IHsub k e1 Hold) as [Hopen | [segs [c [s [Hat [Hp Hk]]]]]];
        [now left | right].
      exists (file :: segs), c, s. split.
      * exists (Dir sub0). split; [now left | exact Hat].
      * rewrite searchedPath_cons
          by (destruct segs; [discriminate Hp | discriminate]).
        rewrite Hvis, Hp. rewrite <- app_assoc in Hk. auto.
    + right. exists segs, c, s. split; [| auto].
      apply nodeAt_tail; [| exact Hat]. intros ->. discriminate.
Qed.

(** ** Files at the root *)

Lemma wellFormed_entry (es : list (string * node)) (name : string)
  (child : node) :
  wellFormed (Dir es) = true -> In (name, child) es ->
  validName name = true /\ wellFormed child = true.
Proof.
  intros Hwf Hin.
  destruct (nodeAt_wellFormed [name] (Dir es) child Hwf) as [Hv Hc].
  - exists child. split; [exact Hin | reflexivity].
  - simpl in Hv. apply andb_true_iff in Hv. now destruct Hv.
Qed.

Lemma mdFiles_In (es : list (string * node)) (f : string) :
  In f (mdFiles es) ->
  exists content st, In (f, File content st) es /\ endsWith f ".md" = true.
Proof.
  unfold mdFiles. rewrite in_map_iff. intros [[name child] [Hf Hin]].
  simpl in Hf. subst name. apply filter_In in Hin. destruct Hin as [Hin Hp].
  simpl in Hp. apply andb_true_iff in Hp. destruct Hp as [Hfile Hmd].
  destruct child as [content st | sub]; [| discriminate]. eauto.
Qed.

(** The members of the lists of the categories are paths of at least
    two names: a directory reached through visible directories, then a
    Markdown file directly inside it. *)
Lemma categories_members (es : list (string * node)) (now : string)
  (index : Index) (k : string) (l : list string) (x : string) :
  wellFormed (Dir es) = true ->
  indexDirectory (Dir es) EmptyString EmptyString (emptyIndex now) = ok index ->
  objGet k (index_categories index) = Some l -> In x l ->
  exists dsegs f,
    dsegs <> [] /\ visibleDirs dsegs = true /\
    forallb validName (dsegs ++ [f]) = true /\
    x = relativePath (dsegs ++ [f]).
Proof.
  intros Hwf Hrun Hk Hx.
  apply (categories_exact es now index Hwf Hrun) in Hk.
  destruct Hk as [_ [dsegs [sub [Hne [Hat [Hv [-> ->]]]]]]].
  apply in_map_iff in Hx. destruct Hx as [f [<- Hf]].
  apply mdFiles_In in Hf. destruct Hf as [content [st [Hin _]]].
  destruct (nodeAt_wellFormed _ _ _ Hwf Hat) as [Hdv Hsub].
  destruct (wellFormed_entry _ _ _ Hsub Hin) as [Hfv _].
  exists dsegs, f. split; [exact Hne |]. split; [exact Hv |]. split.
  - rewrite forallb_app. cbn [forallb]. now rewrite Hdv, Hfv.
  - now rewrite relativePath_snoc.
Qed.

(** C9: a Markdown file directly at the root of a well-formed tree gets
    an index entry whose category is the empty string, and its relative
    path is in no list of [categories]. *)
Theorem root_files_have_empty_category
  (es : list (string * node)) (now : string) (index : Index)
  (file content : string) (st : Stats) :
  wellFormed (Dir es) = true ->
  indexDirectory (Dir es) EmptyString EmptyString (emptyIndex now) = ok index ->
  In (file, File content st) es ->
  endsWith file ".md" = true ->
  (exists e, objGet (relativePath [file]) (index_files index) = Some e /\
             entry_category e = EmptyString) /\
  (forall k l, objGet k (index_categories index) = Some l ->
               ~ In (relativePath [file]) l).
Proof.
  intros Hwf Hrun Hin Hmd. split.
  - exists (entryOf EmptyString file content st). split; [| reflexivity].
    change EmptyString with (relativePath []) in Hrun.
    apply (files_of_file _ _ _ _ Hrun Hwf eq_refl [file] content st).
    + exists (File content st). split; [exact Hin | reflexivity].
    + exact Hmd.
  - intros k l Hk Hx.
    destruct (categories_members _ _ _ _ _ _ Hwf Hrun Hk Hx)
      as [dsegs [f [Hne [_ [Hv Heq]]]]].
    destruct (wellFormed_entry _ _ _ Hwf Hin) as [Hfv _].
    apply relativePath_inj in Heq; auto; [| simpl; now rewrite Hfv].
    destruct dsegs as [| d [| d' r]]; [congruence | discriminate | discriminate].
Qed.

Lemma root_files_have_empty_category_witness :
  let st := {| size := 2; mtime := "2024-01-01T00:00:00.000Z" |} in
  let now := "2024-01-02T00:00:00.000Z" in
  exists index,
    indexDirectory (Dir nestedTree) EmptyString EmptyString (emptyIndex now)
    = ok index /\
    (exists e, objGet (relativePath ["r.md"]) (index_files index) = Some e /\
               entry_category e = EmptyString) /\
    (forall k l, objGet k (index_categories index) = Some l ->
                 ~ In (relativePath ["r.md"]) l).
Proof.
  intros st now. eexists. split; [reflexivity |].
  apply (root_files_have_empty_category nestedTree now _ "r.md" "# R" st).
  - reflexivity.
  - reflexivity.
  - right. left. reflexivity.
  - reflexivity.
Defined.

(** ** Hidden directories *)

Lemma lookup_In (name : string) (es : list (string * node)) (n : node) :
  lookup name es = Some n -> In (name, n) es.
Proof.
  induction es as [| [k c] es IH]; simpl; [discriminate |].
  destruct (String.eqb_spec k name) as [-> | Hne].
  - intros [= ->]. now left.
  - intros H. right. now apply IH.
Qed.

Lemma searchedPath_not_hidden (segs : list string) :
  searchedPath segs = true -> hiddenOnPath segs = false.
Proof.
  unfold hiddenOnPath. induction segs as [| name [| d rest] IH]; intros H.
  - reflexivity.
  - reflexivity.
  - rewrite searchedPath_cons in H by discriminate.
    apply andb_true_iff in H. destruct H as [Hv H].
    change (removelast (name :: d :: rest))
      with (name :: removelast (d :: rest)).
    cbn [existsb]. apply negb_true_iff in Hv. rewrite Hv. now apply IH.
Qed.

Lemma visibleDirs_not_hidden (dsegs : list string) (f : string) :
  visibleDirs dsegs = true -> hiddenOnPath (dsegs ++ [f]) = false.
Proof.
  unfold hiddenOnPath, visibleDirs. rewrite removelast_last.
  induction dsegs as [| d r IH]; cbn [forallb existsb]; [reflexivity |].
  intros H. apply andb_true_iff in H. destruct H as [Hd Hr].
  apply negb_true_iff in Hd. rewrite Hd. now apply IH.
Qed.

(** The browse tool prints a header for every directory below the one
    it starts from and a leaf for every Markdown file, whatever the
    names of the directories on the way. *)
Lemma browseDirectory_lists (segs : list string) :
  forall es indent target,
    nodeAt (Dir es) segs target -> segs <> [] ->
    match target with
    | Dir _ =>
        In (deepen indent (List.length segs - 1)
              ++ "📁 " ++ last segs EmptyString ++ "/")%string
           (browseDirectory (Dir es) indent)
    | File _ _ =>
        endsWith (last segs EmptyString) ".md" = true ->
        In (deepen indent (List.length segs - 1)
              ++ "📄 " ++ last segs EmptyString)%string
           (browseDirectory (Dir es) indent)
    end.
Proof.
  induction segs as [| name rest IH]; intros es indent target Hat Hne;
    [congruence |].
  destruct Hat as [child [Hin Hat]].
  cbn [browseDirectory]. destruct rest as [| d rest].
  - simpl in Hat. subst child. cbn [List.length Nat.sub deepen last].
    destruct target as [content st | sub].
    + intros Hmd. apply in_flat_map. exists (name, File content st).
      split; [exact Hin |]. rewrite Hmd. now left.
    + apply in_flat_map. exists (name, Dir sub).
      split; [exact Hin | now left].
  - destruct child as [content st | sub]; [contradiction |].
    specialize (IH sub (indent ++ "  ")%string target Hat).
    assert (Hd : d :: rest <> []) by discriminate. specialize (IH Hd).
    replace (List.length (name :: d :: rest) - 1)
      with (S (List.length (d :: rest) - 1)) by (simpl; lia).
    change (last (name :: d :: rest) EmptyString)
      with (last (d :: rest) EmptyString).
    cbn [deepen].
    destruct target as [content st | sub'].
    + intros Hmd. apply in_flat_map. exists (name, Dir sub).
      split; [exact Hin | right; now apply IH].
    + apply in_flat_map. exists (name, Dir sub).
      split; [exact Hin | right; exact IH].
Qed.

(** The paths of the matches of a search are paths that it visits. *)
Lemma searchDirectory_files (es : list (string * node)) (term : string)
  (m : SearchMatch) :
  In m (searchDirectory (Dir es) EmptyString term) ->
  exists segs content st,
    nodeAt (Dir es) segs (File content st) /\
    searchedPath segs = true /\
    match_file m = relativePath segs.
Proof.
  intros H. apply searchDirectory_In in H.
  destruct H as [segs [content [st [Hat [Hp Hm]]]]].
  exists segs, content, st. repeat split; auto.
  unfold searchInFile in Hm. apply searchLines_In in Hm.
  destruct Hm as [k [line [_ [_ ->]]]]. reflexivity.
Qed.

(** C10: the browse tool prints a folder header for every directory
    below the category it is given, hidden ones included, and a leaf
    for every Markdown file below them; a Markdown file that lies below
    a hidden directory is therefore printed by the browse tool, while
    no search returns a match in it and the index has neither an entry
    for it nor a category list with it. *)
Theorem hidden_directory_browsed_not_searched_not_indexed
  (es ces : list (string * node)) (category : string)
  (segs : list string) (content : string) (st : Stats) :
  wellFormed (Dir es) = true ->
  lookup category es = Some (Dir ces) ->
  nodeAt (Dir ces) segs (File content st) ->
  markdownPath segs = true ->
  hiddenOnPath (category :: segs) = true ->
  (forall dsegs sub,
      dsegs <> [] -> nodeAt (Dir ces) dsegs (Dir sub) ->
      In (deepen EmptyString (List.length dsegs - 1)
            ++ "📁 " ++ last dsegs EmptyString ++ "/")%string
         (browseDirectory (Dir ces) EmptyString)) /\
  In (deepen EmptyString (List.length segs - 1)
        ++ "📄 " ++ last segs EmptyString)%string
     (browseDirectory (Dir ces) EmptyString) /\
  (forall term m,
      In m (searchDirectory (Dir es) EmptyString term) ->
      match_file m <> relativePath (category :: segs)) /\
  (forall now index,
      indexDirectory (Dir es) EmptyString EmptyString (emptyIndex now)
      = ok index ->
      objGet (relativePath (category :: segs)) (index_files index) = None /\
      forall k l, objGet k (index_categories index) = Some l ->
                  ~ In (relativePath (category :: segs)) l).
Proof.
  intros Hwf Hcat Hat Hmd Hhid.
  assert (Hne : segs <> []) by (intros ->; discriminate).
  assert (Hfull : nodeAt (Dir es) (category :: segs) (File content st)).
  { exists (Dir ces). split; [now apply lookup_In | exact Hat]. }
  destruct (nodeAt_wellFormed _ _ _ Hwf Hfull) as [Hvalid _].
  split; [| split; [| split]].
  - intros dsegs sub Hd Hsub.
    exact (browseDirectory_lists dsegs ces EmptyString (Dir sub) Hsub Hd).
  - exact (browseDirectory_lists segs ces EmptyString (File content st)
             Hat Hne Hmd).
  - intros term m Hm Heq. apply searchDirectory_files in Hm.
    destruct Hm as [segs' [c' [s' [Hat' [Hp Hf]]]]].
    destruct (nodeAt_wellFormed _ _ _ Hwf Hat') as [Hvalid' _].
    rewrite Hf in Heq. apply relativePath_inj in Heq; auto. subst segs'.
    apply searchedPath_not_hidden in Hp. congruence.
  - intros now index Hrun. split.
    + destruct (objGet (relativePath (category :: segs)) (index_files index))
        as [e |] eqn:E; [exfalso | reflexivity].
      change EmptyString with (relativePath []) in Hrun.
      destruct (files_keys _ _ _ _ Hrun _ _ E)
        as [[e0 Hold] | [segs' [c' [s' [Hat' [Hp Hk]]]]]]; [discriminate |].
      destruct (nodeAt_wellFormed _ _ _ Hwf Hat') as [Hvalid' _].
      cbn [app] in Hk. apply relativePath_inj in Hk; auto. subst segs'.
      apply searchedPath_not_hidden in Hp. congruence.
    + intros k l Hk Hx.
      destruct (categories_members _ _ _ _ _ _ Hwf Hrun Hk Hx)
        as [dsegs [f [_ [Hv [Hdv Heq]]]]].
      apply relativePath_inj in Heq; auto.
      rewrite Heq in Hhid.
      rewrite (visibleDirs_not_hidden dsegs f Hv) in Hhid. discriminate.
Qed.

Lemma hidden_directory_browsed_not_searched_not_indexed_witness :
  let st := {| size := 2; mtime := "2024-01-01T00:00:00.000Z" |} in
  In "  📄 d.md" (browseDirectory (Dir [ (".drafts", Dir [("d.md", File "hi" st)]);
                                          ("v.md", File "yo" st) ])
                                  EmptyString) /\
  (forall term m,
      In m (searchDirectory (Dir hiddenTree) EmptyString term) ->
      match_file m <> "docs/.drafts/d.md").
Proof.
  intros st.
  destruct (hidden_directory_browsed_not_searched_not_indexed
              hiddenTree
              [ (".drafts", Dir [("d.md", File "hi" st)]);
                ("v.md", File "yo" st) ]
              "docs" [".drafts"; "d.md"] "hi" st)
    as [_ [Hbrowse [Hsearch _]]].
  - reflexivity.
  - reflexivity.
  - eexists. split; [left; reflexivity |].
    eexists. split; [left; reflexivity | reflexivity].
  - reflexivity.
  - reflexivity.
  - split; [exact Hbrowse | exact Hsearch].
Defined.

(** ** Running the indexer twice *)

Lemma stringifyIndex_split (index : Index) :
  stringifyIndex index =
  (indexHeader ++ quoteJSONString (index_updated index) ++ indexBody index)%string.
Proof.
  unfold stringifyIndex, jsonOfIndex, indexHeader, indexBody.
  cbn [serialize map String.concat fst snd].
  rewrite !append_assoc. reflexivity.
Qed.

Lemma indexFile_setUpdated (u dir category file content : string) (st : Stats)
  (index : Index) :
  indexFile dir category file content st (setUpdated u index) =
  mapOk (setUpdated u) (indexFile dir category file content st index).
Proof.
  unfold indexFile, bind, ok. cbn [setUpdated index_files index_categories
                                     index_tags index_updated].
  destruct (isEmpty category).
  - match goal with
    | |- context [indexTags ?a ?b ?c] => destruct (indexTags a b c)
    end; reflexivity.
  - destruct (objPush category (joinPath dir file) (index_categories index));
      [reflexivity |].
    match goal with
    | |- context [indexTags ?a ?b ?c] => destruct (indexTags a b c)
    end; reflexivity.
Qed.

(** The time stamp is carried along: the traversal does not read it. *)
Lemma indexDirectory_setUpdated (u : string) (n : node) :
  forall dir category index,
    indexDirectory n dir category (setUpdated u index) =
    mapOk (setUpdated u) (indexDirectory n dir category index).
Proof.
  induction n as [content st | es IH] using node_ind;
    intros dir category index; [reflexivity |].
  rewrite !indexDirectory_Dir.
  change (ok (setUpdated u index)) with (mapOk (setUpdated u) (ok index)).
  generalize (ok index). clear index.
  induction es as [| [file child] es IHes]; intros acc; [reflexivity |].
  inversion IH as [| e es' IHchild IHtail]; subst. simpl in IHchild.
  cbn [fold_left]. rewrite <- (IHes IHtail). f_equal.
  destruct acc as [e | index]; [reflexivity |].
  unfold indexEntry, bind, ok, mapOk at 1.
  destruct child as [content st | sub].
  - destruct (endsWith file ".md"); [| reflexivity].
    apply indexFile_setUpdated.
  - destruct (startsWith file "."); cbn [negb].
    + destruct (endsWith file ".md"); reflexivity.
    + apply (IHchild (joinPath dir file) (joinPath category file)
                     (openCategory (joinPath category file) index)).
Qed.

(** An entry that is a regular file with a name not ending in [.md]
    leaves the index as it is. *)
Lemma indexEntry_skips (dir category name content : string) (st : Stats)
  (acc : result Index) :
  endsWith name ".md" = false ->
  indexEntry dir category acc (name, File content st) = acc.
Proof.
  intros H. unfold indexEntry, bind, ok. rewrite H. now destruct acc.
Qed.

Lemma index_ignores_written_file (name content time : string)
  (es es' : list (string * node)) (dir category : string) :
  endsWith name ".md" = false ->
  writeFile name content time es = ok es' ->
  forall acc,
    fold_left (indexEntry dir category) es' acc =
    fold_left (indexEntry dir category) es acc.
Proof.
  intros Hmd. revert es'.
  induction es as [| [k n] es IH]; intros es' Hw acc.
  - injection Hw as <-. cbn [fold_left]. now rewrite indexEntry_skips.
  - cbn [writeFile] in Hw. destruct (String.eqb_spec k name) as [-> | Hne].
    + destruct n as [c0 s0 | sub]; [| discriminate].
      injection Hw as <-. cbn [fold_left].
      now rewrite !indexEntry_skips.
    + unfold bind in Hw.
      destruct (writeFile name content time es) as [e | rest'] eqn:E;
        [discriminate |].
      injection Hw as <-. cbn [fold_left]. now apply IH.
Qed.

Lemma lookup_writeFile (name content time : string)
  (es es' : list (string * node)) :
  writeFile name content time es = ok es' ->
  lookup name es' =
  Some (File content {| size := byteLength content; mtime := time |}).
Proof.
  revert es'. induction es as [| [k n] es IH]; intros es' Hw.
  - injection Hw as <-. simpl. now rewrite String.eqb_refl.
  - cbn [writeFile] in Hw. destruct (String.eqb k name) eqn:E.
    + destruct n as [c0 s0 | sub]; [| discriminate].
      injection Hw as <-. simpl. now rewrite E.
    + unfold bind in Hw.
      destruct (writeFile name content time es) as [e | rest']; [discriminate |].
      injection Hw as <-. simpl. rewrite E. now apply IH.
Qed.

Lemma lookup_writeBytes (name content time : string)
  (es es' : list (string * node)) :
  writeBytes name content time es = ok es' ->
  lookup name es' =
  Some (File content {| size := N.of_nat (String.length content); mtime := time |}).
Proof.
  revert es'. induction es as [| [k n] es IH]; intros es' Hw.
  - injection Hw as <-. simpl. now rewrite String.eqb_refl.
  - cbn [writeBytes] in Hw. destruct (String.eqb k name) eqn:E.
    + destruct n as [c0 s0 | sub]; [| discriminate].
      injection Hw as <-. simpl. now rewrite E.
    + unfold bind in Hw.
      destruct (writeBytes name content time es) as [e | rest']; [discriminate |].
      injection Hw as <-. simpl. rewrite E. now apply IH.
Qed.

(** Writing over a regular file succeeds. *)
Lemma writeFile_again (name content time : string) (es : list (string * node))
  (c0 : string) (s0 : Stats) :
  lookup name es = Some (File c0 s0) ->
  exists es', writeFile name content time es = ok es'.
Proof.
  induction es as [| [k n] es IH]; simpl; [discriminate |].
  destruct (String.eqb k name).
  - intros [= ->]. eauto.
  - intros H. destruct (IH H) as [es' ->]. simpl. eauto.
Qed.

Lemma lookup_replaceEntry (name : string) (n n0 : node)
  (es : list (string * node)) :
  lookup name es = Some n0 -> lookup name (replaceEntry name n es) = Some n.
Proof.
  induction es as [| [k c] es IH]; simpl; [discriminate |].
  destruct (String.eqb k name) eqn:E; simpl; rewrite E; auto.
Qed.

(** C8: when a run of the indexer succeeds, a second run on the tree it
    leaves (the same tree with the index file written) succeeds too, and
    the two index files are the same text except for the value of
    [updated]: the same header, the quoted time stamp of the run, and
    the same remainder. *)
Theorem indexer_twice_same_json_except_updated
  (now1 written1 now2 written2 shown : string)
  (project : list (string * node)) :
  run_error (memoryUpdate now1 written1 shown project) = None ->
  let fs1 := run_fs (memoryUpdate now1 written1 shown project) in
  let run2 := memoryUpdate now2 written2 shown fs1 in
  run_error run2 = None /\
  exists rest,
    indexJson fs1 = Some (indexHeader ++ quoteJSONString now1 ++ rest)%string /\
    indexJson (run_fs run2)
    = Some (indexHeader ++ quoteJSONString now2 ++ rest)%string.
Proof.
  unfold memoryUpdate at 1 2.
  destruct (lookup "memory-bank" project) as [[c0 s0 | es] |] eqn:Eroot;
    try discriminate.
  destruct (indexDirectory (Dir es) EmptyString EmptyString (emptyIndex now1))
    as [e | index] eqn:Eindex; [discriminate |].
  destruct (writeFile ".index.json" (stringifyIndex index) written1 es)
    as [e | es1] eqn:Ewrite; [discriminate |].
  intros _. cbn [run_fs]. cbv zeta.
  assert (Hroot1 : lookup "memory-bank"
                     (replaceEntry "memory-bank" (Dir es1) project)
                   = Some (Dir es1))
    by (eapply lookup_replaceEntry; eauto).
  assert (Hindex2 : indexDirectory (Dir es1) EmptyString EmptyString
                      (emptyIndex now2) = ok (setUpdated now2 index)).
  { rewrite indexDirectory_Dir.
    rewrite (index_ignores_written_file ".index.json" _ _ _ _ _ _
               eq_refl Ewrite).
    rewrite <- indexDirectory_Dir.
    change (emptyIndex now2) with (setUpdated now2 (emptyIndex now1)).
    now rewrite indexDirectory_setUpdated, Eindex. }
  pose proof (lookup_writeFile _ _ _ _ _ Ewrite) as Hfile1.
  destruct (writeFile_again ".index.json"
              (stringifyIndex (setUpdated now2 index)) written2 es1 _ _ Hfile1)
    as [es2 Ewrite2].
  unfold memoryUpdate. rewrite Hroot1, Hindex2. unfold ok. cbv beta iota.
  rewrite Ewrite2. unfold ok. cbv beta iota. cbn [run_error run_fs].
  split; [reflexivity |].
  exists (indexBody index). unfold indexJson. split.
  - rewrite Hroot1, Hfile1. f_equal.
    rewrite stringifyIndex_split.
    assert (Hu : index_updated index = now1).
    { change (emptyIndex now1) with (setUpdated now1 (emptyIndex now1)) in Eindex.
      rewrite indexDirectory_setUpdated in Eindex.
      destruct (indexDirectory (Dir es) EmptyString EmptyString (emptyIndex now1));
        [discriminate |].
      injection Eindex as <-. reflexivity. }
    now rewrite Hu.
  - rewrite (lookup_replaceEntry _ _ _ _ Hroot1).
    rewrite (lookup_writeFile _ _ _ _ _ Ewrite2). f_equal.
    now rewrite stringifyIndex_split.
Qed.

Lemma indexer_twice_same_json_except_updated_witness :
  let project := [("memory-bank", Dir nestedTree)] in
  let now1 := "2024-01-02T00:00:00.000Z" in
  let now2 := "2024-01-03T00:00:00.000Z" in
  let fs1 := run_fs (memoryUpdate now1 now1 ".index.json" project) in
  let run2 := memoryUpdate now2 now2 ".index.json" fs1 in
  run_error run2 = None /\
  exists rest,
    indexJson fs1 = Some (indexHeader ++ quoteJSONString now1 ++ rest)%string /\
    indexJson (run_fs run2)
    = Some (indexHeader ++ quoteJSONString now2 ++ rest)%string.
Proof.
  intros project now1 now2.
  apply (indexer_twice_same_json_except_updated
           now1 now1 now2 now2 ".index.json" project).
  reflexivity.
Defined.

(** ** The scaffolder: a declined overwrite *)

(** C1 (as amended): when the destination [memory-bank] exists and the
    answer to the overwrite question, put in lower case, is not [y],
    the scaffolder writes nothing (the project directory is as it was),
    prints [Initialization cancelled.] and ends with exit code 0. *)
Theorem declined_overwrite_changes_nothing
  (a : Answers) (date time : string)
  (parse : string -> option value)
  (project : list (string * node)) :
  lookup "memory-bank" project <> None ->
  toLowerCase (overwrite a) <> "y" ->
  initMemoryBank a date time parse project =
  {| run_output :=
       banner ++ [overwritePrompt; Log "Initialization cancelled."];
     run_error := None;
     run_exit := Some 0;
     run_fs := project |}.
Proof.
  intros Hex Hno. unfold initMemoryBank.
  destruct (lookup "memory-bank" project); [| congruence].
  destruct (String.eqb_spec (toLowerCase (overwrite a)) "y"); [congruence |].
  cbn [andb negb]. now rewrite <- app_assoc.
Qed.

(** Answers and a project with an existing destination. *)
Lemma declined_overwrite_changes_nothing_witness :
  let a := {| projectName := "Foo"; projectDescription := "demo";
              architecture := "monolith"; framework := "Express";
              language := "TypeScript"; overwrite := "no" |} in
  let st := {| size := 2; mtime := "2024-01-01T00:00:00.000Z" |} in
  let project := [ ("memory-bank", Dir [("keep.md", File "hi" st)]);
                   ("memory-bank-template", Dir [("context", Dir [])]) ] in
  initMemoryBank a "2024-01-02" "2024-01-02T00:00:00.000Z"
                 parseSample project =
  {| run_output :=
       banner ++ [overwritePrompt; Log "Initialization cancelled."];
     run_error := None;
     run_exit := Some 0;
     run_fs := project |}.
Proof.
  intros a st project.
  apply (declined_overwrite_changes_nothing a _ _ _ project); discriminate.
Defined.

(** C1, counterexample: the destination exists and the answer is [n];
    nothing is written and the exit code is 0, not a nonzero code. *)
Lemma declined_overwrite_exits_zero :
  let a := {| projectName := "Foo"; projectDescription := "demo";
              architecture := "monolith"; framework := "Express";
              language := "TypeScript"; overwrite := "n" |} in
  let st := {| size := 2; mtime := "2024-01-01T00:00:00.000Z" |} in
  let project := [ ("memory-bank", Dir [("keep.md", File "hi" st)]);
                   ("memory-bank-template", Dir [("context", Dir [])]) ] in
  let run := initMemoryBank a "2024-01-02" "2024-01-02T00:00:00.000Z"
                            parseSample project in
  run_fs run = project /\ run_exit run = Some 0 /\ run_exit run <> Some 1.
Proof. repeat split. discriminate. Qed.

(** The answer [Y] is not [y], and the destination is overwritten. *)
Lemma capital_answer_overwrites :
  let a := {| projectName := "Foo"; projectDescription := "demo";
              architecture := "monolith"; framework := "Express";
              language := "TypeScript"; overwrite := "Y" |} in
  let st := {| size := 2; mtime := "2024-01-01T00:00:00.000Z" |} in
  let project := [ ("memory-bank", Dir [("keep.md", File "hi" st)]);
                   ("memory-bank-template", Dir [("context", Dir [])]) ] in
  let run := initMemoryBank a "2024-01-02" "2024-01-02T00:00:00.000Z"
                            parseSample project in
  run_error run = None /\
  exists target, lookup "memory-bank" (run_fs run) = Some (Dir target) /\
                 lookup "keep.md" target = None.
Proof. split; [reflexivity |]. eexists. split; reflexivity. Qed.

(** ** The scaffolder: the placeholder of the project name *)

Lemma prefix_cons (a b : ascii) (t s : string) :
  prefix (String a t) (String b s) = Ascii.eqb a b && prefix t s.
Proof.
  cbn [prefix]. destruct (ascii_dec a b) as [-> | Hne].
  - now rewrite Ascii.eqb_refl.
  - apply Ascii.eqb_neq in Hne. now rewrite Hne.
Qed.

Lemma prefix_empty (s : string) : prefix EmptyString s = true.
Proof. destruct s; reflexivity. Qed.

Lemma isSyntaxCharacter_backslash (c : ascii) :
  isSyntaxCharacter c = false -> Ascii.eqb c "\" = false.
Proof.
  intros H. destruct (Ascii.eqb c "\") eqn:E; [| reflexivity].
  apply Ascii.eqb_eq in E. subst c. discriminate.
Qed.

(** The pattern that [escapeRegExp] builds matches the placeholder and
    nothing else. *)
Lemma literalOfPattern_escapeRegExp (s : string) :
  literalOfPattern (escapeRegExp s) = Some s.
Proof.
  induction s as [| c s IH]; [reflexivity |].
  cbn [escapeRegExp]. destruct (isSyntaxCharacter c) eqn:E.
  - cbn [literalOfPattern]. rewrite Ascii.eqb_refl, E, IH. reflexivity.
  - cbn [literalOfPattern].
    rewrite (isSyntaxCharacter_backslash c E), E, IH. reflexivity.
Qed.

Lemma replaceFrom_plain (pat value : string) :
  (forall matched before after,
      substitution value matched before after = value) ->
  forall s skip before,
    replaceFrom pat value skip before s = replacePlain pat value skip s.
Proof.
  intros Hv. induction s as [| c s IH]; intros skip before; [reflexivity |].
  cbn [replaceFrom replacePlain]. destruct skip as [| k].
  - destruct (prefix pat (String c s)); now rewrite ?Hv, IH.
  - apply IH.
Qed.

Lemma replaceLiteral_Foo (s : string) :
  replaceLiteral projectNameToken "Foo" s =
  replacePlain projectNameToken "Foo" 0 s.
Proof.
  change (replaceLiteral projectNameToken "Foo" s)
    with (replaceFrom projectNameToken "Foo" 0 EmptyString s).
  apply replaceFrom_plain. reflexivity.
Qed.

(** A word without [F] at the head of the output was at the head of the
    input: it cannot come from an inserted [Foo]. *)
Lemma prefix_through_replace (u : string) :
  forall s,
    withoutF u = true ->
    prefix u (replacePlain projectNameToken "Foo" 0 s) = true ->
    prefix u s = true.
Proof.
  induction u as [| c u IH]; intros s Hu H; [apply prefix_empty |].
  apply andb_true_iff in Hu. destruct Hu as [Hc Hu].
  destruct s as [| d s]; [discriminate |].
  cbn [replacePlain] in H.
  destruct (prefix projectNameToken (String d s)) eqn:E.
  - cbn [append] in H. rewrite prefix_cons in H.
    unfold notF in Hc. apply negb_true_iff in Hc. rewrite Hc in H. discriminate.
  - rewrite prefix_cons in H. apply andb_true_iff in H. destruct H as [Hcd H].
    rewrite prefix_cons, Hcd. now apply IH.
Qed.

Lemma replace_head_not_token (s : string) :
  prefix projectNameToken (replacePlain projectNameToken "Foo" 0 s) = false.
Proof.
  destruct s as [| d s]; [reflexivity |].
  cbn [replacePlain].
  destruct (prefix projectNameToken (String d s)) eqn:E; [reflexivity |].
  destruct (prefix projectNameToken
              (String d (replacePlain projectNameToken "Foo" 0 s))) eqn:E2;
    [exfalso | reflexivity].
  unfold projectNameToken in E, E2. rewrite prefix_cons in E, E2.
  apply andb_true_iff in E2. destruct E2 as [Hd E2].
  apply prefix_through_replace in E2; [| reflexivity].
  rewrite Hd, E2 in E. discriminate.
Qed.

(** After the replacement by [Foo] the placeholder occurs nowhere. *)
Lemma replacePlain_no_token (s : string) :
  forall skip,
    includes (replacePlain projectNameToken "Foo" skip s) projectNameToken
    = false.
Proof.
  induction s as [| c s IH]; intros skip; [reflexivity |].
  destruct skip as [| k]; [| apply IH].
  pose proof (replace_head_not_token (String c s)) as Hhead.
  cbn [replacePlain] in *.
  destruct (prefix projectNameToken (String c s)) eqn:E.
  - cbn [append includes]. rewrite IH. reflexivity.
  - cbn [includes]. now rewrite Hhead, IH.
Qed.

Lemma replaceLiteral_no_token (s : string) :
  includes (replaceLiteral projectNameToken "Foo" s) projectNameToken = false.
Proof. rewrite replaceLiteral_Foo. apply replacePlain_no_token. Qed.

Lemma replacePlain_skip (pat value : string) (s : string) :
  forall k, replacePlain pat value k s = replacePlain pat value 0 (drop k s).
Proof.
  induction s as [| c s IH]; intros [| k]; try reflexivity.
  cbn [replacePlain drop]. apply IH.
Qed.

Lemma drop_append (t s : string) : drop (String.length t) (t ++ s) = s.
Proof. induction t as [| c t IH]; [now destruct s | exact IH]. Qed.

Lemma length_append (t s : string) :
  String.length (t ++ s) = String.length t + String.length s.
Proof. induction t as [| c t IH]; simpl; [reflexivity | now rewrite IH]. Qed.

(** The replacement by [Foo] replaces every occurrence that the scan
    from the left meets and keeps the rest. *)
Lemma replacePlain_substituted (n : nat) :
  forall s, String.length s <= n ->
            substituted s (replacePlain projectNameToken "Foo" 0 s).
Proof.
  induction n as [| n IH]; intros s Hlen.
  - destruct s; [constructor | simpl in Hlen; lia].
  - destruct s as [| c s]; [constructor |].
    cbn [replacePlain].
    destruct (prefix projectNameToken (String c s)) eqn:E.
    + pose proof E as E'. apply prefix_app in E'. destruct E' as [post Hpost].
      rewrite replacePlain_skip.
      assert (Hdrop : drop (String.length projectNameToken - 1) s = post).
      { change (drop (String.length projectNameToken - 1) s)
          with (drop (String.length projectNameToken) (String c s)).
        rewrite Hpost. apply drop_append. }
      rewrite Hdrop, Hpost. constructor. apply IH.
      apply (f_equal String.length) in Hpost. rewrite length_append in Hpost.
      simpl in Hpost, Hlen. lia.
    + constructor; [exact E |]. apply IH. simpl in Hlen. lia.
Qed.

Lemma replaceLiteral_substituted (s : string) :
  substituted s (replaceLiteral projectNameToken "Foo" s).
Proof.
  rewrite replaceLiteral_Foo.
  apply (replacePlain_substituted (String.length s)). lia.
Qed.

(** The first of the configured replacements is the project name. *)
Lemma applyReplacements_project_name (a : Answers) (date content : string) :
  applyReplacements (replacements a date) content =
  applyReplacements (tl (replacements a date))
                    (replaceLiteral projectNameToken (projectName a) content).
Proof. reflexivity. Qed.

(** A pattern that does not occur is not replaced. *)
Lemma replaceFrom_absent (pat value : string) (s : string) :
  forall before,
    includes s pat = false -> replaceFrom pat value 0 before s = s.
Proof.
  induction s as [| c s IH]; intros before H; [reflexivity |].
  cbn [includes] in H. apply orb_false_iff in H. destruct H as [Hp Hs].
  cbn [replaceFrom]. rewrite Hp. f_equal. now apply IH.
Qed.

Lemma replaceLiteral_absent (pat value s : string) :
  includes s pat = false -> replaceLiteral pat value s = s.
Proof.
  intros H. unfold replaceLiteral. destruct pat as [| a pat].
  - destruct s; discriminate H.
  - cbn [isEmpty]. now apply replaceFrom_absent.
Qed.

Lemma applyReplacements_absent (reps : list (string * string)) (s : string) :
  (forall p v, In (p, v) reps -> includes s p = false) ->
  applyReplacements reps s = s.
Proof.
  unfold applyReplacements. induction reps as [| [p v] reps IH]; intros H;
    [reflexivity |].
  cbn [fold_left fst snd]. unfold replaceAll.
  rewrite literalOfPattern_escapeRegExp.
  rewrite replaceLiteral_absent by (apply (H p v); now left).
  apply IH. intros p' v' Hin. apply (H p' v'). now right.
Qed.

(** ** The scaffolder: the destination tree *)

Lemma nodeAt_copyDirectory (time : string) (segs : list string) :
  forall n content st,
    nodeAt n segs (File content st) ->
    nodeAt (copyDirectory time n) segs
           (File content {| size := size st; mtime := time |}).
Proof.
  induction segs as [| name rest IH]; intros n content st Hat.
  - simpl in Hat. subst n. reflexivity.
  - destruct n as [c0 s0 | es]; [contradiction |].
    destruct Hat as [child [Hin Hat]].
    exists (copyDirectory time child). split; [| now apply IH].
    apply (in_map (fun e : string * node => (fst e, copyDirectory time (snd e)))
                  es (name, child) Hin).
Qed.

Lemma nodeAt_replaceInDirectory (time : string)
  (reps : list (string * string)) (segs : list string) :
  forall es content st,
    nodeAt (Dir es) segs (File content st) ->
    exists st',
      nodeAt (replaceInDirectory time reps (Dir es)) segs
             (File (if isTextFile (last segs EmptyString)
                    then applyReplacements reps content
                    else content) st').
Proof.
  induction segs as [| name rest IH]; intros es content st Hat;
    [discriminate |].
  destruct Hat as [child [Hin Hat]].
  pose proof (in_map
                (fun e : string * node =>
                   let (file, child) := e in
                   (file,
                    match child with
                    | Dir _ => replaceInDirectory time reps child
                    | File content st =>
                        if isTextFile file then
                          let content' := applyReplacements reps content in
                          File content' {| size := byteLength content';
                                           mtime := time |}
                        else child
                    end))
                es (name, child) Hin) as Hmap.
  cbv beta iota in Hmap.
  destruct rest as [| d rest].
  - simpl in Hat. subst child. cbn [last].
    destruct (isTextFile name); eexists; eexists; (split; [exact Hmap |]);
      reflexivity.
  - destruct child as [c0 s0 | sub]; [contradiction |].
    destruct (IH sub content st Hat) as [st' Hsub].
    exists st'. eexists. split; [exact Hmap | exact Hsub].
Qed.

Lemma In_writeFile (name content time : string) (es es' : list (string * node))
  (k : string) (n : node) :
  writeFile name content time es = ok es' ->
  In (k, n) es -> k <> name \/ isDirectory n = true ->
  In (k, n) es'.
Proof.
  revert es'. induction es as [| [k0 n0] es IH]; intros es' Hw Hin Hother;
    [contradiction |].
  cbn [writeFile] in Hw. destruct (String.eqb_spec k0 name) as [-> | Hne].
  - destruct n0 as [c0 s0 | sub]; [| discriminate].
    injection Hw as <-. destruct Hin as [[= <- <-] | Hin]; [| now right].
    destruct Hother as [H | H]; [congruence | discriminate].
  - unfold bind in Hw.
    destruct (writeFile name content time es) as [e | rest']; [discriminate |].
    injection Hw as <-. destruct Hin as [Heq | Hin]; [now left | right].
    now apply (IH rest').
Qed.

Lemma In_replaceEntry (name : string) (n' : node) (es : list (string * node))
  (k : string) (n : node) :
  In (k, n) es ->
  In (k, n) (replaceEntry name n' es) \/ (k = name /\ lookup name es = Some n).
Proof.
  induction es as [| [k0 n0] es IH]; [contradiction |].
  cbn [replaceEntry lookup]. intros [[= -> ->] | Hin].
  - destruct (String.eqb_spec k name) as [-> | Hne]; [now right | left; now left].
  - destruct (String.eqb_spec k0 name) as [-> | Hne]; [left; now right |].
    destruct (IH Hin) as [H | H]; [left; now right | now right].
Qed.

Lemma In_replaceEntry_new (name : string) (n' n0 : node)
  (es : list (string * node)) :
  lookup name es = Some n0 -> In (name, n') (replaceEntry name n' es).
Proof.
  induction es as [| [k c] es IH]; [discriminate |].
  cbn [replaceEntry lookup]. destruct (String.eqb_spec k name) as [-> | Hne].
  - intros _. now left.
  - intros H. right. now apply IH.
Qed.

(** Writing [context/active.md] keeps every other file. *)
Lemma nodeAt_write_active (content' time : string)
  (es context context' : list (string * node)) (segs : list string)
  (content : string) (st : Stats) :
  lookup "context" es = Some (Dir context) ->
  writeFile "active.md" content' time context = ok context' ->
  nodeAt (Dir es) segs (File content st) ->
  segs <> ["context"; "active.md"] ->
  nodeAt (Dir (replaceEntry "context" (Dir context') es)) segs
         (File content st).
Proof.
  intros Hctx Hw Hat Hne.
  destruct segs as [| name rest]; [discriminate |].
  destruct Hat as [child [Hin Hat]].
  destruct (In_replaceEntry "context" (Dir context') es name child Hin)
    as [Hkeep | [-> Hfirst]].
  - exists child. auto.
  - rewrite Hctx in Hfirst. injection Hfirst as <-.
    exists (Dir context'). split; [eapply In_replaceEntry_new; eauto |].
    destruct rest as [| f rest]; [discriminate |].
    destruct Hat as [c [Hc Hat]]. exists c. split; [| exact Hat].
    apply (In_writeFile _ _ _ _ _ _ _ Hw Hc).
    destruct (String.eqb_spec f "active.md") as [-> | Hf]; [right | now left].
    destruct rest as [| d rest]; [congruence |].
    destruct c; [contradiction | reflexivity].
Qed.

Lemma lookup_app_found (name : string) (es more : list (string * node))
  (n : node) :
  lookup name es = Some n -> lookup name (es ++ more) = Some n.
Proof.
  induction es as [| [k c] es IH]; simpl; [discriminate |].
  destruct (String.eqb k name); auto.
Qed.

Lemma lookup_removeEntry_app (name : string) (es : list (string * node))
  (n : node) :
  lookup name (removeEntry name es ++ [(name, n)]) = Some n.
Proof.
  induction es as [| [k c] es IH]; simpl.
  - now rewrite String.eqb_refl.
  - destruct (String.eqb k name) eqn:E; simpl; [exact IH |].
    now rewrite E.
Qed.

Lemma lookup_writeFile_other (name content time : string)
  (es es' : list (string * node)) (k : string) :
  writeFile name content time es = ok es' -> k <> name ->
  lookup k es' = lookup k es.
Proof.
  revert es'. induction es as [| [k0 n0] es IH]; intros es' Hw Hne.
  - injection Hw as <-. simpl.
    destruct (String.eqb_spec name k); [congruence | reflexivity].
  - cbn [writeFile] in Hw. destruct (String.eqb_spec k0 name) as [-> | Hk].
    + destruct n0 as [c0 s0 | sub]; [| discriminate].
      injection Hw as <-. simpl.
      destruct (String.eqb_spec name k); [congruence | reflexivity].
    + unfold bind in Hw.
      destruct (writeFile name content time es) as [e | rest']; [discriminate |].
      injection Hw as <-. simpl. destruct (String.eqb k0 k); [reflexivity |].
      now apply IH.
Qed.

Lemma lookup_replaceEntry_other (name : string) (n : node)
  (es : list (string * node)) (k : string) :
  k <> name -> lookup k (replaceEntry name n es) = lookup k es.
Proof.
  intros Hne. induction es as [| [k0 n0] es IH]; [reflexivity |].
  cbn [replaceEntry]. destruct (String.eqb_spec k0 name) as [-> | Hk]; simpl.
  - destruct (String.eqb_spec name k); [congruence | reflexivity].
  - destruct (String.eqb k0 k); [reflexivity | exact IH].
Qed.

(** The last steps of the script leave the destination as it is. *)
Lemma finishProject_keeps_destination (time : string)
  (parse : string -> option value)
  (project fs : list (string * node)) (n : node) :
  finishProject time parse project = (fs, None) ->
  lookup "memory-bank" project = Some n ->
  lookup "memory-bank" fs = Some n.
Proof.
  unfold finishProject. intros H Hmb.
  set (packaged :=
         match lookup "package.json" project with
         | None => (project, None)
         | Some (Dir _) => (project, Some (EISDIR "package.json"))
         | Some (File content _) =>
             match updatePackageJson parse content with
             | inl e => (project, Some e)
             | inr content' =>
                 match writeFile "package.json" content' time project with
                 | inl e => (project, Some e)
                 | inr project' => (project', None)
                 end
             end
         end) in *.
  assert (Hp : forall p1, packaged = (p1, None) ->
                          lookup "memory-bank" p1 = Some n).
  { subst packaged. intros p1.
    destruct (lookup "package.json" project) as [[c0 s0 | sub] |].
    - destruct (updatePackageJson parse c0) as [e0 | c1]; [discriminate |].
      destruct (writeFile "package.json" c1 time project) as [e | p'] eqn:Ew;
        [discriminate |].
      intros [= <-].
      rewrite (lookup_writeFile_other _ _ _ _ _ _ Ew); [exact Hmb | discriminate].
    - discriminate.
    - now intros [= <-]. }
  destruct packaged as [p1 [e |]]; [discriminate |].
  specialize (Hp p1 eq_refl).
  set (p2 := match lookup "scripts" p1 with
             | None => p1 ++ [("scripts", Dir [])]
             | Some _ => p1
             end) in *.
  assert (Hp2 : lookup "memory-bank" p2 = Some n).
  { subst p2. destruct (lookup "scripts" p1); [exact Hp |].
    now apply lookup_app_found. }
  destruct (lookup "scripts" p2) as [[c0 s0 | scripts] |]; try discriminate.
  destruct (writeBytes "memory-search.js" searchScript time scripts);
    [discriminate |].
  injection H as <-.
  rewrite lookup_replaceEntry_other; [exact Hp2 | discriminate].
Qed.

(** C6 (as amended): after a complete run of the scaffolder with the
    project name [Foo], every file of the template other than
    [context/active.md] is in the destination at the same path.  A file
    whose name ends in [.md] or [.json] holds the template text in
    which every occurrence of [[PROJECT_NAME]] is replaced by exactly
    [Foo], a text without the placeholder, to which the nine later
    substitutions are then applied in order; they change nothing when
    none of their placeholders occurs in it.  A file with another name
    is copied unchanged. *)
Theorem scaffold_replaces_project_name_in_text_files
  (a : Answers) (date time : string)
  (parse : string -> option value)
  (project template : list (string * node)) :
  projectName a = "Foo" ->
  lookup "memory-bank-template" project = Some (Dir template) ->
  lookup "memory-bank" project = None \/ toLowerCase (overwrite a) = "y" ->
  run_error (initMemoryBank a date time parse project) = None ->
  exists target,
    lookup "memory-bank"
           (run_fs (initMemoryBank a date time parse project))
    = Some (Dir target) /\
    forall segs content st,
      nodeAt (Dir template) segs (File content st) ->
      segs <> ["context"; "active.md"] ->
      let replaced := replaceLiteral projectNameToken "Foo" content in
      substituted content replaced /\
      includes replaced projectNameToken = false /\
      ((forall p v, In (p, v) (tl (replacements a date)) ->
                    includes replaced p = false) ->
       applyReplacements (tl (replacements a date)) replaced = replaced) /\
      exists st',
        nodeAt (Dir target) segs
               (File (if isTextFile (last segs EmptyString)
                      then applyReplacements (tl (replacements a date)) replaced
                      else content) st').
Proof.
  intros Hname Htemplate Hgo. unfold initMemoryBank.
  assert (Hproceed :
            (match lookup "memory-bank" project with
             | Some _ => true
             | None => false
             end && negb (String.eqb (toLowerCase (overwrite a)) "y")) = false).
  { destruct Hgo as [-> | ->]; [reflexivity | apply andb_false_r]. }
  rewrite Hproceed, Htemplate.
  destruct (buildTarget a date time template) as [target [e |]] eqn:Ebuild;
    [discriminate |].
  destruct (finishProject time parse
              (removeEntry "memory-bank" project ++ [("memory-bank", Dir target)]))
    as [fs [e |]] eqn:Efinish; [discriminate |].
  intros _. cbn [run_fs]. exists target. split.
  - eapply finishProject_keeps_destination; [exact Efinish |].
    apply lookup_removeEntry_app.
  - intros segs content st Hat Hne. cbv zeta.
    split; [apply replaceLiteral_substituted |].
    split; [apply replaceLiteral_no_token |].
    split; [apply applyReplacements_absent |].
    unfold buildTarget in Ebuild.
    apply (nodeAt_copyDirectory time) in Hat.
    change (copyDirectory time (Dir template))
      with (Dir (map (fun e : string * node =>
                        (fst e, copyDirectory time (snd e))) template))
      in Ebuild, Hat.
    apply (nodeAt_replaceInDirectory time (replacements a date)) in Hat.
    destruct Hat as [st' Hat].
    destruct (replaceInDirectory time (replacements a date)
                (Dir (map (fun e : string * node =>
                             (fst e, copyDirectory time (snd e))) template)))
      as [c0 s0 | replaced] eqn:Ereplaced; [discriminate |].
    cbn [entriesOf] in Ebuild.
    destruct (lookup "context" replaced) as [[c0 s0 | context] |] eqn:Ectx;
      try discriminate.
    destruct (writeFile "active.md" (activeContext a date) time context)
      as [e | context'] eqn:Ewrite; [discriminate |].
    injection Ebuild as <-.
    exists st'.
    rewrite applyReplacements_project_name, Hname in Hat.
    eapply nodeAt_write_active; eauto.
Qed.

Lemma scaffold_replaces_project_name_in_text_files_witness :
  let project := [("memory-bank-template", Dir sampleTemplate)] in
  let run := initMemoryBank sampleAnswers "2024-01-02"
                            "2024-01-02T00:00:00.000Z"
                            parseSample project in
  exists target,
    lookup "memory-bank" (run_fs run) = Some (Dir target) /\
    forall segs content st,
      nodeAt (Dir sampleTemplate) segs (File content st) ->
      segs <> ["context"; "active.md"] ->
      let replaced := replaceLiteral projectNameToken "Foo" content in
      substituted content replaced /\
      includes replaced projectNameToken = false /\
      ((forall p v,
           In (p, v) (tl (replacements sampleAnswers "2024-01-02")) ->
           includes replaced p = false) ->
       applyReplacements (tl (replacements sampleAnswers "2024-01-02")) replaced
       = replaced) /\
      exists st',
        nodeAt (Dir target) segs
               (File (if isTextFile (last segs EmptyString)
                      then applyReplacements
                             (tl (replacements sampleAnswers "2024-01-02"))
                             replaced
                      else content) st').
Proof.
  intros project run.
  apply (scaffold_replaces_project_name_in_text_files
           sampleAnswers "2024-01-02" "2024-01-02T00:00:00.000Z"
           parseSample project sampleTemplate).
  - reflexivity.
  - reflexivity.
  - left. reflexivity.
  - reflexivity.
Defined.

(** C6, counterexample: the template has the file [notes.txt] with the
    placeholder; the run with the project name [Foo] completes and the
    destination holds [notes.txt] with the placeholder still in it. *)
Lemma scaffold_keeps_placeholder_in_other_files :
  let project := [("memory-bank-template", Dir sampleTemplate)] in
  let run := initMemoryBank sampleAnswers "2024-01-02"
                            "2024-01-02T00:00:00.000Z"
                            parseSample project in
  run_error run = None /\
  exists target content st,
    lookup "memory-bank" (run_fs run) = Some (Dir target) /\
    lookup "notes.txt" target = Some (File content st) /\
    includes content "[PROJECT_NAME]" = true.
Proof.
  split; [reflexivity |].
  eexists. eexists. eexists.
  split; [reflexivity |]. split; reflexivity.
Qed.

(* ================================================================= *)
(** * Further properties of the tools *)

(** ** Browse: what is printed *)

Lemma browseDirectory_only (n : node) :
  forall indent line,
    In line (browseDirectory n indent) ->
    exists segs target,
      segs <> [] /\ nodeAt n segs target /\ browseLine indent segs target line.
Proof.
  induction n as [content st | es IH] using node_ind; intros indent line Hin;
    [contradiction |].
  cbn [browseDirectory] in Hin. apply in_flat_map in Hin.
  destruct Hin as [[file child] [He Hline]].
  rewrite Forall_forall in IH. specialize (IH _ He). simpl in IH.
  destruct child as [content st | sub].
  - destruct (endsWith file ".md") eqn:Emd; [| contradiction].
    destruct Hline as [<- | []].
    exists [file], (File content st). split; [discriminate |].
    split; [exists (File content st); split; [exact He | reflexivity] |].
    split; [exact Emd | reflexivity].
  - destruct Hline as [<- | Hline].
    + exists [file], (Dir sub). split; [discriminate |].
      split; [exists (Dir sub); split; [exact He | reflexivity] |].
      reflexivity.
    + destruct (IH _ _ Hline) as [segs [target [Hne [Hat Hl]]]].
      exists (file :: segs), target. split; [discriminate |].
      split; [exists (Dir sub); split; [exact He | exact Hat] |].
      destruct segs as [| d rest]; [congruence |].
      unfold browseLine in *.
      replace (List.length (file :: d :: rest) - 1)
        with (S (List.length (d :: rest) - 1)) by (simpl; lia).
      change (last (file :: d :: rest) EmptyString)
        with (last (d :: rest) EmptyString).
      exact Hl.
Qed.

Lemma entriesBelow_cons (file : string) (child : node)
  (es : list (string * node)) :
  entriesBelow (Dir ((file, child) :: es)) =
  ((([file], child)
    :: map (fun p : list string * node => (file :: fst p, snd p))
           (entriesBelow child))
   ++ entriesBelow (Dir es))%list.
Proof. reflexivity. Qed.

Lemma entriesBelow_head (es : list (string * node)) (p : list string * node) :
  In p (entriesBelow (Dir es)) ->
  exists name rest, fst p = name :: rest /\ In name (map fst es).
Proof.
  induction es as [| [file child] es IH]; [contradiction |].
  rewrite entriesBelow_cons. intros H. apply in_app_or in H.
  destruct H as [[<- | H] | H].
  - exists file, []. split; [reflexivity | now left].
  - apply in_map_iff in H. destruct H as [q [<- _]].
    exists file, (fst q). split; [reflexivity | now left].
  - destruct (IH H) as [name [rest [Hp Hin]]].
    exists name, rest. split; [exact Hp | now right].
Qed.

Lemma entriesBelow_nonempty (n : node) (p : list string * node) :
  In p (entriesBelow n) -> fst p <> [].
Proof.
  destruct n as [content st | es]; [contradiction |].
  intros H. destruct (entriesBelow_head es p H) as [name [rest [-> _]]].
  discriminate.
Qed.

Lemma entriesBelow_nodeAt (n : node) :
  forall segs target,
    In (segs, target) (entriesBelow n) -> nodeAt n segs target.
Proof.
  induction n as [content st | es IH] using node_ind; intros segs target H;
    [contradiction |].
  induction es as [| [file child] es IHes]; [contradiction |].
  inversion IH as [| e es' IHchild IHtail]; subst. simpl in IHchild.
  rewrite entriesBelow_cons in H. apply in_app_or in H.
  destruct H as [[H | H] | H].
  - injection H as <- <-. exists child. split; [now left | reflexivity].
  - apply in_map_iff in H. destruct H as [[rest t] [Heq Hin]].
    simpl in Heq. injection Heq as <- <-.
    exists child. split; [now left | now apply IHchild].
  - destruct (entriesBelow_head es _ H) as [name [rest [Hfst _]]].
    simpl in Hfst. subst segs.
    destruct (IHes IHtail H) as [c [Hin Hat]].
    exists c. split; [now right | exact Hat].
Qed.

Lemma nodeAt_entriesBelow (segs : list string) :
  forall n target,
    segs <> [] -> nodeAt n segs target -> In (segs, target) (entriesBelow n).
Proof.
  induction segs as [| name rest IH]; intros n target Hne Hat; [congruence |].
  destruct n as [content st | es]; [contradiction |].
  destruct Hat as [child [Hin Hat]].
  induction es as [| [file c] es IHes]; [contradiction |].
  rewrite entriesBelow_cons. apply in_or_app.
  destruct Hin as [Heq | Hin]; [| right; now apply IHes].
  injection Heq as -> ->. left.
  destruct rest as [| d rest].
  - simpl in Hat. subst target. now left.
  - right. apply in_map_iff. exists (d :: rest, target).
    split; [reflexivity |]. apply IH; [discriminate | exact Hat].
Qed.

Lemma NoDup_map_cons (x : string) (l : list (list string)) :
  NoDup l -> NoDup (map (cons x) l).
Proof.
  induction 1 as [| y l Hnin Hnd IH]; cbn [map]; constructor; [| exact IH].
  intros Hin. apply in_map_iff in Hin. destruct Hin as [z [Heq Hz]].
  injection Heq as ->. contradiction.
Qed.

Lemma entriesBelow_NoDup (n : node) :
  wellFormed n = true -> NoDup (map fst (entriesBelow n)).
Proof.
  induction n as [content st | es IH] using node_ind; intros Hwf;
    [constructor |].
  induction es as [| [file child] es IHes]; [constructor |].
  inversion IH as [| e es' IHchild IHtail]; subst. simpl in IHchild.
  apply wellFormed_cons in Hwf. destruct Hwf as [_ [Hchild [Hnin Hes]]].
  rewrite entriesBelow_cons, map_app. cbn [map fst].
  rewrite map_map. cbn [fst].
  rewrite <- (map_map fst (cons file)).
  apply NoDup_app.
  - constructor.
    + intros Hin. apply in_map_iff in Hin. destruct Hin as [q [Heq Hq]].
      injection Heq as ->.
      apply in_map_iff in Hq. destruct Hq as [p [Hp Hin]].
      apply (entriesBelow_nonempty child p Hin). exact Hp.
    + apply NoDup_map_cons. now apply IHchild.
  - now apply IHes.
  - intros path Hhead Htail.
    apply in_map_iff in Htail. destruct Htail as [p [Hp Hin]].
    destruct (entriesBelow_head es p Hin) as [name [rest [Hfst Hname]]].
    assert (Hstart : exists r, path = file :: r).
    { destruct Hhead as [<- | Hhead]; [now exists [] |].
      apply in_map_iff in Hhead. destruct Hhead as [q [<- _]]. now exists q. }
    destruct Hstart as [r ->]. rewrite Hfst in Hp. injection Hp as -> _.
    contradiction.
Qed.

Lemma browse_under (file indent : string) (l : list (list string * node)) :
  (forall p, In p l -> fst p <> []) ->
  map (browsePrinted indent)
      (filter browsePrints
              (map (fun p : list string * node => (file :: fst p, snd p)) l))
  = map (browsePrinted (indent ++ "  ")) (filter browsePrints l).
Proof.
  induction l as [| [segs t] l IH]; intros Hne; [reflexivity |].
  assert (Hsegs : segs <> []) by (apply (Hne (segs, t)); now left).
  assert (Hl : forall p, In p l -> fst p <> [])
    by (intros p Hp; apply Hne; now right).
  destruct segs as [| s segs]; [congruence |].
  cbn [map filter fst snd].
  assert (Hprints : browsePrints (file :: s :: segs, t)
                    = browsePrints (s :: segs, t)) by reflexivity.
  assert (Hprinted : browsePrinted indent (file :: s :: segs, t)
                     = browsePrinted (indent ++ "  ") (s :: segs, t)).
  { unfold browsePrinted. cbn [fst snd List.length].
    replace (S (S (List.length segs)) - 1) with (S (List.length segs)) by lia.
    replace (S (List.length segs) - 1) with (List.length segs) by lia.
    reflexivity. }
  rewrite Hprints. destruct (browsePrints (s :: segs, t)); cbn [map].
  - now rewrite Hprinted, (IH Hl).
  - exact (IH Hl).
Qed.

Lemma browseDirectory_entries (n : node) :
  forall indent,
    browseDirectory n indent
    = map (browsePrinted indent) (filter browsePrints (entriesBelow n)).
Proof.
  induction n as [content st | es IH] using node_ind; intros indent;
    [reflexivity |].
  induction es as [| [file child] es IHes]; [reflexivity |].
  inversion IH as [| e es' IHchild IHtail]; subst. simpl in IHchild.
  specialize (IHes IHtail).
  change (browseDirectory (Dir ((file, child) :: es)) indent)
    with ((match child with
           | Dir _ =>
               (indent ++ "📁 " ++ file ++ "/")%string
               :: browseDirectory child (indent ++ "  ")
           | File _ _ =>
               if endsWith file ".md"
               then [(indent ++ "📄 " ++ file)%string]
               else []
           end) ++ browseDirectory (Dir es) indent).
  rewrite entriesBelow_cons, filter_app, map_app, <- IHes. f_equal.
  destruct child as [content st | sub].
  - cbn [entriesBelow map filter]. unfold browsePrints. cbn [fst snd last].
    destruct (endsWith file ".md"); reflexivity.
  - cbn [filter]. unfold browsePrints at 1. cbn [snd map].
    rewrite browse_under by (apply entriesBelow_nonempty).
    now rewrite <- IHchild.
Qed.

(** X1: the browse tool prints one line for each entry below the
    directory that is a directory or has a name ending in [.md], and
    no other line: the lines are those of the entries below, taken in
    the order of the listings with a directory before what it holds,
    each indented by two spaces for every directory above it.  The
    entries below are the nodes at the non-empty paths, and in a
    well-formed tree no path comes twice. *)
Theorem browse_prints_exactly_directories_and_markdown
  (n : node) (indent : string) :
  browseDirectory n indent
  = map (browsePrinted indent) (filter browsePrints (entriesBelow n)) /\
  (forall segs target,
     In (segs, target) (entriesBelow n) <->
     segs <> [] /\ nodeAt n segs target) /\
  (wellFormed n = true -> NoDup (map fst (entriesBelow n))).
Proof.
  split; [apply browseDirectory_entries |].
  split; [| apply entriesBelow_NoDup].
  intros segs target. split.
  - intros H. split.
    + exact (entriesBelow_nonempty n (segs, target) H).
    + now apply entriesBelow_nodeAt.
  - intros [Hne Hat]. now apply nodeAt_entriesBelow.
Qed.

Lemma countFiles_fold (es : list (string * node)) :
  forall count,
    fold_left
      (fun (count : nat) (e : string * node) =>
         let (file, child) := e in
         match child with
         | Dir _ => count + countFiles child
         | File _ _ => if endsWith file ".md" then count + 1 else count
         end)
      es count
    = count + countFiles (Dir es).
Proof.
  change (countFiles (Dir es))
    with (fold_left
            (fun (count : nat) (e : string * node) =>
               let (file, child) := e in
               match child with
               | Dir _ => count + countFiles child
               | File _ _ => if endsWith file ".md" then count + 1 else count
               end)
            es 0).
  set (step := fun (count : nat) (e : string * node) =>
                 let (file, child) := e in
                 match child with
                 | Dir _ => count + countFiles child
                 | File _ _ => if endsWith file ".md" then count + 1 else count
                 end).
  induction es as [| e es IH]; intros count; cbn [fold_left]; [lia |].
  rewrite (IH (step count e)), (IH (step 0 e)).
  assert (Hstep : step count e = count + step 0 e).
  { subst step. destruct e as [file [content st | sub]]; cbv beta iota;
      [destruct (endsWith file ".md") |]; lia. }
  lia.
Qed.

Lemma countFiles_cons (file : string) (child : node) (es : list (string * node)) :
  countFiles (Dir ((file, child) :: es)) =
  match child with
  | Dir _ => countFiles child
  | File _ _ => if endsWith file ".md" then 1 else 0
  end + countFiles (Dir es).
Proof.
  change (countFiles (Dir ((file, child) :: es)))
    with (fold_left
            (fun (count : nat) (e : string * node) =>
               let (file, child) := e in
               match child with
               | Dir _ => count + countFiles child
               | File _ _ => if endsWith file ".md" then count + 1 else count
               end)
            es
            (match child with
             | Dir _ => 0 + countFiles child
             | File _ _ => if endsWith file ".md" then 0 + 1 else 0
             end)).
  rewrite countFiles_fold.
  destruct child; [destruct (endsWith file ".md") |]; lia.
Qed.

(** X2: the browse tool prints as many lines for a directory as there
    are Markdown files below it, counted by [countFiles] of the overview
    tool, plus directories below it. *)
Theorem browse_line_count (n : node) (indent : string) :
  List.length (browseDirectory n indent) = countFiles n + countDirectories n.
Proof.
  revert indent. induction n as [content st | es IH] using node_ind;
    intros indent; [reflexivity |].
  induction es as [| [file child] es IHes]; [reflexivity |].
  inversion IH as [| e es' IHchild IHtail]; subst. simpl in IHchild.
  specialize (IHes IHtail).
  rewrite countFiles_cons.
  change (browseDirectory (Dir ((file, child) :: es)) indent)
    with ((match child with
           | Dir _ =>
               (indent ++ "📁 " ++ file ++ "/")%string
               :: browseDirectory child (indent ++ "  ")
           | File _ _ =>
               if endsWith file ".md"
               then [(indent ++ "📄 " ++ file)%string]
               else []
           end) ++ browseDirectory (Dir es) indent).
  change (countDirectories (Dir ((file, child) :: es)))
    with (match child with
          | Dir _ => 1 + countDirectories child
          | File _ _ => 0
          end + countDirectories (Dir es)).
  rewrite length_app, IHes.
  destruct child as [content st | sub].
  - destruct (endsWith file ".md"); cbn [List.length]; lia.
  - cbn [List.length]. rewrite IHchild. lia.
Qed.

(** ** Search: order and case *)

Lemma searchLines_lines (file term : string) (lines : list string) :
  forall index,
    Forall (fun m => match_file m = file /\
                     index < match_line m <= index + List.length lines)
           (searchLines file term lines index) /\
    StronglySorted (fun a b => match_line a < match_line b)
                   (searchLines file term lines index).
Proof.
  induction lines as [| l lines IH]; intros index.
  - split; constructor.
  - cbn [searchLines List.length]. destruct (IH (S index)) as [Hall Hsorted].
    assert (Hall' : Forall (fun m => match_file m = file /\
                                     index < match_line m
                                     <= index + S (List.length lines))
                           (searchLines file term lines (S index))).
    { eapply Forall_impl; [| exact Hall]. simpl. intros m [Hf Hl]. split; [exact Hf | lia]. }
    destruct (includes (toLowerCase l) (toLowerCase term)); cbn [app].
    + split.
      * constructor; [simpl; split; [reflexivity | lia] | exact Hall'].
      * constructor; [exact Hsorted |].
        eapply Forall_impl; [| exact Hall]. simpl. intros m [_ Hl]. lia.
    + split; assumption.
Qed.

(** X3: the matches of one file come in increasing line order, carry
    the path of the file, and their line numbers lie between 1 and the
    number of lines of the content. *)
Theorem search_matches_in_line_order (file content term : string) :
  StronglySorted (fun a b => match_line a < match_line b)
                 (searchInFile file content term) /\
  Forall (fun m => match_file m = file /\
                   1 <= match_line m <= List.length (split LF content))
         (searchInFile file content term).
Proof.
  unfold searchInFile.
  destruct (searchLines_lines file term (split LF content) 0) as [Hall Hsorted].
  split; [exact Hsorted |].
  eapply Forall_impl; [| exact Hall]. simpl. intros m [Hf Hl]. split; [exact Hf | lia].
Qed.

Lemma toLowerCaseChar_idempotent (c : ascii) :
  toLowerCaseChar (toLowerCaseChar c) = toLowerCaseChar c.
Proof. destruct c as [[] [] [] [] [] [] [] []]; reflexivity. Qed.

Lemma toLowerCase_idempotent (s : string) :
  toLowerCase (toLowerCase s) = toLowerCase s.
Proof.
  induction s as [| c s IH]; [reflexivity |].
  cbn [toLowerCase]. now rewrite toLowerCaseChar_idempotent, IH.
Qed.

Lemma searchLines_lower (file term : string) (lines : list string) :
  forall index,
    searchLines file (toLowerCase term) lines index =
    searchLines file term lines index.
Proof.
  induction lines as [| l lines IH]; intros index; [reflexivity |].
  cbn [searchLines]. now rewrite toLowerCase_idempotent, IH.
Qed.

(** X4: the search does not depend on the case of the query: a query
    and its lower-case form return the same matches, in the same
    order. *)
Theorem search_ignores_case_of_query (n : node) (rel term : string) :
  searchDirectory n rel (toLowerCase term) = searchDirectory n rel term.
Proof.
  revert rel. induction n as [content st | es IH] using node_ind; intros rel;
    [reflexivity |].
  cbn [searchDirectory]. induction es as [| [file child] es IHes];
    [reflexivity |].
  inversion IH as [| e es' IHchild IHtail]; subst. simpl in IHchild.
  cbn [flat_map]. rewrite (IHes IHtail). f_equal.
  destruct child as [content st | sub].
  - destruct (endsWith file ".md"); [| reflexivity].
    unfold searchInFile. apply searchLines_lower.
  - destruct (startsWith file "."); [reflexivity | apply IHchild].
Qed.

(** ** The indexer: a hidden directory with a Markdown name *)

Lemma listedPath_cons (name : string) (rest : list string) (target : node) :
  rest <> [] ->
  listedPath (name :: rest) target =
  negb (startsWith name ".") && listedPath rest target.
Proof. destruct rest; [congruence | reflexivity]. Qed.

Lemma listedPath_File (segs : list string) (content : string) (st : Stats) :
  listedPath segs (File content st) = searchedPath segs.
Proof.
  induction segs as [| name [| d rest] IH]; [reflexivity | |].
  - cbn [listedPath searchedPath isFile orb]. apply andb_true_r.
  - rewrite listedPath_cons, searchedPath_cons by discriminate. now rewrite IH.
Qed.

Lemma indexDirectory_throws_on_listed_directory (segs : list string) :
  forall es sub dir category index,
    nodeAt (Dir es) segs (Dir sub) ->
    listedPath segs (Dir sub) = true ->
    exists e, indexDirectory (Dir es) dir category index = throw e.
Proof.
  induction segs as [| name rest IH]; intros es sub dir category index Hat Hp;
    [discriminate |].
  destruct Hat as [child [Hin Hat]].
  apply in_split in Hin. destruct Hin as [es1 [es2 ->]].
  rewrite indexDirectory_Dir, fold_left_app.
  destruct (fold_left (indexEntry dir category) es1 (ok index)) as [e | index1].
  - exists e. apply fold_indexEntry_throw.
  - cbn [fold_left].
    assert (Hstep : exists e,
               indexEntry dir category (inr index1) (name, child) = inl e).
    { unfold indexEntry, bind. destruct rest as [| d rest].
      - simpl in Hat. subst child. cbn [listedPath isFile orb] in Hp.
        apply andb_true_iff in Hp. destruct Hp as [Hmd Hhid].
        rewrite Hhid, Hmd. cbn [negb]. eexists. reflexivity.
      - destruct child as [c0 s0 | sub0]; [contradiction |].
        rewrite listedPath_cons in Hp by discriminate.
        apply andb_true_iff in Hp. destruct Hp as [Hvis Hp]. rewrite Hvis.
        exact (IH sub0 sub _ _ _ Hat Hp). }
    destruct Hstep as [e ->]. exists e. apply fold_indexEntry_throw.
Qed.

(** X5: when a hidden directory whose name ends in [.md] is reached
    through visible directories, the indexer throws (it reads the
    directory as a file); the run ends with exit code 1 and writes no
    index file: the project is as it was. *)
Theorem hidden_markdown_directory_stops_the_indexer
  (now written shown : string) (project es sub : list (string * node))
  (segs : list string) :
  lookup "memory-bank" project = Some (Dir es) ->
  nodeAt (Dir es) segs (Dir sub) ->
  listedPath segs (Dir sub) = true ->
  (exists e, indexDirectory (Dir es) EmptyString EmptyString (emptyIndex now)
             = throw e) /\
  run_error (memoryUpdate now written shown project) <> None /\
  run_exit (memoryUpdate now written shown project) = Some 1 /\
  run_fs (memoryUpdate now written shown project) = project.
Proof.
  intros Hroot Hat Hp.
  destruct (indexDirectory_throws_on_listed_directory
              segs es sub EmptyString EmptyString (emptyIndex now) Hat Hp)
    as [e He].
  split; [exists e; exact He |].
  unfold memoryUpdate. rewrite Hroot, He. unfold throw.
  repeat split. discriminate.
Qed.

Lemma hidden_markdown_directory_stops_the_indexer_witness :
  let st := {| size := 2; mtime := "2024-01-01T00:00:00.000Z" |} in
  let es := [ ("a.md", File "hi" st); (".old.md", Dir []) ] in
  let project := [("memory-bank", Dir es)] in
  let run := memoryUpdate "2024-01-02T00:00:00.000Z"
                          "2024-01-02T00:00:00.000Z" ".index.json" project in
  run_error run <> None /\ run_exit run = Some 1 /\ run_fs run = project.
Proof.
  intros st es project run.
  apply (hidden_markdown_directory_stops_the_indexer
           "2024-01-02T00:00:00.000Z" "2024-01-02T00:00:00.000Z" ".index.json"
           project es [] [".old.md"]).
  - reflexivity.
  - exists (Dir []). split; [right; left; reflexivity | reflexivity].
  - reflexivity.
Defined.

(** ** The overview tool and the index *)

Lemma getAllFiles_In (n : node) :
  forall dir p,
    In p (getAllFiles n dir) <->
    exists segs target,
      nodeAt n segs target /\ listedPath segs target = true /\
      p = fold_left joinPath segs dir.
Proof.
  induction n as [content st | es IH] using node_ind; intros dir p.
  - simpl. split; [tauto |].
    intros [[| name rest] [target [Hat [Hp _]]]]; simpl in *;
      [discriminate | contradiction].
  - cbn [getAllFiles]. rewrite in_flat_map. split.
    + intros [[item child] [Hin Hm]].
      rewrite Forall_forall in IH. specialize (IH _ Hin). simpl in IH.
      destruct child as [content st | sub].
      * destruct (endsWith item ".md") eqn:E; [| contradiction].
        destruct Hm as [<- | []].
        exists [item], (File content st). simpl. rewrite E.
        repeat split. exists (File content st). auto.
      * destruct (startsWith item ".") eqn:Eh; cbn [negb] in Hm.
        -- destruct (endsWith item ".md") eqn:E; [| contradiction].
           destruct Hm as [<- | []].
           exists [item], (Dir sub). simpl. rewrite E, Eh.
           repeat split. exists (Dir sub). auto.
        -- apply IH in Hm. destruct Hm as [segs [target [Hat [Hp ->]]]].
           exists (item :: segs), target.
           rewrite listedPath_cons by (intros ->; discriminate).
           rewrite Eh, Hp. repeat split. exists (Dir sub). auto.
    + intros [[| name rest] [target [Hat [Hp ->]]]]; [discriminate |].
      destruct Hat as [child [Hin Hat]].
      exists (name, child). split; [exact Hin |].
      rewrite Forall_forall in IH. specialize (IH _ Hin). simpl in IH.
      destruct rest as [| d rest].
      * simpl in Hat. subst child. cbn [listedPath] in Hp.
        apply andb_true_iff in Hp. destruct Hp as [Hmd Hk]. rewrite Hmd.
        destruct target as [c0 s0 | sub]; [now left |].
        cbn [isFile orb] in Hk. rewrite Hk. now left.
      * destruct child as [c0 s0 | sub]; [contradiction |].
        rewrite listedPath_cons in Hp by discriminate.
        apply andb_true_iff in Hp. destruct Hp as [Hv Hp]. rewrite Hv.
        apply IH. exists (d :: rest), target. auto.
Qed.

Lemma objGet_keys {A : Type} (k : string) (o : obj A) :
  In k (map fst o) <-> exists v, objGet k o = Some v.
Proof.
  induction o as [| [k' v'] o IH]; simpl.
  - split; [tauto | intros [v H]; discriminate].
  - destruct (String.eqb_spec k' k) as [-> | Hne].
    + split; [eauto | auto].
    + rewrite IH. split; [intros [H | H]; [congruence | exact H] | auto].
Qed.

(** X6: when indexing a well-formed tree succeeds, the index has an
    entry for exactly the paths that [getAllFiles] of the overview
    tool lists. *)
Theorem index_has_the_files_of_the_overview
  (es : list (string * node)) (now : string) (index : Index) (k : string) :
  wellFormed (Dir es) = true ->
  indexDirectory (Dir es) EmptyString EmptyString (emptyIndex now) = ok index ->
  (In k (map fst (index_files index)) <->
   In k (getAllFiles (Dir es) EmptyString)).
Proof.
  intros Hwf Hrun. rewrite objGet_keys, getAllFiles_In.
  pose proof Hrun as Hrun'.
  change EmptyString with (relativePath []) in Hrun'.
  split.
  - intros [e He].
    destruct (files_keys _ _ _ _ Hrun' _ _ He)
      as [[e0 Hold] | [segs [c [s [Hat [Hp Hk]]]]]]; [discriminate |].
    exists segs, (File c s). rewrite listedPath_File. auto.
  - intros [segs [target [Hat [Hp ->]]]].
    destruct target as [c s | sub].
    + rewrite listedPath_File in Hp. eexists.
      exact (files_of_file _ _ _ _ Hrun' Hwf eq_refl segs c s Hat Hp).
    + destruct (indexDirectory_throws_on_listed_directory
                  segs es sub EmptyString EmptyString (emptyIndex now) Hat Hp)
        as [e He].
      rewrite He in Hrun. discriminate.
Qed.

Lemma index_has_the_files_of_the_overview_witness :
  exists index,
    indexDirectory (Dir nestedTree) EmptyString EmptyString
                   (emptyIndex "2024-01-02T00:00:00.000Z") = ok index /\
    (In "a/b/y.md" (map fst (index_files index)) <->
     In "a/b/y.md" (getAllFiles (Dir nestedTree) EmptyString)).
Proof.
  eexists. split; [reflexivity |].
  apply (index_has_the_files_of_the_overview
           nestedTree "2024-01-02T00:00:00.000Z"); reflexivity.
Defined.

(** X7: in the index of a well-formed tree, [files] maps exactly the
    relative path of every Markdown file that is reached through
    visible directories to an entry with the path of its directory as
    the category, the size and modification time of the file, and the
    title, tags and summary extracted from its content. *)
Theorem files_map_each_markdown_file_to_its_entry
  (es : list (string * node)) (now : string) (index : Index)
  (k : string) (e : Entry) :
  wellFormed (Dir es) = true ->
  indexDirectory (Dir es) EmptyString EmptyString (emptyIndex now) = ok index ->
  (objGet k (index_files index) = Some e <->
   exists segs content st,
     nodeAt (Dir es) segs (File content st) /\
     searchedPath segs = true /\
     k = relativePath segs /\
     e = entryOf (relativePath (removelast segs)) (last segs EmptyString)
                 content st).
Proof.
  intros Hwf Hrun. change EmptyString with (relativePath []) in Hrun.
  split.
  - intros He.
    destruct (files_keys _ _ _ _ Hrun _ _ He)
      as [[e0 Hold] | [segs [c [s [Hat [Hp Hk]]]]]]; [discriminate |].
    exists segs, c, s. repeat split; auto.
    pose proof (files_of_file _ _ _ _ Hrun Hwf eq_refl segs c s Hat Hp) as Hf.
    cbn [app] in Hf, Hk. rewrite <- Hk, He in Hf. now injection Hf.
  - intros [segs [c [s [Hat [Hp [-> ->]]]]]].
    exact (files_of_file _ _ _ _ Hrun Hwf eq_refl segs c s Hat Hp).
Qed.

Lemma files_map_each_markdown_file_to_its_entry_witness :
  let st := {| size := 2; mtime := "2024-01-01T00:00:00.000Z" |} in
  exists index,
    indexDirectory (Dir nestedTree) EmptyString EmptyString
                   (emptyIndex "2024-01-02T00:00:00.000Z") = ok index /\
    objGet "a/b/y.md" (index_files index) =
    Some (entryOf "a/b" "y.md" "yo" st).
Proof.
  intros st. eexists. split; [reflexivity |].
  apply (files_map_each_markdown_file_to_its_entry
           nestedTree "2024-01-02T00:00:00.000Z"); try reflexivity.
  exists ["a"; "b"; "y.md"], "yo", st. repeat split.
  eexists. split; [left; reflexivity |].
  eexists. split; [right; left; reflexivity |].
  eexists. split; [left; reflexivity | reflexivity].
Defined.

(** ** The tags of the index *)

Lemma indexTags_throw (p : string) (tags : list string) (e : error) :
  fold_left (fun acc tag => o' <- acc ;; indexTag p tag o') tags (inl e)
  = inl e.
Proof. induction tags as [| t tags IH]; [reflexivity | exact IH]. Qed.

Lemma indexTags_cons (p t : string) (tags : list string)
  (o o' : obj (list string)) :
  indexTags p (t :: tags) o = ok o' ->
  exists o1, indexTag p t o = ok o1 /\ indexTags p tags o1 = ok o'.
Proof.
  unfold indexTags. cbn [fold_left].
  change (o'0 <- ok o ;; indexTag p t o'0) with (indexTag p t o).
  destruct (indexTag p t o) as [e | o1].
  - rewrite (indexTags_throw p tags e). discriminate.
  - eauto.
Qed.

(** One tag: the path goes to the end of the list of the tag, which is
    created when the tag is new; an inherited name is never a key. *)
Lemma indexTag_ok (p t : string) (o o' : obj (list string)) :
  indexTag p t o = ok o' ->
  (exists l, objGet t o' = Some l /\ In p l) /\
  (forall k l0, objGet k o = Some l0 ->
                exists l, objGet k o' = Some l /\ incl l0 l) /\
  (forall k l x, objGet k o' = Some l -> In x l ->
                 (exists l0, objGet k o = Some l0 /\ In x l0) \/
                 (x = p /\ k = t)) /\
  ((forall k, inherited k = true -> objGet k o = None) ->
   inherited t = false /\
   (forall k, inherited k = true -> objGet k o' = None)).
Proof.
  unfold indexTag. intros H.
  assert (Hset : exists l1,
             o' = objSet t l1 o /\ In p l1 /\
             (forall l0, objGet t o = Some l0 -> incl l0 l1) /\
             (forall x, In x l1 ->
                        (exists l0, objGet t o = Some l0 /\ In x l0) \/ x = p) /\
             (objGet t o = None -> inherited t = false)).
  { destruct (objGet t o) as [l0 |] eqn:E.
    - injection H as <-. exists (l0 ++ [p]). split; [reflexivity |].
      split; [apply in_or_app; right; now left |].
      split; [intros l [= <-]; now apply incl_appl |].
      split; [| discriminate].
      intros x Hx. apply in_app_or in Hx. destruct Hx as [Hx | [<- | []]]; eauto.
    - destruct (inherited t) eqn:Ei; [discriminate |].
      injection H as <-. exists [p]. split; [reflexivity |].
      split; [now left |]. split; [discriminate |].
      split; [intros x [<- | []]; now right | reflexivity]. }
  destruct Hset as [l1 [-> [Hp [Hincl [Hfrom Hnew]]]]].
  split; [exists l1; split; [apply objGet_objSet_eq | exact Hp] |].
  split; [| split].
  - intros k l0 Hk. destruct (String.eqb_spec k t) as [-> | Hne].
    + exists l1. split; [apply objGet_objSet_eq | now apply Hincl].
    + exists l0. rewrite objGet_objSet_ne by assumption.
      split; [exact Hk | apply incl_refl].
  - intros k l x Hk Hx. destruct (String.eqb_spec k t) as [-> | Hne].
    + rewrite objGet_objSet_eq in Hk. injection Hk as <-.
      destruct (Hfrom x Hx) as [Hold | ->]; [now left | now right].
    + rewrite objGet_objSet_ne in Hk by assumption. left. eauto.
  - intros Hclean.
    assert (Ht : inherited t = false).
    { destruct (inherited t) eqn:Ei; [| reflexivity].
      pose proof (Hnew (Hclean t Ei)). congruence. }
    split; [exact Ht |].
    intros k Hk. rewrite objGet_objSet_ne; [now apply Hclean |].
    intros ->. congruence.
Qed.

Lemma indexTags_ok (p : string) (tags : list string) :
  forall o o',
    indexTags p tags o = ok o' ->
    (forall t, In t tags -> exists l, objGet t o' = Some l /\ In p l) /\
    (forall k l0, objGet k o = Some l0 ->
                  exists l, objGet k o' = Some l /\ incl l0 l) /\
    (forall k l x, objGet k o' = Some l -> In x l ->
                   (exists l0, objGet k o = Some l0 /\ In x l0) \/
                   (x = p /\ In k tags)) /\
    ((forall k, inherited k = true -> objGet k o = None) ->
     (forall t, In t tags -> inherited t = false) /\
     (forall k, inherited k = true -> objGet k o' = None)).
Proof.
  induction tags as [| t tags IH]; intros o o' H.
  - injection H as <-. repeat split; try contradiction; eauto using incl_refl.
  - apply indexTags_cons in H. destruct H as [o1 [H1 Hrest]].
    apply indexTag_ok in H1. destruct H1 as [Hown [Hmono [Hsound Hclean]]].
    destruct (IH _ _ Hrest) as [Hown' [Hmono' [Hsound' Hclean']]].
    split; [| split; [| split]].
    + intros t' [<- | Hin]; [| now apply Hown'].
      destruct Hown as [l [Hl Hp]].
      destruct (Hmono' _ _ Hl) as [l' [Hl' Hincl]]. eauto.
    + intros k l0 Hk. destruct (Hmono _ _ Hk) as [l1 [Hl1 Hi1]].
      destruct (Hmono' _ _ Hl1) as [l2 [Hl2 Hi2]].
      exists l2. split; [exact Hl2 | eapply incl_tran; eauto].
    + intros k l x Hk Hx.
      destruct (Hsound' _ _ _ Hk Hx) as [[l1 [Hl1 Hx1]] | [-> Hin]].
      * destruct (Hsound _ _ _ Hl1 Hx1) as [Hold | [-> ->]];
          [now left | right; split; [reflexivity | now left]].
      * right. split; [reflexivity | now right].
    + intros Hc. destruct (Hclean Hc) as [Ht Hc1].
      destruct (Hclean' Hc1) as [Hts Hc2].
      split; [| exact Hc2]. intros t' [<- | Hin]; auto.
Qed.

Lemma indexFile_tags (dir category file content : string) (st : Stats)
  (index index' : Index) :
  indexFile dir category file content st index = ok index' ->
  indexTags (joinPath dir file) (meta_tags (extractMetadata content))
            (index_tags index) = ok (index_tags index').
Proof.
  unfold indexFile, bind, ok.
  destruct (isEmpty category).
  - cbv beta iota.
    destruct (indexTags (joinPath dir file)
                (meta_tags (extractMetadata content)) (index_tags index))
      as [e | tags]; [discriminate |].
    now intros [= <-].
  - destruct (objPush category (joinPath dir file) (index_categories index))
      as [e | cats]; [discriminate |].
    destruct (indexTags (joinPath dir file)
                (meta_tags (extractMetadata content)) (index_tags index))
      as [e | tags]; [discriminate |].
    now intros [= <-].
Qed.

(** The lists of the tags only grow during a run. *)
Lemma tags_monotone (es : list (string * node)) (csegs : list string)
  (index index' : Index) :
  indexDirectory (Dir es) (relativePath csegs) (relativePath csegs) index
  = ok index' ->
  forall t l0,
    objGet t (index_tags index) = Some l0 ->
    exists l, objGet t (index_tags index') = Some l /\ incl l0 l.
Proof.
  intros Hrun. run_induction Hrun es csegs index index'.
  - intros csegs index t l0 H. eauto using incl_refl.
  - intros file child es csegs index index' _ _ IH. exact IH.
  - intros file content st es csegs index index1 index' _ Hfile _ IH t l0 H.
    apply indexFile_tags in Hfile. apply indexTags_ok in Hfile.
    destruct Hfile as [_ [Hmono _]].
    destruct (Hmono _ _ H) as [l1 [Hl1 Hi1]].
    destruct (IH _ _ Hl1) as [l2 [Hl2 Hi2]].
    exists l2. split; [exact Hl2 | eapply incl_tran; eauto].
  - intros file sub es csegs index index1 index' _ _ IHsub _ IH t l0 H.
    destruct (IHsub _ _ H) as [l1 [Hl1 Hi1]].
    destruct (IH _ _ Hl1) as [l2 [Hl2 Hi2]].
    exists l2. split; [exact Hl2 | eapply incl_tran; eauto].
Qed.

(** A path in a directory goes through the first entry or is a path in
    the directory of the other entries. *)
Lemma nodeAt_cons_cases (file : string) (child : node)
  (es : list (string * node)) (name : string) (rest : list string)
  (target : node) :
  nodeAt (Dir ((file, child) :: es)) (name :: rest) target ->
  (name = file /\ nodeAt child rest target) \/
  nodeAt (Dir es) (name :: rest) target.
Proof.
  intros [c [[Heq | Hin] Hat]].
  - injection Heq as -> ->. now left.
  - right. exists c. auto.
Qed.

(** A searched path does not lead through a skipped entry. *)
Lemma searchedPath_through_skipped (file : string) (child : node)
  (rest : list string) (content : string) (st : Stats) :
  match child with
  | Dir _ => startsWith file "." = true
  | File _ _ => endsWith file ".md" = false
  end ->
  nodeAt child rest (File content st) ->
  searchedPath (file :: rest) = true -> False.
Proof.
  intros Hskip Hat Hp. destruct child as [c0 s0 | sub]; destruct rest as [| d rest];
    simpl in Hat; try discriminate; try contradiction.
  - simpl in Hp. congruence.
  - rewrite searchedPath_cons in Hp by discriminate.
    rewrite Hskip in Hp. discriminate.
Qed.

Lemma tags_of_file (es : list (string * node)) (csegs : list string)
  (index index' : Index) :
  indexDirectory (Dir es) (relativePath csegs) (relativePath csegs) index
  = ok index' ->
  forall segs content st t,
    nodeAt (Dir es) segs (File content st) ->
    searchedPath segs = true ->
    In t (meta_tags (extractMetadata content)) ->
    exists l, objGet t (index_tags index') = Some l /\
              In (relativePath (csegs ++ segs)) l.
Proof.
  intros Hrun. run_induction Hrun es csegs index index'.
  - intros csegs index [| name rest] content st t Hat; [discriminate |].
    destruct Hat as [c [[] _]].
  - intros file child es csegs index index' Hskip _ IH
           [| name rest] content st t Hat Hp Ht; [discriminate |].
    destruct (nodeAt_cons_cases _ _ _ _ _ _ Hat) as [[-> Hat'] | Hat'].
    + exfalso. eapply searchedPath_through_skipped; eauto.
    + eapply IH; eauto.
  - intros file c0 s0 es csegs index index1 index' Hmd Hfile Htail IH
           [| name rest] content st t Hat Hp Ht; [discriminate |].
    destruct (nodeAt_cons_cases _ _ _ _ _ _ Hat) as [[-> Hat'] | Hat'];
      [| eapply IH; eauto].
    destruct rest as [| d rest]; simpl in Hat'; [| contradiction].
    injection Hat' as -> ->.
    apply indexFile_tags in Hfile. apply indexTags_ok in Hfile.
    destruct Hfile as [Hown _]. destruct (Hown t Ht) as [l1 [Hl1 Hin1]].
    destruct (tags_monotone _ _ _ _ Htail _ _ Hl1) as [l2 [Hl2 Hi2]].
    exists l2. split; [exact Hl2 |]. apply Hi2.
    now rewrite relativePath_snoc.
  - intros file sub0 es csegs index index1 index' Hvis _ IHsub Htail IH
           [| name rest] content st t Hat Hp Ht; [discriminate |].
    destruct (nodeAt_cons_cases _ _ _ _ _ _ Hat) as [[-> Hat'] | Hat'];
      [| eapply IH; eauto].
    destruct rest as [| d rest]; [discriminate |].
    rewrite searchedPath_cons in Hp by discriminate.
    apply andb_true_iff in Hp. destruct Hp as [_ Hp].
    destruct (IHsub (d :: rest) content st t Hat' Hp Ht) as [l1 [Hl1 Hin1]].
    destruct (tags_monotone _ _ _ _ Htail _ _ Hl1) as [l2 [Hl2 Hi2]].
    exists l2. split; [exact Hl2 |]. apply Hi2.
    now rewrite <- app_assoc in Hin1.
Qed.

Lemma tags_members (es : list (string * node)) (csegs : list string)
  (index index' : Index) :
  indexDirectory (Dir es) (relativePath csegs) (relativePath csegs) index
  = ok index' ->
  forall t l x,
    objGet t (index_tags index') = Some l -> In x l ->
    (exists l0, objGet t (index_tags index) = Some l0 /\ In x l0) \/
    (exists segs content st,
        nodeAt (Dir es) segs (File content st) /\
        searchedPath segs = true /\
        x = relativePath (csegs ++ segs) /\
        In t (meta_tags (extractMetadata content))).
Proof.
  intros Hrun. run_induction Hrun es csegs index index'.
  - intros csegs index t l x H Hx. eauto.
  - intros file child es csegs index index' _ _ IH t l x H Hx.
    destruct (IH t l x H Hx) as [Hold | [segs [c [s [Hat Hrest]]]]]; [now left |].
    right. exists segs, c, s. split; [| exact Hrest].
    apply nodeAt_tail; [| exact Hat]. intros ->. discriminate.
  - intros file content st es csegs index index1 index' Hmd Hfile _ IH t l x H Hx.
    destruct (IH t l x H Hx) as [[l1 [Hl1 Hx1]] | [segs [c [s [Hat Hrest]]]]].
    + apply indexFile_tags in Hfile. apply indexTags_ok in Hfile.
      destruct Hfile as [_ [_ [Hsound _]]].
      destruct (Hsound _ _ _ Hl1 Hx1) as [Hold | [-> Ht]]; [now left | right].
      exists [file], content, st. split.
      * exists (File content st). split; [now left | reflexivity].
      * simpl. rewrite Hmd. rewrite relativePath_snoc. auto.
    + right. exists segs, c, s. split; [| exact Hrest].
      apply nodeAt_tail; [| exact Hat]. intros ->. discriminate.
  - intros file sub0 es csegs index index1 index' Hvis _ IHsub _ IH t l x H Hx.
    destruct (IH t l x H Hx) as [[l1 [Hl1 Hx1]] | [segs [c [s [Hat Hrest]]]]].
    + destruct (IHsub t l1 x Hl1 Hx1)
        as [Hold | [segs [c [s [Hat [Hp [Hk Ht]]]]]]]; [now left | right].
      exists (file :: segs), c, s. split.
      * exists (Dir sub0). split; [now left | exact Hat].
      * rewrite searchedPath_cons
          by (destruct segs; [discriminate Hp | discriminate]).
        rewrite Hvis, Hp. rewrite <- app_assoc in Hk. auto.
    + right. exists segs, c, s. split; [| exact Hrest].
      apply nodeAt_tail; [| exact Hat]. intros ->. discriminate.
Qed.

(** X8: in the index, a path is in the list of a tag exactly when it is
    the relative path of a Markdown file, reached through visible
    directories, whose [tags: [...]] list holds the tag. *)
Theorem tags_map_each_tag_to_the_files_that_declare_it
  (es : list (string * node)) (now : string) (index : Index) (t x : string) :
  indexDirectory (Dir es) EmptyString EmptyString (emptyIndex now) = ok index ->
  ((exists l, objGet t (index_tags index) = Some l /\ In x l) <->
   exists segs content st,
     nodeAt (Dir es) segs (File content st) /\
     searchedPath segs = true /\
     x = relativePath segs /\
     In t (meta_tags (extractMetadata content))).
Proof.
  intros Hrun. change EmptyString with (relativePath []) in Hrun. split.
  - intros [l [Hl Hx]].
    destruct (tags_members _ _ _ _ Hrun _ _ _ Hl Hx)
      as [[l0 [Hold _]] | H]; [discriminate | exact H].
  - intros [segs [c [s [Hat [Hp [-> Ht]]]]]].
    exact (tags_of_file _ _ _ _ Hrun segs c s t Hat Hp Ht).
Qed.

Lemma tags_map_each_tag_to_the_files_that_declare_it_witness :
  let st := {| size := 40; mtime := "2024-01-01T00:00:00.000Z" |} in
  let es := [("a.md", File scenarioA st)] in
  exists index,
    indexDirectory (Dir es) EmptyString EmptyString
                   (emptyIndex "2024-01-02T00:00:00.000Z") = ok index /\
    ((exists l, objGet "y" (index_tags index) = Some l /\ In "a.md" l) <->
     exists segs content st',
       nodeAt (Dir es) segs (File content st') /\
       searchedPath segs = true /\
       "a.md" = relativePath segs /\
       In "y" (meta_tags (extractMetadata content))).
Proof.
  intros st es. eexists. split; [reflexivity |].
  apply (tags_map_each_tag_to_the_files_that_declare_it
           es "2024-01-02T00:00:00.000Z").
  reflexivity.
Defined.

Lemma tags_not_inherited (es : list (string * node)) (csegs : list string)
  (index index' : Index) :
  indexDirectory (Dir es) (relativePath csegs) (relativePath csegs) index
  = ok index' ->
  (forall k, inherited k = true -> objGet k (index_tags index) = None) ->
  (forall k, inherited k = true -> objGet k (index_tags index') = None) /\
  (forall segs content st t,
      nodeAt (Dir es) segs (File content st) ->
      searchedPath segs = true ->
      In t (meta_tags (extractMetadata content)) ->
      inherited t = false).
Proof.
  intros Hrun. run_induction Hrun es csegs index index'.
  - intros csegs index Hc. split; [exact Hc |].
    intros [| name rest] content st t Hat; [discriminate |].
    destruct Hat as [c [[] _]].
  - intros file child es csegs index index' Hskip _ IH Hc.
    destruct (IH Hc) as [Hc' Hfiles]. split; [exact Hc' |].
    intros [| name rest] content st t Hat Hp Ht; [discriminate |].
    destruct (nodeAt_cons_cases _ _ _ _ _ _ Hat) as [[-> Hat'] | Hat'].
    + exfalso. eapply searchedPath_through_skipped; eauto.
    + eapply Hfiles; eauto.
  - intros file c0 s0 es csegs index index1 index' Hmd Hfile _ IH Hc.
    apply indexFile_tags in Hfile. apply indexTags_ok in Hfile.
    destruct Hfile as [_ [_ [_ Hclean]]]. destruct (Hclean Hc) as [Hts Hc1].
    destruct (IH Hc1) as [Hc' Hfiles]. split; [exact Hc' |].
    intros [| name rest] content st t Hat Hp Ht; [discriminate |].
    destruct (nodeAt_cons_cases _ _ _ _ _ _ Hat) as [[-> Hat'] | Hat'];
      [| eapply Hfiles; eauto].
    destruct rest as [| d rest]; simpl in Hat'; [| contradiction].
    injection Hat' as -> ->. now apply Hts.
  - intros file sub0 es csegs index index1 index' Hvis _ IHsub _ IH Hc.
    destruct (IHsub Hc) as [Hc1 Hsub]. destruct (IH Hc1) as [Hc' Hfiles].
    split; [exact Hc' |].
    intros [| name rest] content st t Hat Hp Ht; [discriminate |].
    destruct (nodeAt_cons_cases _ _ _ _ _ _ Hat) as [[-> Hat'] | Hat'];
      [| eapply Hfiles; eauto].
    destruct rest as [| d rest]; [discriminate |].
    rewrite searchedPath_cons in Hp by discriminate.
    apply andb_true_iff in Hp. destruct Hp as [_ Hp].
    eapply Hsub; eauto.
Qed.

(** X9: a Markdown file that declares a tag named like a property of
    [Object.prototype] (for example [constructor] or [toString]) makes
    the indexer throw: the test [!index.tags[tag]] sees the inherited
    value and the value has no [push]. *)
Theorem inherited_tag_stops_the_indexer
  (es : list (string * node)) (now : string)
  (segs : list string) (content : string) (st : Stats) (t : string) :
  nodeAt (Dir es) segs (File content st) ->
  searchedPath segs = true ->
  In t (meta_tags (extractMetadata content)) ->
  inherited t = true ->
  exists e,
    indexDirectory (Dir es) EmptyString EmptyString (emptyIndex now) = throw e.
Proof.
  intros Hat Hp Ht Hi.
  destruct (indexDirectory (Dir es) EmptyString EmptyString (emptyIndex now))
    as [e | index] eqn:Hrun; [now exists e | exfalso].
  change EmptyString with (relativePath []) in Hrun.
  destruct (tags_not_inherited _ _ _ _ Hrun) as [_ Hfiles];
    [reflexivity |].
  rewrite (Hfiles segs content st t Hat Hp Ht) in Hi. discriminate.
Qed.

Lemma inherited_tag_stops_the_indexer_witness :
  let st := {| size := 20; mtime := "2024-01-01T00:00:00.000Z" |} in
  exists e,
    indexDirectory (Dir [("a.md", File "tags: [constructor]" st)])
                   EmptyString EmptyString
                   (emptyIndex "2024-01-02T00:00:00.000Z") = throw e.
Proof.
  intros st.
  apply (inherited_tag_stops_the_indexer
           [("a.md", File "tags: [constructor]" st)]
           "2024-01-02T00:00:00.000Z" ["a.md"] "tags: [constructor]" st
           "constructor").
  - eexists. split; [left; reflexivity | reflexivity].
  - reflexivity.
  - left. reflexivity.
  - reflexivity.
Defined.

(** ** Metadata: summary and title *)

Lemma without_takeWhile_notLF (s : string) :
  without LF (takeWhile notLF s) = true.
Proof.
  induction s as [| c s IH]; [reflexivity |].
  cbn [takeWhile]. unfold notLF at 1.
  destruct (Ascii.eqb c LF) eqn:E; [reflexivity |].
  cbn [negb without]. now rewrite E, IH.
Qed.

Lemma without_newlinesToSpaces (s : string) :
  without LF (newlinesToSpaces s) = true.
Proof.
  induction s as [| c s IH]; [reflexivity |].
  cbn [newlinesToSpaces without]. rewrite IH.
  destruct (Ascii.eqb c LF) eqn:E; [reflexivity | now rewrite E].
Qed.

Lemma matchSummaryFrom_some (s : string) :
  forall b t,
    matchSummaryFrom b s = Some t ->
    isEmpty t = false /\ without LF t = true.
Proof.
  induction s as [| c s IH]; intros b t H.
  - destruct b; discriminate.
  - cbn [matchSummaryFrom] in H.
    destruct (if b then summaryAt (String c s) else None) as [t' |] eqn:E.
    + injection H as <-. destruct b; [| discriminate].
      cbn [summaryAt] in E.
      destruct (Ascii.eqb c "#" || Ascii.eqb c LF) eqn:Ec; [discriminate |].
      injection E as <-.
      split; [| exact (without_takeWhile_notLF (String c s))].
      apply orb_false_iff in Ec. destruct Ec as [_ Ec].
      change (isEmpty (takeWhile notLF (String c s)) = false).
      cbn [takeWhile]. unfold notLF at 1. now rewrite Ec.
    + eapply IH; eauto.
Qed.

(** X10: the summary of an index entry never holds a line feed, and it
    is the empty string only for a file without content. *)
Theorem summary_is_one_line_and_empty_only_for_empty_file (content : string) :
  without LF (entrySummary content) = true /\
  (entrySummary content = EmptyString <-> content = EmptyString).
Proof.
  unfold entrySummary, extractMetadata, matchSummary. cbn [meta_summary].
  destruct (matchSummaryFrom true content) as [t |] eqn:E.
  - destruct (matchSummaryFrom_some _ _ _ E) as [Hne Hlf].
    unfold orElse. rewrite Hne. split; [exact Hlf |].
    split.
    + intros ->. discriminate.
    + intros ->. discriminate.
  - cbn [orElse isEmpty]. split; [apply without_newlinesToSpaces |].
    destruct content as [| c s]; [split; reflexivity |].
    split; discriminate.
Qed.

Lemma takeWhile_app (p : ascii -> bool) (t rest : string) :
  allChars p t = true ->
  match rest with
  | EmptyString => true
  | String c _ => negb (p c)
  end = true ->
  takeWhile p (t ++ rest) = t.
Proof.
  intros Ht Hrest. induction t as [| c t IH].
  - destruct rest as [| d rest]; [reflexivity |].
    apply negb_true_iff in Hrest. simpl. now rewrite Hrest.
  - simpl in Ht. apply andb_true_iff in Ht. destruct Ht as [Hc Ht].
    simpl. now rewrite Hc, IH.
Qed.

Lemma titleCapture_after_space (ws t rest : string) (c : ascii) (t' : string) :
  allChars isWhiteSpace ws = true ->
  t = String c t' -> isWhiteSpace c = false ->
  allChars notLineTerminator t = true ->
  endsLine rest = true ->
  titleCapture (ws ++ t ++ rest) = Some t.
Proof.
  intros Hws -> Hc Ht Hrest. induction ws as [| w ws IH].
  - cbn [append titleCapture]. rewrite Hc.
    pose proof Ht as Ht'. cbn [allChars] in Ht'.
    apply andb_true_iff in Ht'. destruct Ht' as [Hlt _].
    unfold notLineTerminator in Hlt. apply negb_true_iff in Hlt. rewrite Hlt.
    f_equal.
    apply (takeWhile_app notLineTerminator (String c t') rest Ht).
    destruct rest as [| d rest]; [reflexivity |].
    unfold notLineTerminator. simpl in Hrest. now rewrite Hrest.
  - simpl in Hws. apply andb_true_iff in Hws. destruct Hws as [Hw Hws].
    specialize (IH Hws). cbn [append titleCapture] in *. now rewrite Hw, IH.
Qed.

(** X11: a file that starts with [#], white space and a heading text
    that runs to the end of the line gets the heading text as its
    title, whatever follows and whatever the file is called. *)
Theorem first_heading_is_the_title
  (file ws t rest : string) (w c : ascii) (ws' t' : string) :
  ws = String w ws' -> allChars isWhiteSpace ws = true ->
  t = String c t' -> isWhiteSpace c = false ->
  allChars notLineTerminator t = true ->
  endsLine rest = true ->
  entryTitle file ("#" ++ ws ++ t ++ rest) = t.
Proof.
  intros -> Hws Ht Hc Hall Hrest.
  unfold entryTitle, extractMetadata, matchTitle. cbn [meta_title].
  cbn [append matchTitleFrom titleAt].
  simpl in Hws. apply andb_true_iff in Hws. destruct Hws as [Hw Hws].
  rewrite Hw.
  rewrite (titleCapture_after_space ws' t rest c t' Hws Ht Hc Hall Hrest).
  subst t. reflexivity.
Qed.

Lemma first_heading_is_the_title_witness :
  entryTitle "notes.md" ("#" ++ "  " ++ "Hello world" ++ (nl ++ "text"))
  = "Hello world".
Proof.
  apply (first_heading_is_the_title
           "notes.md" "  " "Hello world" (nl ++ "text")
           " " "H" " " "ello world"); reflexivity.
Defined.

Lemma titleAt_other (c : ascii) (s : string) :
  Ascii.eqb c "#" = false -> titleAt (String c s) = None.
Proof.
  destruct c as [[] [] [] [] [] [] [] []]; intros H;
    try reflexivity; discriminate.
Qed.

Lemma matchTitleFrom_without_hash (s : string) :
  forall b, without "#" s = true -> matchTitleFrom b s = None.
Proof.
  induction s as [| c s IH]; intros b H.
  - destruct b; reflexivity.
  - cbn [without] in H. apply andb_true_iff in H. destruct H as [Hc H].
    apply negb_true_iff in Hc.
    cbn [matchTitleFrom]. rewrite (titleAt_other c s Hc).
    destruct b; now apply IH.
Qed.

Lemma removeFirst_extension (base : string) :
  without "." base = true -> removeFirst ".md" (base ++ ".md") = base.
Proof.
  induction base as [| c base IH]; intros H; [reflexivity |].
  cbn [without] in H. apply andb_true_iff in H. destruct H as [Hc H].
  apply negb_true_iff in Hc.
  cbn [append removeFirst]. rewrite prefix_cons.
  rewrite Ascii.eqb_sym, Hc. cbn [andb]. now rewrite IH.
Qed.

(** X12: a file whose content has no [#] gets its name without the
    extension as the title, when the name has no dot before [.md]. *)
Theorem title_falls_back_to_file_name (base content : string) :
  without "#" content = true ->
  without "." base = true ->
  entryTitle (base ++ ".md") content = base.
Proof.
  intros Hc Hb. unfold entryTitle, extractMetadata, matchTitle.
  cbn [meta_title]. rewrite (matchTitleFrom_without_hash content true Hc).
  cbn [orElse isEmpty]. now apply removeFirst_extension.
Qed.

Lemma title_falls_back_to_file_name_witness :
  entryTitle ("projectBrief" ++ ".md") "Some text." = "projectBrief".
Proof.
  apply (title_falls_back_to_file_name "projectBrief" "Some text.");
    reflexivity.
Defined.

(** ** The scaffolder: patterns and replacement values *)

(** X13: the pattern built from a placeholder by [escapeRegExp] stands
    for the placeholder itself, whatever characters it holds, so the
    replacement acts on the literal occurrences of the placeholder. *)
Theorem escaped_placeholder_is_matched_literally
  (placeholder value content : string) :
  literalOfPattern (escapeRegExp placeholder) = Some placeholder /\
  replaceAll (escapeRegExp placeholder) value content =
  replaceLiteral placeholder value content.
Proof.
  unfold replaceAll. rewrite literalOfPattern_escapeRegExp. auto.
Qed.

Lemma substitution_without_dollar (value : string) :
  without "$" value = true ->
  forall matched before after,
    substitution value matched before after = value.
Proof.
  induction value as [| c value IH]; intros H matched before after;
    [reflexivity |].
  cbn [without] in H. apply andb_true_iff in H. destruct H as [Hc H].
  apply negb_true_iff in Hc.
  cbn [substitution]. rewrite Hc. now rewrite IH.
Qed.

(** X14: for a pattern that is not empty, a replacement value without
    a dollar sign is inserted as it is: every match found from left to
    right becomes the value and the other characters are kept. *)
Theorem value_without_dollar_is_inserted_verbatim
  (pat value content : string) :
  isEmpty pat = false ->
  without "$" value = true ->
  replaceLiteral pat value content = replacePlain pat value 0 content.
Proof.
  intros Hpat H. unfold replaceLiteral. rewrite Hpat.
  apply replaceFrom_plain. now apply substitution_without_dollar.
Qed.

Lemma value_without_dollar_is_inserted_verbatim_witness :
  replaceLiteral "[PORT]" "3000" "port [PORT]!" = "port 3000!".
Proof.
  rewrite (value_without_dollar_is_inserted_verbatim "[PORT]" "3000");
    reflexivity.
Defined.

Lemma replaceFrom_constant (pat value inserted : string) :
  (forall before after, substitution value pat before after = inserted) ->
  forall s skip before,
    replaceFrom pat value skip before s = replacePlain pat inserted skip s.
Proof.
  intros Hv. induction s as [| c s IH]; intros skip before; [reflexivity |].
  cbn [replaceFrom replacePlain]. destruct skip as [| k].
  - destruct (prefix pat (String c s)); now rewrite ?Hv, IH.
  - apply IH.
Qed.

Lemma append_empty (s : string) : (s ++ EmptyString)%string = s.
Proof. induction s as [| c s IH]; simpl; [reflexivity | now rewrite IH]. Qed.

Lemma replacePlain_itself (pat : string) (n : nat) :
  isEmpty pat = false ->
  forall s, String.length s <= n -> replacePlain pat pat 0 s = s.
Proof.
  intros Hpat. induction n as [| n IH]; intros s Hlen.
  - destruct s; [reflexivity | simpl in Hlen; lia].
  - destruct s as [| c s]; [reflexivity |].
    cbn [replacePlain]. destruct (prefix pat (String c s)) eqn:E.
    + apply prefix_app in E. destruct E as [post Hpost].
      rewrite replacePlain_skip.
      assert (Hdrop : drop (String.length pat - 1) s = post).
      { replace (drop (String.length pat - 1) s)
          with (drop (String.length pat) (String c s)).
        - rewrite Hpost. apply drop_append.
        - destruct pat as [| p0 pat']; [discriminate |].
          cbn [String.length drop]. simpl. now rewrite Nat.sub_0_r. }
      rewrite Hdrop, IH; [now rewrite Hpost |].
      apply (f_equal String.length) in Hpost. rewrite length_append in Hpost.
      destruct pat; [discriminate |]. simpl in Hpost, Hlen. lia.
    + rewrite IH; [reflexivity | simpl in Hlen; lia].
Qed.

(** X15: the replacement value [$&] stands for the matched text, so
    replacing a placeholder by it changes nothing: the placeholder
    stays in the content. *)
Theorem dollar_ampersand_keeps_the_placeholder (pat content : string) :
  isEmpty pat = false ->
  replaceLiteral pat "$&" content = content.
Proof.
  intros Hpat. unfold replaceLiteral. rewrite Hpat.
  rewrite (replaceFrom_constant pat "$&" pat).
  - apply (replacePlain_itself pat (String.length content) Hpat). lia.
  - intros before after. cbn. apply append_empty.
Qed.

Lemma dollar_ampersand_keeps_the_placeholder_witness :
  replaceLiteral "[PROJECT_NAME]" "$&" "# [PROJECT_NAME]" = "# [PROJECT_NAME]".
Proof.
  apply (dollar_ampersand_keeps_the_placeholder "[PROJECT_NAME]");
    reflexivity.
Defined.

(** ** The scaffolder: the copy and the rewritten tree *)

Lemma nodeAt_copyDirectory_inv (time : string) (segs : list string) :
  forall n content st',
    nodeAt (copyDirectory time n) segs (File content st') ->
    exists st, nodeAt n segs (File content st) /\
               st' = {| size := size st; mtime := time |}.
Proof.
  induction segs as [| name rest IH]; intros n content st' Hat.
  - destruct n as [c0 s0 | es]; [| discriminate].
    simpl in Hat. injection Hat as <- <-. exists s0. split; reflexivity.
  - destruct n as [c0 s0 | es]; [contradiction |].
    destruct Hat as [child' [Hin Hat]].
    apply in_map_iff in Hin. destruct Hin as [[k child] [Heq Hin]].
    simpl in Heq. injection Heq as -> <-.
    destruct (IH _ _ _ Hat) as [st [Hat' Hst]].
    exists st. split; [| exact Hst]. exists child. auto.
Qed.

(** X16: the copy of a directory holds a file at a path exactly when
    the directory does, with the same content and size and the time of
    the copy as its modification time. *)
Theorem copy_holds_the_same_files
  (time : string) (n : node) (segs : list string) (content : string)
  (st' : Stats) :
  nodeAt (copyDirectory time n) segs (File content st') <->
  exists st, nodeAt n segs (File content st) /\
             st' = {| size := size st; mtime := time |}.
Proof.
  split; [apply nodeAt_copyDirectory_inv |].
  intros [st [Hat ->]]. now apply nodeAt_copyDirectory.
Qed.

Lemma nodeAt_replaceInDirectory_inv (time : string)
  (reps : list (string * string)) (segs : list string) :
  forall es content' st',
    nodeAt (replaceInDirectory time reps (Dir es)) segs (File content' st') ->
    exists content st,
      nodeAt (Dir es) segs (File content st) /\
      if isTextFile (last segs EmptyString)
      then content' = applyReplacements reps content /\
           st' = {| size := byteLength content'; mtime := time |}
      else content' = content /\ st' = st.
Proof.
  induction segs as [| name rest IH]; intros es content' st' Hat;
    [discriminate |].
  destruct Hat as [child' [Hin Hat]].
  apply in_map_iff in Hin. destruct Hin as [[k child] [Heq Hin]].
  injection Heq as -> <-.
  destruct rest as [| d rest].
  - simpl in Hat. cbn [last].
    destruct child as [c0 s0 | sub]; [| discriminate].
    exists c0, s0.
    split; [exists (File c0 s0); split; [exact Hin | reflexivity] |].
    destruct (isTextFile name).
    + injection Hat as <- <-. split; reflexivity.
    + injection Hat as <- <-. split; reflexivity.
  - destruct child as [c0 s0 | sub].
    + destruct (isTextFile name); contradiction.
    + destruct (IH sub content' st' Hat) as [c [s [Hat' Hrest]]].
      exists c, s.
      split; [exists (Dir sub); split; [exact Hin | exact Hat'] | exact Hrest].
Qed.

(** X17: [replaceInDirectory] neither adds nor removes a file.  Every
    file of the rewritten tree is a file of the tree at the same path:
    with the replacements applied and a new size and time when its name
    ends in [.md] or [.json], and as it was otherwise. *)
Theorem replacement_keeps_the_files
  (time : string) (reps : list (string * string))
  (es : list (string * node)) (segs : list string) (content' : string)
  (st' : Stats) :
  nodeAt (replaceInDirectory time reps (Dir es)) segs (File content' st') <->
  exists content st,
    nodeAt (Dir es) segs (File content st) /\
    if isTextFile (last segs EmptyString)
    then content' = applyReplacements reps content /\
         st' = {| size := byteLength content'; mtime := time |}
    else content' = content /\ st' = st.
Proof.
  split; [apply nodeAt_replaceInDirectory_inv |].
  intros [content [st [Hat Hrest]]].
  revert es Hat. induction segs as [| name rest IH]; intros es Hat;
    [discriminate |].
  destruct Hat as [child [Hin Hat]].
  destruct rest as [| d rest].
  - simpl in Hat. subst child. cbn [last] in Hrest.
    eexists. split.
    + apply in_map_iff. exists (name, File content st). split; [| exact Hin].
      reflexivity.
    + cbv beta iota. destruct (isTextFile name); destruct Hrest as [-> ->];
        reflexivity.
  - destruct child as [c0 s0 | sub]; [contradiction |].
    exists (replaceInDirectory time reps (Dir sub)). split.
    + apply in_map_iff. exists (name, Dir sub). split; [reflexivity | exact Hin].
    + apply IH; assumption.
Qed.

(** ** The scaffolder: what a run leaves behind *)

Lemma lookup_app_other (k name : string) (n : node)
  (es : list (string * node)) :
  k <> name -> lookup k (es ++ [(name, n)]) = lookup k es.
Proof.
  intros Hne. induction es as [| [k0 n0] es IH]; simpl.
  - destruct (String.eqb_spec name k); [congruence | reflexivity].
  - now rewrite IH.
Qed.

Lemma lookup_removeEntry_other (k name : string)
  (es : list (string * node)) :
  k <> name -> lookup k (removeEntry name es) = lookup k es.
Proof.
  intros Hne. induction es as [| [k0 n0] es IH]; [reflexivity |].
  unfold removeEntry in *. cbn [filter fst].
  destruct (String.eqb_spec k0 name) as [-> | Hk]; cbn [negb lookup].
  - destruct (String.eqb_spec name k); [congruence | exact IH].
  - now rewrite IH.
Qed.

Lemma lookup_placed_other (k : string) (n : node)
  (project : list (string * node)) :
  k <> "memory-bank" ->
  lookup k (removeEntry "memory-bank" project ++ [("memory-bank", n)])
  = lookup k project.
Proof.
  intros Hne. rewrite lookup_app_other by exact Hne.
  now apply lookup_removeEntry_other.
Qed.

(** The two stages of [finishProject]: the scripts of [package.json],
    then [scripts/memory-search.js]. *)
Lemma finishProject_stages (time : string)
  (parse : string -> option value)
  (project fs : list (string * node)) (r : option error) :
  finishProject time parse project = (fs, r) ->
  (fs = project /\ r <> None /\ lookup "package.json" project <> None) \/
  exists p1 p2,
    (p1 = project /\ lookup "package.json" project = None \/
     exists content st content',
       lookup "package.json" project = Some (File content st) /\
       updatePackageJson parse content = ok content' /\
       writeFile "package.json" content' time project = ok p1) /\
    p2 = match lookup "scripts" p1 with
         | None => (p1 ++ [("scripts", Dir [])])%list
         | Some _ => p1
         end /\
    match lookup "scripts" p2 with
    | Some (Dir scripts) =>
        match writeBytes "memory-search.js" searchScript time scripts with
        | inl e => fs = p2 /\ r = Some e
        | inr scripts' =>
            fs = replaceEntry "scripts" (Dir scripts') p2 /\ r = None
        end
    | _ => fs = p2 /\ r = Some (ENOTDIR "scripts/memory-search.js")
    end.
Proof.
  unfold finishProject. intros H.
  assert (Hsecond : forall p1,
    match
      lookup "scripts"
        match lookup "scripts" p1 with
        | None => (p1 ++ [("scripts", Dir [])])%list
        | Some _ => p1
        end
    with
    | Some (Dir scripts) =>
        match writeBytes "memory-search.js" searchScript time scripts with
        | inl e =>
            (match lookup "scripts" p1 with
             | None => (p1 ++ [("scripts", Dir [])])%list
             | Some _ => p1
             end, Some e)
        | inr scripts' =>
            (replaceEntry "scripts" (Dir scripts')
               match lookup "scripts" p1 with
               | None => (p1 ++ [("scripts", Dir [])])%list
               | Some _ => p1
               end, None)
        end
    | _ =>
        (match lookup "scripts" p1 with
         | None => (p1 ++ [("scripts", Dir [])])%list
         | Some _ => p1
         end, Some (ENOTDIR "scripts/memory-search.js"))
    end = (fs, r) ->
    match
      lookup "scripts"
        match lookup "scripts" p1 with
        | None => (p1 ++ [("scripts", Dir [])])%list
        | Some _ => p1
        end
    with
    | Some (Dir scripts) =>
        match writeBytes "memory-search.js" searchScript time scripts with
        | inl e =>
            fs = match lookup "scripts" p1 with
                 | None => (p1 ++ [("scripts", Dir [])])%list
                 | Some _ => p1
                 end /\ r = Some e
        | inr scripts' =>
            fs = replaceEntry "scripts" (Dir scripts')
                   match lookup "scripts" p1 with
                   | None => (p1 ++ [("scripts", Dir [])])%list
                   | Some _ => p1
                   end /\ r = None
        end
    | _ =>
        fs = match lookup "scripts" p1 with
             | None => (p1 ++ [("scripts", Dir [])])%list
             | Some _ => p1
             end /\ r = Some (ENOTDIR "scripts/memory-search.js")
    end).
  { intros p1.
    destruct (lookup "scripts"
                match lookup "scripts" p1 with
                | None => (p1 ++ [("scripts", Dir [])])%list
                | Some _ => p1
                end) as [[c0 s0 | scripts] |].
    - intros [= <- <-]. auto.
    - destruct (writeBytes "memory-search.js" searchScript time scripts);
        intros [= <- <-]; auto.
    - intros [= <- <-]. auto. }
  destruct (lookup "package.json" project) as [[c0 s0 | sub] |] eqn:Epkg.
  - destruct (updatePackageJson parse c0) as [e0 | c1] eqn:Eupd.
    + injection H as <- <-. left. repeat split; discriminate.
    + destruct (writeFile "package.json" c1 time project) as [e | p'] eqn:Ew.
      * injection H as <- <-. left. repeat split; discriminate.
      * right. exists p'. eexists. split; [| split; [reflexivity |]].
        -- right. exists c0, s0, c1. auto.
        -- apply Hsecond. exact H.
  - injection H as <- <-. left. repeat split; discriminate.
  - right. exists project. eexists. split; [| split; [reflexivity |]].
    + left. auto.
    + apply Hsecond. exact H.
Qed.

Lemma finishProject_keeps_others (time : string)
  (parse : string -> option value)
  (project fs : list (string * node)) (r : option error) (k : string) :
  finishProject time parse project = (fs, r) ->
  k <> "package.json" -> k <> "scripts" ->
  lookup k fs = lookup k project.
Proof.
  intros H Hpkg Hscripts.
  destruct (finishProject_stages _ _ _ _ _ H)
    as [[-> _] | [p1 [p2 [H1 [H2 H3]]]]]; [reflexivity |].
  assert (E1 : lookup k p1 = lookup k project).
  { destruct H1 as [[-> _] | [c [s [c' [_ [_ Hw]]]]]]; [reflexivity |].
    apply (lookup_writeFile_other _ _ _ _ _ _ Hw Hpkg). }
  assert (E2 : lookup k p2 = lookup k p1).
  { subst p2. destruct (lookup "scripts" p1); [reflexivity |].
    now apply lookup_app_other. }
  assert (E3 : lookup k fs = lookup k p2).
  { destruct (lookup "scripts" p2) as [[c0 s0 | scripts] |].
    - now destruct H3 as [-> _].
    - destruct (writeBytes "memory-search.js" searchScript time scripts);
        destruct H3 as [-> _]; [reflexivity |].
      now apply lookup_replaceEntry_other.
    - now destruct H3 as [-> _]. }
  congruence.
Qed.

(** X18: a run of the scaffolder, complete or not, touches three
    entries of the project directory at most: [memory-bank],
    [package.json] and [scripts].  Every other entry, the template
    among them, is after the run what it was before. *)
Theorem scaffolder_keeps_the_other_entries
  (a : Answers) (date time : string)
  (parse : string -> option value)
  (project : list (string * node)) (name : string) :
  name <> "memory-bank" -> name <> "package.json" -> name <> "scripts" ->
  lookup name (run_fs (initMemoryBank a date time parse project))
  = lookup name project.
Proof.
  intros Hmb Hpkg Hscripts. unfold initMemoryBank.
  destruct (match lookup "memory-bank" project with
            | Some _ => true
            | None => false
            end && negb (String.eqb (toLowerCase (overwrite a)) "y"));
    [reflexivity |].
  destruct (lookup "memory-bank-template" project) as [[c0 s0 | template] |];
    cbn [run_fs]; try (now apply lookup_placed_other).
  destruct (buildTarget a date time template) as [target [e |]];
    cbn [run_fs]; [now apply lookup_placed_other |].
  destruct (finishProject time parse
              (removeEntry "memory-bank" project ++ [("memory-bank", Dir target)]))
    as [fs r] eqn:Efinish.
  assert (E : lookup name fs = lookup name project).
  { rewrite (finishProject_keeps_others _ _ _ _ _ _ Efinish Hpkg Hscripts).
    now apply lookup_placed_other. }
  destruct r; exact E.
Qed.

Lemma scaffolder_keeps_the_other_entries_witness :
  let project := [("memory-bank-template", Dir sampleTemplate)] in
  lookup "memory-bank-template"
         (run_fs (initMemoryBank sampleAnswers "2024-01-02"
                                 "2024-01-02T00:00:00.000Z"
                                 parseSample project))
  = Some (Dir sampleTemplate).
Proof.
  intros project.
  rewrite (scaffolder_keeps_the_other_entries
             sampleAnswers "2024-01-02" "2024-01-02T00:00:00.000Z"
             parseSample project "memory-bank-template");
    [reflexivity | discriminate | discriminate | discriminate].
Defined.

Lemma proceeds (a : Answers) (project : list (string * node)) :
  lookup "memory-bank" project = None \/ toLowerCase (overwrite a) = "y" ->
  (match lookup "memory-bank" project with
   | Some _ => true
   | None => false
   end && negb (String.eqb (toLowerCase (overwrite a)) "y")) = false.
Proof. intros [-> | ->]; [reflexivity | apply andb_false_r]. Qed.

(** X19: without the directory [memory-bank-template] the run fails
    with [ENOENT], exits with no status and prints no success
    message; by then the former destination is removed and an empty
    [memory-bank] stands in its place. *)
Theorem missing_template_leaves_empty_destination
  (a : Answers) (date time : string)
  (parse : string -> option value)
  (project : list (string * node)) :
  lookup "memory-bank-template" project = None ->
  lookup "memory-bank" project = None \/ toLowerCase (overwrite a) = "y" ->
  let run := initMemoryBank a date time parse project in
  run_error run = Some (ENOENT "memory-bank-template") /\
  run_exit run = None /\
  lookup "memory-bank" (run_fs run) = Some (Dir []) /\
  (forall line, In line successLines -> ~ In line (run_output run)) /\
  forall name, name <> "memory-bank" ->
               lookup name (run_fs run) = lookup name project.
Proof.
  intros Htemplate Hgo run. subst run. unfold initMemoryBank.
  rewrite (proceeds a project Hgo), Htemplate.
  cbn [run_error run_exit run_fs run_output].
  split; [reflexivity |]. split; [reflexivity |].
  split; [apply lookup_removeEntry_app |].
  split; [| intros name Hne; now apply lookup_placed_other].
  intros line Hline Hout. apply in_app_or in Hout.
  destruct Hout as [Hout | Hout].
  - unfold banner in Hout. unfold successLines in Hline.
    cbn [In] in Hout, Hline.
    repeat (destruct Hline as [<- | Hline];
            [ repeat (destruct Hout as [Hout | Hout]; [discriminate Hout |]);
              exact Hout |]).
    exact Hline.
  - destruct (lookup "memory-bank" project); [| exact Hout].
    destruct Hout as [<- | []]. unfold successLines in Hline.
    cbn [In] in Hline.
    repeat (destruct Hline as [Hline | Hline]; [discriminate Hline |]).
    exact Hline.
Qed.

Lemma missing_template_leaves_empty_destination_witness :
  let st := {| size := 2; mtime := "2024-01-01T00:00:00.000Z" |} in
  let project := [("memory-bank", Dir [("keep.md", File "hi" st)])] in
  let run := initMemoryBank sampleAnswers "2024-01-02"
                            "2024-01-02T00:00:00.000Z"
                            parseSample project in
  run_error run = Some (ENOENT "memory-bank-template") /\
  lookup "memory-bank" (run_fs run) = Some (Dir []).
Proof.
  intros st project run.
  destruct (missing_template_leaves_empty_destination
              sampleAnswers "2024-01-02" "2024-01-02T00:00:00.000Z"
              parseSample project)
    as [Herr [_ [Hfs _]]].
  - reflexivity.
  - right. reflexivity.
  - split; [exact Herr | exact Hfs].
Defined.

Lemma lookup_replaced (time : string) (reps : list (string * string))
  (name : string) (template : list (string * node)) :
  match lookup name template with
  | Some (Dir sub) =>
      lookup name
        (entriesOf (replaceInDirectory time reps
                      (copyDirectory time (Dir template))))
      = Some (replaceInDirectory time reps (copyDirectory time (Dir sub)))
  | Some (File _ _) =>
      exists content st,
        lookup name
          (entriesOf (replaceInDirectory time reps
                        (copyDirectory time (Dir template))))
        = Some (File content st)
  | None =>
      lookup name
        (entriesOf (replaceInDirectory time reps
                      (copyDirectory time (Dir template))))
      = None
  end.
Proof.
  induction template as [| [k n] template IH]; [reflexivity |].
  cbn [lookup]. cbn [copyDirectory replaceInDirectory entriesOf map fst snd lookup].
  destruct (String.eqb k name).
  - destruct n as [c0 s0 | sub].
    + cbn [copyDirectory]. destruct (isTextFile k); eauto.
    + reflexivity.
  - exact IH.
Qed.

(** X20: when the template has no directory [context], the run fails
    at the write of [context/active.md], with [ENOENT] when the
    template has no entry of that name and [ENOTDIR] when it is a file.
    The destination then holds the copy with the placeholders replaced,
    and neither [package.json] nor [scripts] is touched. *)
Theorem template_without_context_fails_after_the_copy
  (a : Answers) (date time : string)
  (parse : string -> option value)
  (project template : list (string * node)) :
  lookup "memory-bank-template" project = Some (Dir template) ->
  lookup "memory-bank" project = None \/ toLowerCase (overwrite a) = "y" ->
  (forall sub, lookup "context" template <> Some (Dir sub)) ->
  let run := initMemoryBank a date time parse project in
  run_error run
  = Some (match lookup "context" template with
          | None => ENOENT "memory-bank/context/active.md"
          | Some _ => ENOTDIR "memory-bank/context/active.md"
          end) /\
  lookup "memory-bank" (run_fs run)
  = Some (replaceInDirectory time (replacements a date)
            (copyDirectory time (Dir template))) /\
  lookup "package.json" (run_fs run) = lookup "package.json" project /\
  lookup "scripts" (run_fs run) = lookup "scripts" project.
Proof.
  intros Htemplate Hgo Hctx run. subst run. unfold initMemoryBank.
  rewrite (proceeds a project Hgo), Htemplate. unfold buildTarget.
  cbv zeta.
  pose proof (lookup_replaced time (replacements a date) "context" template)
    as Hl.
  destruct (lookup "context" template) as [[c0 s0 | sub] |].
  - destruct Hl as [c [s ->]]. cbn [run_error run_fs].
    split; [reflexivity |]. split; [apply lookup_removeEntry_app |].
    split; apply lookup_placed_other; discriminate.
  - now destruct (Hctx sub).
  - rewrite Hl. cbn [run_error run_fs].
    split; [reflexivity |]. split; [apply lookup_removeEntry_app |].
    split; apply lookup_placed_other; discriminate.
Qed.

Lemma template_without_context_fails_after_the_copy_witness :
  let st := {| size := 14; mtime := "2024-01-01T00:00:00.000Z" |} in
  let template := [("README.md", File "# [PROJECT_NAME]" st)] in
  let project := [("memory-bank-template", Dir template)] in
  let run := initMemoryBank sampleAnswers "2024-01-02"
                            "2024-01-02T00:00:00.000Z"
                            parseSample project in
  run_error run = Some (ENOENT "memory-bank/context/active.md") /\
  lookup "scripts" (run_fs run) = None.
Proof.
  intros st template project run.
  destruct (template_without_context_fails_after_the_copy
              sampleAnswers "2024-01-02" "2024-01-02T00:00:00.000Z"
              parseSample project template)
    as [Herr [_ [_ Hscripts]]].
  - reflexivity.
  - left. reflexivity.
  - intros sub. discriminate.
  - split; [exact Herr | exact Hscripts].
Defined.

Lemma finishProject_scripts (time : string)
  (parse : string -> option value)
  (project fs : list (string * node)) :
  finishProject time parse project = (fs, None) ->
  exists scripts,
    lookup "scripts" fs = Some (Dir scripts) /\
    lookup "memory-search.js" scripts
    = Some (File searchScript
                 {| size := N.of_nat (String.length searchScript);
                    mtime := time |}).
Proof.
  intros H.
  destruct (finishProject_stages _ _ _ _ _ H)
    as [[_ [Hr _]] | [p1 [p2 [_ [_ H3]]]]]; [congruence |].
  destruct (lookup "scripts" p2) as [[c0 s0 | scripts] |] eqn:Es;
    try (destruct H3 as [_ H3]; discriminate H3).
  destruct (writeBytes "memory-search.js" searchScript time scripts)
    as [e | scripts'] eqn:Ew; [destruct H3 as [_ H3]; discriminate H3 |].
  destruct H3 as [-> _]. exists scripts'. split.
  - apply (lookup_replaceEntry _ _ _ _ Es).
  - apply (lookup_writeBytes _ _ _ _ _ Ew).
Qed.

Lemma finishProject_package (time : string)
  (parse : string -> option value)
  (project fs : list (string * node)) :
  finishProject time parse project = (fs, None) ->
  match lookup "package.json" project with
  | None => lookup "package.json" fs = None
  | Some (File content _) =>
      exists content',
        updatePackageJson parse content = ok content' /\
        lookup "package.json" fs
        = Some (File content' {| size := byteLength content';
                                 mtime := time |})
  | Some (Dir _) => False
  end.
Proof.
  intros H.
  destruct (finishProject_stages _ _ _ _ _ H)
    as [[_ [Hr _]] | [p1 [p2 [H1 [H2 H3]]]]]; [congruence |].
  assert (E : lookup "package.json" fs = lookup "package.json" p1).
  { transitivity (lookup "package.json" p2).
    - destruct (lookup "scripts" p2) as [[c0 s0 | scripts] |].
      + now destruct H3 as [-> _].
      + destruct (writeBytes "memory-search.js" searchScript time scripts);
          destruct H3 as [-> _]; [reflexivity |].
        apply lookup_replaceEntry_other. discriminate.
      + now destruct H3 as [-> _].
    - subst p2. destruct (lookup "scripts" p1); [reflexivity |].
      apply lookup_app_other. discriminate. }
  destruct H1 as [[-> Hnone] | [c [s [c' [Hpkg [Hupd Hw]]]]]].
  - rewrite Hnone. congruence.
  - rewrite Hpkg. exists c'. split; [exact Hupd |].
    rewrite E. apply (lookup_writeFile _ _ _ _ _ Hw).
Qed.

(** X21: after a complete run the destination holds
    [context/active.md] with the generated text of the active context,
    its byte length and the time of the run, and
    [scripts/memory-search.js] holds the generated search script, the
    1551 bytes of its UTF-8 text, with the time of the run. *)
Theorem complete_run_writes_the_generated_files
  (a : Answers) (date time : string)
  (parse : string -> option value)
  (project : list (string * node)) :
  lookup "memory-bank" project = None \/ toLowerCase (overwrite a) = "y" ->
  let run := initMemoryBank a date time parse project in
  run_error run = None ->
  (exists target,
     lookup "memory-bank" (run_fs run) = Some (Dir target) /\
     nodeAt (Dir target) ["context"; "active.md"]
            (File (activeContext a date)
                  {| size := byteLength (activeContext a date);
                     mtime := time |})) /\
  (exists scripts,
     lookup "scripts" (run_fs run) = Some (Dir scripts) /\
     lookup "memory-search.js" scripts
     = Some (File searchScript {| size := 1551; mtime := time |})) /\
  run_exit run = Some 0.
Proof.
  intros Hgo run. subst run. unfold initMemoryBank.
  rewrite (proceeds a project Hgo).
  destruct (lookup "memory-bank-template" project) as [[c0 s0 | template] |];
    try discriminate.
  destruct (buildTarget a date time template) as [target [e |]] eqn:Ebuild;
    [discriminate |].
  destruct (finishProject time parse
              (removeEntry "memory-bank" project ++ [("memory-bank", Dir target)]))
    as [fs [e |]] eqn:Efinish; [discriminate |].
  intros _. cbn [run_fs run_exit].
  split; [| split; [| reflexivity]].
  - exists target. split.
    + apply (finishProject_keeps_destination _ _ _ _ _ Efinish).
      apply lookup_removeEntry_app.
    + unfold buildTarget in Ebuild. cbv zeta in Ebuild.
      destruct (lookup "context"
                  (entriesOf (replaceInDirectory time (replacements a date)
                                (copyDirectory time (Dir template)))))
        as [[c0 s0 | context] |] eqn:Ectx; try discriminate.
      destruct (writeFile "active.md" (activeContext a date) time context)
        as [e | context'] eqn:Ew; [discriminate |].
      injection Ebuild as <-.
      exists (Dir context'). split; [apply (In_replaceEntry_new _ _ _ _ Ectx) |].
      eexists. split; [| reflexivity].
      apply lookup_In. apply (lookup_writeFile _ _ _ _ _ Ew).
  - destruct (finishProject_scripts _ _ _ _ Efinish) as [scripts [Hs Hf]].
    exists scripts. split; [exact Hs |].
    rewrite Hf. f_equal.
Qed.

Lemma complete_run_writes_the_generated_files_witness :
  let project := [("memory-bank-template", Dir sampleTemplate)] in
  let run := initMemoryBank sampleAnswers "2024-01-02"
                            "2024-01-02T00:00:00.000Z"
                            parseSample project in
  exists scripts,
    lookup "scripts" (run_fs run) = Some (Dir scripts) /\
    lookup "memory-search.js" scripts
    = Some (File searchScript
                 {| size := 1551; mtime := "2024-01-02T00:00:00.000Z" |}).
Proof.
  intros project run.
  destruct (complete_run_writes_the_generated_files
              sampleAnswers "2024-01-02" "2024-01-02T00:00:00.000Z"
              parseSample project)
    as [_ [Hscripts _]].
  - left. reflexivity.
  - reflexivity.
  - exact Hscripts.
Defined.

(** X22: a complete run rewrites [package.json] when the project has
    the file: the text is parsed, the four memory scripts are assigned
    to the parsed value as [addScripts] does, and the file holds the
    serialized result with its byte length and the time of the run.
    The run does not create the file when the project has none, and
    it cannot complete when [package.json] is a directory. *)
Theorem complete_run_rewrites_an_existing_package_json
  (a : Answers) (date time : string)
  (parse : string -> option value)
  (project : list (string * node)) :
  lookup "memory-bank" project = None \/ toLowerCase (overwrite a) = "y" ->
  let run := initMemoryBank a date time parse project in
  run_error run = None ->
  match lookup "package.json" project with
  | None => lookup "package.json" (run_fs run) = None
  | Some (File content _) =>
      exists packageJson packageJson',
        parse content = Some packageJson /\
        addScripts packageJson = ok packageJson' /\
        lookup "package.json" (run_fs run)
        = Some (File (stringify EmptyString packageJson')
                     {| size := byteLength (stringify EmptyString packageJson');
                        mtime := time |})
  | Some (Dir _) => False
  end.
Proof.
  intros Hgo run. subst run. unfold initMemoryBank.
  rewrite (proceeds a project Hgo).
  destruct (lookup "memory-bank-template" project) as [[c0 s0 | template] |];
    try discriminate.
  destruct (buildTarget a date time template) as [target [e |]];
    [discriminate |].
  destruct (finishProject time parse
              (removeEntry "memory-bank" project ++ [("memory-bank", Dir target)]))
    as [fs [e |]] eqn:Efinish; [discriminate |].
  intros _. cbn [run_fs].
  pose proof (finishProject_package _ _ _ _ Efinish) as Hp.
  rewrite lookup_placed_other in Hp by discriminate.
  destruct (lookup "package.json" project) as [[content st | sub] |];
    [| exact Hp | exact Hp].
  destruct Hp as [content' [Hupd Hfile]].
  unfold updatePackageJson in Hupd.
  destruct (parse content) as [packageJson |]; [| discriminate].
  unfold bind in Hupd.
  destruct (addScripts packageJson) as [e | packageJson'] eqn:Eadd;
    [discriminate |].
  injection Hupd as <-.
  exists packageJson, packageJson'. auto.
Qed.

Lemma complete_run_rewrites_an_existing_package_json_witness :
  let st := {| size := 16; mtime := "2024-01-01T00:00:00.000Z" |} in
  let project := [ ("memory-bank-template", Dir sampleTemplate);
                   ("package.json", File samplePackageText st) ] in
  let run := initMemoryBank sampleAnswers "2024-01-02"
                            "2024-01-02T00:00:00.000Z" parseSample project in
  exists packageJson packageJson',
    parseSample samplePackageText = Some packageJson /\
    addScripts packageJson = ok packageJson' /\
    lookup "package.json" (run_fs run)
    = Some (File (stringify EmptyString packageJson')
                 {| size := byteLength (stringify EmptyString packageJson');
                    mtime := "2024-01-02T00:00:00.000Z" |}).
Proof.
  intros st project run.
  apply (complete_run_rewrites_an_existing_package_json
           sampleAnswers "2024-01-02" "2024-01-02T00:00:00.000Z"
           parseSample project).
  - left. reflexivity.
  - reflexivity.
Defined.

(** X23: when [package.json] is not JSON, or is JSON for [null], a
    boolean, a number or a string, the run fails after the destination
    is complete: with a syntax error in the first case and with the
    type error of the property access or of [Object.assign] in the
    others.  [memory-bank] then holds the finished copy, [package.json]
    is as it was and [scripts] is neither created nor changed. *)
Theorem bad_package_json_fails_after_the_destination
  (a : Answers) (date time : string)
  (parse : string -> option value)
  (project template target : list (string * node))
  (content : string) (st : Stats) :
  lookup "memory-bank-template" project = Some (Dir template) ->
  lookup "memory-bank" project = None \/ toLowerCase (overwrite a) = "y" ->
  buildTarget a date time template = (target, None) ->
  lookup "package.json" project = Some (File content st) ->
  (forall v, parse content = Some v -> isObjectValue v = false) ->
  let run := initMemoryBank a date time parse project in
  run_error run
  = Some (match parse content with
          | None => SyntaxError "package.json"
          | Some VNull =>
              TypeError "Cannot read properties of null (reading 'scripts')"
          | Some _ => TypeError "Cannot convert undefined or null to object"
          end) /\
  lookup "memory-bank" (run_fs run) = Some (Dir target) /\
  lookup "package.json" (run_fs run) = Some (File content st) /\
  lookup "scripts" (run_fs run) = lookup "scripts" project.
Proof.
  intros Htemplate Hgo Hbuild Hpkg Hbad run. subst run. unfold initMemoryBank.
  rewrite (proceeds a project Hgo), Htemplate, Hbuild.
  unfold finishProject.
  rewrite lookup_placed_other by discriminate. rewrite Hpkg.
  unfold updatePackageJson.
  assert (Hrest :
    lookup "memory-bank"
      (removeEntry "memory-bank" project ++ [("memory-bank", Dir target)])
    = Some (Dir target) /\
    lookup "package.json"
      (removeEntry "memory-bank" project ++ [("memory-bank", Dir target)])
    = Some (File content st) /\
    lookup "scripts"
      (removeEntry "memory-bank" project ++ [("memory-bank", Dir target)])
    = lookup "scripts" project).
  { split; [apply lookup_removeEntry_app |].
    split; [rewrite lookup_placed_other by discriminate; exact Hpkg |].
    apply lookup_placed_other. discriminate. }
  destruct (parse content) as [v |]; [| split; [reflexivity | exact Hrest]].
  specialize (Hbad v eq_refl).
  destruct v; try discriminate Hbad; (split; [reflexivity | exact Hrest]).
Qed.

Lemma bad_package_json_fails_after_the_destination_witness :
  let st := {| size := 4; mtime := "2024-01-01T00:00:00.000Z" |} in
  let project := [ ("memory-bank-template", Dir sampleTemplate);
                   ("package.json", File "null" st) ] in
  let run := initMemoryBank sampleAnswers "2024-01-02"
                            "2024-01-02T00:00:00.000Z" parseSample project in
  run_error run
  = Some (TypeError "Cannot read properties of null (reading 'scripts')") /\
  lookup "scripts" (run_fs run) = None.
Proof.
  intros st project run.
  destruct (bad_package_json_fails_after_the_destination
              sampleAnswers "2024-01-02" "2024-01-02T00:00:00.000Z"
              parseSample project sampleTemplate
              (fst (buildTarget sampleAnswers "2024-01-02"
                                "2024-01-02T00:00:00.000Z" sampleTemplate))
              "null" st)
    as [Herr [_ [_ Hscripts]]].
  - reflexivity.
  - left. reflexivity.
  - reflexivity.
  - reflexivity.
  - intros v Hv. injection Hv as <-. reflexivity.
  - split; [exact Herr | exact Hscripts].
Defined.

(** ** The scaffolder: the scripts of package.json *)

Lemma assignScripts_get (own : obj value) (k cmd : string) :
  In (k, cmd) memoryScripts ->
  objGet k (assignScripts own) = Some (VString cmd).
Proof.
  unfold assignScripts, memoryScripts. cbn [fold_left fst snd In].
  intros [H | [H | [H | [H | []]]]]; injection H as <- <-;
    repeat (rewrite objGet_objSet_ne by discriminate);
    apply objGet_objSet_eq.
Qed.

Lemma assignScripts_other (own : obj value) (k : string) :
  ~ In k (map fst memoryScripts) ->
  objGet k (assignScripts own) = objGet k own.
Proof.
  unfold assignScripts, memoryScripts. cbn [fold_left fst snd map In].
  intros H.
  rewrite !objGet_objSet_ne; [reflexivity | | | |];
    intros ->; apply H; auto.
Qed.

Lemma objGet_In_keys (k : string) (o : obj value) :
  objGet k o = None -> ~ In k (map fst o).
Proof.
  induction o as [| [k' v'] o IH]; cbn [objGet map fst In]; [tauto |].
  destruct (String.eqb_spec k' k) as [-> | Hne]; [discriminate |].
  intros H [Heq | Hin]; [congruence | exact (IH H Hin)].
Qed.

Lemma keys_objSet (k : string) (v : value) (o : obj value) :
  map fst (objSet k v o) =
  match objGet k o with
  | Some _ => map fst o
  | None => (map fst o ++ [k])%list
  end.
Proof.
  induction o as [| [k' v'] o IH]; [reflexivity |].
  cbn [objSet objGet]. destruct (String.eqb_spec k' k) as [-> | Hne].
  - reflexivity.
  - cbn [map fst]. rewrite IH. now destruct (objGet k o).
Qed.

(** X26: on a parsed object whose [scripts] is missing, falsy or an
    object, the update gives an object whose [scripts] is an object
    that maps the four memory commands to their command lines and
    keeps every other script it had; every other property of
    [package.json] keeps its value, and the properties keep their
    order, a new [scripts] coming last. *)
Theorem scripts_are_added_and_the_rest_is_kept (props : obj value) :
  (forall v, objGet "scripts" props = Some v -> truthy v = true ->
             exists own, v = VObject own) ->
  exists props' scripts',
    addScripts (VObject props) = ok (VObject props') /\
    objGet "scripts" props' = Some (VObject scripts') /\
    (forall k cmd, In (k, cmd) memoryScripts ->
                   objGet k scripts' = Some (VString cmd)) /\
    (forall k, ~ In k (map fst memoryScripts) ->
               objGet k scripts'
               = match objGet "scripts" props with
                 | Some (VObject own) => objGet k own
                 | _ => None
                 end) /\
    (forall k, k <> "scripts" -> objGet k props' = objGet k props) /\
    map fst props'
    = match objGet "scripts" props with
      | Some _ => map fst props
      | None => (map fst props ++ ["scripts"])%list
      end.
Proof.
  intros Hobj. unfold addScripts.
  destruct (objGet "scripts" props) as [v |] eqn:E.
  - destruct (truthy v) eqn:Et.
    + destruct (Hobj v eq_refl Et) as [own ->].
      exists (objSet "scripts" (VObject (assignScripts own)) props),
             (assignScripts own).
      split; [reflexivity |]. split; [apply objGet_objSet_eq |].
      split; [apply assignScripts_get |].
      split; [apply assignScripts_other |].
      split; [intros k Hk; now apply objGet_objSet_ne |].
      rewrite keys_objSet. now rewrite E.
    + exists (objSet "scripts" (VObject (assignScripts [])) props),
             (assignScripts []).
      split; [reflexivity |]. split; [apply objGet_objSet_eq |].
      split; [apply assignScripts_get |].
      split.
      { intros k Hk. rewrite (assignScripts_other [] k Hk).
        destruct v; try reflexivity. discriminate Et. }
      split; [intros k Hk; now apply objGet_objSet_ne |].
      rewrite keys_objSet. now rewrite E.
  - exists (objSet "scripts" (VObject (assignScripts [])) props),
           (assignScripts []).
    split; [reflexivity |]. split; [apply objGet_objSet_eq |].
    split; [apply assignScripts_get |].
    split; [intros k Hk; now rewrite (assignScripts_other [] k Hk) |].
    split; [intros k Hk; now apply objGet_objSet_ne |].
    rewrite keys_objSet. now rewrite E.
Qed.

Lemma scripts_are_added_and_the_rest_is_kept_witness :
  exists props' scripts',
    addScripts samplePackage = ok (VObject props') /\
    objGet "scripts" props' = Some (VObject scripts') /\
    objGet "memory:update" scripts'
    = Some (VString "node scripts/memory-update.js") /\
    objGet "name" props' = Some (VString "demo").
Proof.
  destruct (scripts_are_added_and_the_rest_is_kept [("name", VString "demo")])
    as [props' [scripts' [Hadd [Hget [Hfour [_ [Hrest _]]]]]]].
  - intros v Hv. discriminate Hv.
  - exists props', scripts'.
    split; [exact Hadd |]. split; [exact Hget |].
    split.
    + apply Hfour. unfold memoryScripts. cbn [In]. auto.
    + rewrite Hrest by discriminate. reflexivity.
Defined.

(** X27: when [package.json] holds an array, or an object whose
    [scripts] is truthy and not an object (an array, [true], a number
    other than zero or a string that is not empty), a run that
    completes adds no script: the four properties go where
    [JSON.stringify] does not show them, the file holds the parsed
    value serialized again, and the run ends with exit code 0. *)
Theorem complete_run_may_add_no_script
  (a : Answers) (date time : string)
  (parse : string -> option value)
  (project : list (string * node))
  (content : string) (st : Stats) (packageJson : value) :
  lookup "memory-bank" project = None \/ toLowerCase (overwrite a) = "y" ->
  lookup "package.json" project = Some (File content st) ->
  parse content = Some packageJson ->
  ((exists items, packageJson = VArray items) \/
   (exists props scripts,
      packageJson = VObject props /\
      objGet "scripts" props = Some scripts /\
      truthy scripts = true /\
      forall own, scripts <> VObject own)) ->
  let run := initMemoryBank a date time parse project in
  run_error run = None ->
  run_exit run = Some 0 /\
  lookup "package.json" (run_fs run)
  = Some (File (stringify EmptyString packageJson)
               {| size := byteLength (stringify EmptyString packageJson);
                  mtime := time |}).
Proof.
  intros Hgo Hpkg Hparse Hshape run. subst run. unfold initMemoryBank.
  rewrite (proceeds a project Hgo).
  destruct (lookup "memory-bank-template" project) as [[c0 s0 | template] |];
    try discriminate.
  destruct (buildTarget a date time template) as [target [e |]];
    [discriminate |].
  destruct (finishProject time parse
              (removeEntry "memory-bank" project ++ [("memory-bank", Dir target)]))
    as [fs [e |]] eqn:Efinish; [discriminate |].
  intros _. cbn [run_fs run_exit]. split; [reflexivity |].
  pose proof (finishProject_package _ _ _ _ Efinish) as Hp.
  rewrite lookup_placed_other in Hp by discriminate.
  rewrite Hpkg in Hp. destruct Hp as [content' [Hupd Hfile]].
  unfold updatePackageJson in Hupd. rewrite Hparse in Hupd.
  assert (Hadd : addScripts packageJson = ok packageJson).
  { destruct Hshape as [[items ->] | [props [scripts [-> [Hget [Ht Hno]]]]]];
      [reflexivity |].
    unfold addScripts. rewrite Hget, Ht.
    destruct scripts; try reflexivity. now destruct (Hno props0). }
  rewrite Hadd in Hupd. unfold bind in Hupd. injection Hupd as <-.
  exact Hfile.
Qed.

Lemma complete_run_may_add_no_script_witness :
  let st := {| size := 2; mtime := "2024-01-01T00:00:00.000Z" |} in
  let project := [ ("memory-bank-template", Dir sampleTemplate);
                   ("package.json", File "[]" st) ] in
  let run := initMemoryBank sampleAnswers "2024-01-02"
                            "2024-01-02T00:00:00.000Z" parseSample project in
  run_exit run = Some 0 /\
  lookup "package.json" (run_fs run)
  = Some (File "[]" {| size := 2; mtime := "2024-01-02T00:00:00.000Z" |}).
Proof.
  intros st project run.
  apply (complete_run_may_add_no_script
           sampleAnswers "2024-01-02" "2024-01-02T00:00:00.000Z"
           parseSample project "[]" st (VArray [])).
  - left. reflexivity.
  - reflexivity.
  - reflexivity.
  - left. exists []. reflexivity.
  - reflexivity.
Defined.

(** ** The overview: the two counts *)

(** X24: in a tree without hidden directories the list of recent
    updates is drawn from as many paths as [countFiles] counts: the
    two functions of the overview walk the same Markdown files. *)
Theorem overview_lists_as_many_files_as_it_counts (n : node) (dir : string) :
  noHiddenDirectory n = true ->
  List.length (getAllFiles n dir) = countFiles n.
Proof.
  revert dir. induction n as [content st | es IH] using node_ind;
    intros dir Hvis; [reflexivity |].
  induction es as [| [file child] es IHes]; [reflexivity |].
  inversion IH as [| e es' IHchild IHtail]; subst. simpl in IHchild.
  change (noHiddenDirectory (Dir ((file, child) :: es)))
    with (match child with
          | Dir _ => negb (startsWith file ".") && noHiddenDirectory child
          | File _ _ => true
          end && noHiddenDirectory (Dir es)) in Hvis.
  apply andb_true_iff in Hvis. destruct Hvis as [Hchild Htail].
  specialize (IHes IHtail Htail).
  rewrite countFiles_cons.
  change (getAllFiles (Dir ((file, child) :: es)) dir)
    with ((match child with
           | Dir _ =>
               if negb (startsWith file ".")
               then getAllFiles child (joinPath dir file)
               else if endsWith file ".md" then [joinPath dir file] else []
           | File _ _ =>
               if endsWith file ".md" then [joinPath dir file] else []
           end) ++ getAllFiles (Dir es) dir).
  rewrite length_app, IHes.
  destruct child as [content st | sub].
  - destruct (endsWith file ".md"); reflexivity.
  - apply andb_true_iff in Hchild. destruct Hchild as [Hname Hsub].
    rewrite Hname. now rewrite IHchild.
Qed.

Lemma overview_lists_as_many_files_as_it_counts_witness :
  List.length (getAllFiles (Dir nestedTree) EmptyString) = 3.
Proof.
  rewrite (overview_lists_as_many_files_as_it_counts (Dir nestedTree));
    reflexivity.
Defined.

(** ** The indexer: what a run writes *)

(** X25: a run of the indexer that fails writes nothing.  A run that
    succeeds changes one file only: [.index.json] in the memory bank
    holds the serialized index of the tree, and every other entry of
    the memory bank and of the project is what it was. *)
Theorem indexer_writes_only_the_index_file
  (now written shown : string) (project : list (string * node)) :
  let run := memoryUpdate now written shown project in
  (run_error run <> None -> run_fs run = project) /\
  (forall name, name <> "memory-bank" ->
                lookup name (run_fs run) = lookup name project) /\
  (run_error run = None ->
   exists es es' index,
     lookup "memory-bank" project = Some (Dir es) /\
     lookup "memory-bank" (run_fs run) = Some (Dir es') /\
     indexDirectory (Dir es) EmptyString EmptyString (emptyIndex now)
     = ok index /\
     lookup ".index.json" es'
     = Some (File (stringifyIndex index)
                  {| size := byteLength (stringifyIndex index);
                     mtime := written |}) /\
     forall name, name <> ".index.json" -> lookup name es' = lookup name es).
Proof.
  intros run. subst run. unfold memoryUpdate.
  destruct (lookup "memory-bank" project) as [[c0 s0 | es] |] eqn:Emb;
    cbn [run_error run_fs];
    try (split; [reflexivity | split; [reflexivity | discriminate]]).
  destruct (indexDirectory (Dir es) EmptyString EmptyString (emptyIndex now))
    as [e | index] eqn:Eindex; cbn [run_error run_fs];
    try (split; [reflexivity | split; [reflexivity | discriminate]]).
  destruct (writeFile ".index.json" (stringifyIndex index) written es)
    as [e | es'] eqn:Ew; cbn [run_error run_fs];
    try (split; [reflexivity | split; [reflexivity | discriminate]]).
  split; [congruence |].
  split; [intros name Hne; now apply lookup_replaceEntry_other |].
  intros _. exists es, es', index.
  split; [reflexivity |].
  split; [apply (lookup_replaceEntry _ _ _ _ Emb) |].
  split; [exact Eindex |].
  split; [apply (lookup_writeFile _ _ _ _ _ Ew) |].
  intros name Hne. apply (lookup_writeFile_other _ _ _ _ _ _ Ew Hne).
Qed.
